(** * BestNextRide dashboard: the CSV aggregation [processCSVData]

    A shallow embedding of the two [processCSVData] closures of the
    dashboard component (the plain variant, source lines 71-160, and the
    styled variant, source lines 528-635) and the properties of the
    aggregation they compute.

    Conventions of the embedding.
    - A JavaScript string is a [string]; its characters stand for code units
      in the range 0..255.
    - A JavaScript number that holds a wait time is a [number]: an integer
      or one of the two infinities.  NaN and undefined are the [None] of an
      [option].  Time values of [Date] objects are integers (milliseconds
      since the epoch), [None] being the invalid date.
    - The string [d.toISOString()] of a valid date is represented by the
      time value of [d]: parsing such a string gives the time value back.
    - The objects used as maps ([Record<string, T>]) are association lists
      in property creation order.
    - An exception is the [Throw] outcome of the error monad [outcome].
    - What the engine and its environment decide (date parsing, the local
      time zone, locale formatting) is a parameter, the record [Host].

    The file has three parts: the embedding of the source, the vocabulary
    of the statements, and the lemmas and theorems. *)

From Stdlib Require Import ZArith List String Ascii Bool Lia.
From Stdlib Require Import Sorted Permutation.
Import ListNotations.

Local Open Scope string_scope.
Local Open Scope Z_scope.

(* ================================================================== *)
(** * The embedding *)

(** ** Strings *)

Module JsString.

Definition code (c : ascii) : Z := Z.of_N (N_of_ascii c).

Definition dquote : ascii := ascii_of_nat 34.
Definition comma : ascii := ascii_of_nat 44.
Definition LF : ascii := ascii_of_nat 10.

(** WhiteSpace and LineTerminator code units below 256: TAB, LF, VT, FF, CR,
    SP and NBSP. *)
Definition isWhiteSpace (c : ascii) : bool :=
  let n := code c in
  ((9 <=? n) && (n <=? 13)) || (n =? 32) || (n =? 160).

Definition isEmpty (s : string) : bool :=
  match s with EmptyString => true | String _ _ => false end.

Fixpoint trimStart (s : string) : string :=
  match s with
  | EmptyString => EmptyString
  | String c s' => if isWhiteSpace c then trimStart s' else s
  end.

Fixpoint trimEnd (s : string) : string :=
  match s with
  | EmptyString => EmptyString
  | String c s' =>
      let t := trimEnd s' in
      if isWhiteSpace c && isEmpty t then EmptyString else String c t
  end.

(** [s.trim()] *)
Definition trim (s : string) : string := trimEnd (trimStart s).

(** [s.split(sep)] for a one-character separator: never the empty list. *)
Fixpoint split (sep : ascii) (s : string) : list string :=
  match s with
  | EmptyString => [EmptyString]
  | String c s' =>
      let r := split sep s' in
      if Ascii.eqb c sep then EmptyString :: r
      else match r with
           | x :: xs => String c x :: xs
           | [] => [String c EmptyString]
           end
  end.

Fixpoint countQuotes (s : string) : nat :=
  match s with
  | EmptyString => O
  | String c s' => if Ascii.eqb c dquote then S (countQuotes s') else countQuotes s'
  end.

(** [row.split(re)] for the regular expression of source lines 73 and 534,
    a comma with a lookahead that pairs up the double quotes of the rest of
    the row: the row is cut at every comma that is followed, up to the end
    of the row, by an even number of double quotes. *)
Fixpoint splitFields (s : string) : list string :=
  match s with
  | EmptyString => [EmptyString]
  | String c s' =>
      let r := splitFields s' in
      if Ascii.eqb c comma && Nat.even (countQuotes s') then EmptyString :: r
      else match r with
           | x :: xs => String c x :: xs
           | [] => [String c EmptyString]
           end
  end.

Fixpoint dropLastQuote (s : string) : string :=
  match s with
  | EmptyString => EmptyString
  | String c EmptyString => if Ascii.eqb c dquote then EmptyString else s
  | String c s' => String c (dropLastQuote s')
  end.

(** [field.replace(re, empty)] for the global regular expression of source
    lines 74 and 535 (a double quote at the start, or one at the end): one
    leading and one trailing double quote are removed, each when present. *)
Definition stripQuotes (s : string) : string :=
  match s with
  | EmptyString => EmptyString
  | String c s' => if Ascii.eqb c dquote then dropLastQuote s' else dropLastQuote s
  end.

Definition lowerChar (c : ascii) : ascii :=
  let n := code c in
  if ((65 <=? n) && (n <=? 90))
     || ((192 <=? n) && (n <=? 222) && negb (n =? 215))
  then ascii_of_N (Z.to_N (n + 32)) else c.

(** [s.toLowerCase()] *)
Fixpoint toLowerCase (s : string) : string :=
  match s with
  | EmptyString => EmptyString
  | String c s' => String (lowerChar c) (toLowerCase s')
  end.

Definition isDigit (c : ascii) : bool := (48 <=? code c) && (code c <=? 57).

Definition digitValue (c : ascii) : Z := code c - 48.

(** Value of the longest prefix of decimal digits, with the number of
    digits read. *)
Fixpoint readDigits (acc : Z) (n : nat) (s : string) : Z * nat :=
  match s with
  | String c s' =>
      if isDigit c then readDigits (10 * acc + digitValue c) (S n) s' else (acc, n)
  | EmptyString => (acc, n)
  end.

Definition join (sep : string) (l : list string) : string :=
  match l with
  | [] => EmptyString
  | x :: xs => fold_left (fun acc y => (acc ++ sep ++ y)%string) xs x
  end.

End JsString.

Import JsString.

(* ================================================================== *)
(** ** Numbers *)

Inductive number : Type :=
| Fin (z : Z)
| PosInf
| NegInf.

(** The Number value of a mathematical integer: the nearest double, ties to
    even, overflowing to an infinity.  Integers below 2^53 in magnitude are
    exact. *)
Definition roundToDouble (n : Z) : number :=
  let a := Z.abs n in
  if a <? 2 ^ 53 then Fin n
  else
    let e := Z.log2 a - 52 in
    let q := a / 2 ^ e in
    let r := a mod 2 ^ e in
    let q' := if 2 * r <? 2 ^ e then q
              else if 2 ^ e <? 2 * r then q + 1
              else if Z.even q then q else q + 1 in
    let v := q' * 2 ^ e in
    if 2 ^ 1024 <=? v then (if n <? 0 then NegInf else PosInf)
    else Fin (Z.sgn n * v).

(** [a < b] on numbers *)
Definition num_ltb (a b : number) : bool :=
  match a, b with
  | Fin x, Fin y => x <? y
  | Fin _, PosInf => true
  | NegInf, Fin _ => true
  | NegInf, PosInf => true
  | _, _ => false
  end.

(** [a > b] on numbers *)
Definition num_gtb (a b : number) : bool := num_ltb b a.

Definition num_leb (a b : number) : bool := negb (num_ltb b a).

(** [a < b] where either side may be undefined or NaN: then false. *)
Definition lt_undef (a b : option number) : bool :=
  match a, b with
  | Some x, Some y => num_ltb x y
  | _, _ => false
  end.

(** [x || d] where x is a number, NaN or undefined: 0, NaN and undefined are
    falsy. *)
Definition orElse (x : option number) (d : number) : number :=
  match x with
  | Some (Fin 0) => d
  | Some n => n
  | None => d
  end.

(** [parseInt(s, 10)]: leading white space, an optional sign, then the
    longest run of decimal digits; NaN when there is no digit.  The integer
    read is rounded to a double (past twenty digits an engine may
    approximate; the rounding here is exact).  The result for minus zero is
    the integer zero here: it is only used under [|| 0]. *)
Definition parseInt10 (s : string) : option number :=
  let s1 := trimStart s in
  let '(neg, s2) :=
    match s1 with
    | String c r =>
        if Ascii.eqb c "-"%char then (true, r)
        else if Ascii.eqb c "+"%char then (false, r)
        else (false, s1)
    | EmptyString => (false, s1)
    end in
  let '(v, n) := readDigits 0 O s2 in
  match n with
  | O => None
  | S _ => Some (roundToDouble (if neg then - v else v))
  end.

(* ================================================================== *)
(** ** Dates *)

Definition msPerSecond : Z := 1000.
Definition msPerMinute : Z := 60000.
Definition msPerHour : Z := 3600000.
Definition msPerDay : Z := 86400000.

Definition Day (t : Z) : Z := t / msPerDay.
Definition HourFromTime (t : Z) : Z := (t / msPerHour) mod 24.
Definition MinFromTime (t : Z) : Z := (t / msPerMinute) mod 60.
Definition SecFromTime (t : Z) : Z := (t / msPerSecond) mod 60.
Definition msFromTime (t : Z) : Z := t mod msPerSecond.

Definition MakeTime (hour min sec ms : Z) : Z :=
  hour * msPerHour + min * msPerMinute + sec * msPerSecond + ms.
Definition MakeDate (day time : Z) : Z := day * msPerDay + time.

Definition TimeClip (t : Z) : option Z :=
  if 8640000000000000 <? Z.abs t then None else Some t.

(** What the host (engine, locale data and time zone) decides: how a string
    is read as a date, the local time zone, and the formatting of a time of
    day for the locale en-US with two-digit hour and minute and
    [hour12: false]. *)
Record Host : Type := {
  dateParse : string -> option Z;
  LocalTime : Z -> Z;
  UTC : Z -> Z;
  toLocaleTimeString : Z -> string
}.

(* ================================================================== *)
(** ** Objects used as maps *)

Module JsObject.

(** Own properties in creation order. *)
Definition obj (V : Type) : Type := list (string * V).

Fixpoint get {V : Type} (o : obj V) (k : string) : option V :=
  match o with
  | [] => None
  | (k', v) :: o' => if String.eqb k' k then Some v else get o' k
  end.

(** [o[k] = v]: an existing property keeps its place, a new one is created
    last. *)
Fixpoint set {V : Type} (o : obj V) (k : string) (v : V) : obj V :=
  match o with
  | [] => [(k, v)]
  | (k', v') :: o' =>
      if String.eqb k' k then (k', v) :: o' else (k', v') :: set o' k v
  end.

Definition has {V : Type} (o : obj V) (k : string) : bool :=
  match get o k with Some _ => true | None => false end.

Fixpoint allDigits (s : string) : bool :=
  match s with
  | EmptyString => true
  | String c s' => isDigit c && allDigits s'
  end.

(** The array index a property key denotes, if any: a canonical decimal
    numeral below 2^32 - 1. *)
Definition arrayIndex (k : string) : option Z :=
  match k with
  | EmptyString => None
  | String c r =>
      if allDigits k && (negb (Ascii.eqb c "0"%char) || isEmpty r) then
        let v := fst (readDigits 0 O k) in
        if v <? 2 ^ 32 - 1 then Some v else None
      else None
  end.

Fixpoint insertIndex {V : Type} (x : Z * (string * V)) (l : list (Z * (string * V)))
  : list (Z * (string * V)) :=
  match l with
  | [] => [x]
  | y :: l' => if fst y <? fst x then y :: insertIndex x l' else x :: l
  end.

Fixpoint indexed {V : Type} (o : obj V) : list (Z * (string * V)) :=
  match o with
  | [] => []
  | (k, v) :: o' =>
      match arrayIndex k with
      | Some i => insertIndex (i, (k, v)) (indexed o')
      | None => indexed o'
      end
  end.

Definition named {V : Type} (o : obj V) : obj V :=
  filter (fun kv => match arrayIndex (fst kv) with Some _ => false | None => true end) o.

(** Property enumeration order: array indices ascending, then the other
    keys in creation order. *)
Definition entries {V : Type} (o : obj V) : obj V :=
  (map snd (indexed o) ++ named o)%list.

(** [Object.values(o)] *)
Definition values {V : Type} (o : obj V) : list V := map snd (entries o).

(** [Object.keys(o)] *)
Definition keys {V : Type} (o : obj V) : list string := map fst (entries o).

(** The property names every object inherits from [Object.prototype]. *)
Definition inheritedNames : list string :=
  [ "constructor"; "hasOwnProperty"; "isPrototypeOf"; "propertyIsEnumerable";
    "toLocaleString"; "toString"; "valueOf"; "__proto__";
    "__defineGetter__"; "__defineSetter__"; "__lookupGetter__"; "__lookupSetter__" ].

Definition inherited (k : string) : bool := existsb (String.eqb k) inheritedNames.

(** What a property read [o[k]] gives the code: an entry the code has
    stored; a value of another kind, which is truthy and has none of the
    fields of an entry (a method of [Object.prototype], [Object.prototype]
    itself, a truthy field of the object that has become the prototype); or
    nothing truthy (undefined, or a falsy field of that object). *)
Inductive slot (V : Type) : Type :=
| Entry (v : V)
| Foreign
| Missing.

Arguments Entry {V} v.
Arguments Foreign {V}.
Arguments Missing {V}.

(** [o[k]] on an object literal with own properties [o].  Its prototype is
    [Object.prototype], or the object [p] once an assignment at [__proto__]
    has replaced it; [fields p] are the own properties of [p], each with the
    truthiness of its value.  [__proto__] is an accessor of
    [Object.prototype]: read, it gives the prototype of the object. *)
Definition lookup {V : Type} (fields : V -> obj bool) (proto : option V) (o : obj V)
    (k : string) : slot V :=
  if String.eqb k "__proto__" then
    match proto with
    | Some p => Entry p
    | None => Foreign
    end
  else
    match get o k with
    | Some v => Entry v
    | None =>
        match match proto with Some p => get (fields p) k | None => None end with
        | Some true => Foreign
        | Some false => Missing
        | None => if inherited k then Foreign else Missing
        end
    end.

(** [o[k]] on an object whose prototype is [Object.prototype]. *)
Definition read {V : Type} (o : obj V) (k : string) : slot V :=
  lookup (fun _ => []) None o k.

(** [o[k] = v] where [v] is an object: at [__proto__] the accessor makes
    [v] the prototype of [o]; at any other key the own property is written
    or created (the members of [Object.prototype] and the fields of an
    object literal are writable data properties). *)
Definition assign {V : Type} (proto : option V) (o : obj V) (k : string) (v : V)
  : option V * obj V :=
  if String.eqb k "__proto__" then (Some v, o) else (proto, set o k v).

(** [!x || g x] where [x] is what a property read gave and [foreign] is
    the value of the test on a value without the fields of an entry. *)
Definition missingOr {V : Type} (x : slot V) (g : V -> bool) (foreign : bool) : bool :=
  match x with
  | Missing => true
  | Entry e => g e
  | Foreign => foreign
  end.

End JsObject.

Import JsObject.

(* ================================================================== *)
(** ** Completions *)

Inductive exn : Type := TypeError | RangeError.

(** How a call ends: it returns a value or throws.  [Unmodelled] marks the
    one situation this embedding does not follow: a chart drawn on a member
    of [Object.prototype] (see [chartData]).  The aggregation never ends
    that way. *)
Inductive outcome (A : Type) : Type :=
| Normal (a : A)
| Throw (e : exn)
| Unmodelled.

Arguments Normal {A} a.
Arguments Throw {A} e.
Arguments Unmodelled {A}.

Definition bind {A B : Type} (c : outcome A) (k : A -> outcome B) : outcome B :=
  match c with
  | Normal a => k a
  | Throw e => Throw e
  | Unmodelled => Unmodelled
  end.

Notation "x <- c ;; k" := (bind c (fun x => k))
  (at level 61, c at next level, right associativity).

(** [l.forEach(f)] with the state the callback mutates passed along. *)
Fixpoint forEach {A S : Type} (f : S -> A -> outcome S) (l : list A) (s : S)
  : outcome S :=
  match l with
  | [] => Normal s
  | x :: l' => s' <- f s x ;; forEach f l' s'
  end.

(* ================================================================== *)
(** ** Data model (source lines 4-31) *)

Record RideData : Type := {
  ride_name : string;
  wait_time : number;
  last_update : string;
  is_open : bool;
  timestamp : Z
}.

Record RideMaxMinData : Type := {
  mm_ride_name : string;
  max_wait_time : option number;
  min_wait_time : option number;
  mm_timestamp : Z
}.

Record TimeDataEntry : Type := {
  time : string;
  waitTime : option number;
  isOpen : bool
}.

Record ProcessedData : Type := {
  currentData : list RideData;
  maxData : list RideMaxMinData;
  minData : list RideMaxMinData;
  timeData : obj (list TimeDataEntry);
  latestTimestamp : option Z
}.

(** The locals of one [forEach] callback (source lines 83-89): a reading. *)
Record Reading : Type := {
  rideKey : string;
  numericWaitTime : number;
  lastUpdate : string;
  isRideOpen : bool;
  currentDate : option Z;
  currentHour : option Z
}.

(** The four accumulators (source lines 77-80): their own properties, and
    for the two whose guards let an assignment reach [__proto__], the entry
    that has replaced their prototype.  The guards of [latestEntries] and
    [timeData] fail wherever the read gives an inherited member, so the
    prototype of these two stays [Object.prototype]. *)
Record Acc : Type := {
  latestEntries : obj RideData;
  maxWaitTimes : obj RideMaxMinData;
  maxProto : option RideMaxMinData;
  minWaitTimes : obj RideMaxMinData;
  minProto : option RideMaxMinData;
  timeDataAcc : obj (list TimeDataEntry)
}.

Definition emptyAcc : Acc :=
  {| latestEntries := []; maxWaitTimes := []; maxProto := None;
     minWaitTimes := []; minProto := None; timeDataAcc := [] |}.

(** A number as a condition: 0 is falsy (NaN is not a [number] here). *)
Definition truthyNumber (n : number) : bool :=
  match n with Fin 0 => false | _ => true end.

(** The own properties of a peak or trough entry, each with the truthiness
    of its value (the time stamp is a non-empty string). *)
Definition entryFields (e : RideMaxMinData) : obj bool :=
  (("ride_name", negb (isEmpty (mm_ride_name e))) ::
   match max_wait_time e with Some n => [("max_wait_time", truthyNumber n)] | None => [] end ++
   match min_wait_time e with Some n => [("min_wait_time", truthyNumber n)] | None => [] end ++
   [("timestamp", true)])%list.

(** The two dashboards: the plain one (source lines 71-160) and the styled
    one (source lines 528-635). *)
Inductive variant : Type := Plain | Styled.

(* ================================================================== *)
(** ** The aggregation *)

Section Aggregation.

Variable host : Host.

(** [new Date(s)] *)
Definition newDate (s : string) : option Z := dateParse host s.

(** [d.getHours()] *)
Definition getHours (d : option Z) : option Z :=
  option_map (fun t => HourFromTime (LocalTime host t)) d.

(** [d.setHours(hour)]: the date [d] is changed to. *)
Definition setHours (d : option Z) (hour : option Z) : option Z :=
  match d, hour with
  | Some t, Some h =>
      let lt := LocalTime host t in
      TimeClip (UTC host (MakeDate (Day lt)
                  (MakeTime h (MinFromTime lt) (SecFromTime lt) (msFromTime lt))))
  | _, _ => None
  end.

(** [d.toISOString()]: throws on the invalid date. *)
Definition toISOString (d : option Z) : outcome Z :=
  match d with
  | Some t => Normal t
  | None => Throw RangeError
  end.

(** [d.toLocaleTimeString('en-US', {hour: '2-digit', minute: '2-digit',
    hour12: false})] *)
Definition timeLabel (d : option Z) : string :=
  match d with
  | Some t => toLocaleTimeString host t
  | None => "Invalid Date"
  end.

(** [a > b] on time values, false when one is NaN. *)
Definition time_gtb (a b : option Z) : bool :=
  match a, b with
  | Some x, Some y => y <? x
  | _, _ => false
  end.

(** [lo <= h && h <= hi], false when [h] is NaN. *)
Definition hourBetween (lo hi : Z) (h : option Z) : bool :=
  match h with
  | Some x => (lo <=? x) && (x <=? hi)
  | None => false
  end.

(** [lo <= h && h < hi], false when [h] is NaN. *)
Definition hourWithin (lo hi : Z) (h : option Z) : bool :=
  match h with
  | Some x => (lo <=? x) && (x <? hi)
  | None => false
  end.

(** Source lines 82-89 and 543-550: the array pattern binds the first five
    fields; with fewer than five, [isOpen] is undefined and
    [isOpen.toLowerCase()] throws ([parseInt(undefined, 10)] on the line
    before it does not). *)
Definition readRow (row : list string) : outcome Reading :=
  match row with
  | timestamp :: rideName :: waitTime :: lastUpdate :: isOpen :: _ =>
      let numericWaitTime := orElse (parseInt10 waitTime) (Fin 0) in
      let isRideOpen := String.eqb (toLowerCase isOpen) "true" in
      let rideKey := trim rideName in
      let currentDate := newDate timestamp in
      let currentDate :=
        setHours currentDate (option_map (fun h => h + 1) (getHours currentDate)) in
      let currentHour := getHours currentDate in
      Normal {| rideKey := rideKey;
                numericWaitTime := numericWaitTime;
                lastUpdate := lastUpdate;
                isRideOpen := isRideOpen;
                currentDate := currentDate;
                currentHour := currentHour |}
  | _ => Throw TypeError
  end.

(** [timeData[k].push(x)]: an inherited member has no [push], and calling
    undefined throws. *)
Definition push (timeData : obj (list TimeDataEntry)) (k : string) (x : TimeDataEntry)
  : outcome (obj (list TimeDataEntry)) :=
  match read timeData k with
  | Entry s => Normal (set timeData k (s ++ [x])%list)
  | Foreign => Throw TypeError
  | Missing => Throw TypeError
  end.

(** The guard on the stored maximum: [n > e.max_wait_time!] (source line
    118) and [n > (e.max_wait_time || 0)] (source line 583). *)
Definition exceedsMax (v : variant) (n : number) (e : RideMaxMinData) : bool :=
  match v with
  | Plain => lt_undef (max_wait_time e) (Some n)
  | Styled => num_gtb n (orElse (max_wait_time e) (Fin 0))
  end.

(** The guard on the stored minimum: [n < e.min_wait_time!] (source line
    127) and [n < (e.min_wait_time || Infinity)] (source line 595). *)
Definition belowMin (v : variant) (n : number) (e : RideMaxMinData) : bool :=
  match v with
  | Plain => lt_undef (Some n) (min_wait_time e)
  | Styled => num_ltb n (orElse (min_wait_time e) PosInf)
  end.

(** The two guards on a value that has no such field: [n > undefined] and
    [n > (undefined || 0)]; [n < undefined] and [n < (undefined || Infinity)]. *)
Definition exceedsForeign (v : variant) (n : number) : bool :=
  match v with
  | Plain => lt_undef None (Some n)
  | Styled => num_gtb n (orElse None (Fin 0))
  end.

Definition belowForeign (v : variant) (n : number) : bool :=
  match v with
  | Plain => lt_undef (Some n) None
  | Styled => num_ltb n (orElse None PosInf)
  end.

(** [!o[k] || g o[k]] on own properties only. *)
Definition absentOr {V : Type} (o : obj V) (k : string) (g : V -> bool) : bool :=
  match get o k with
  | None => true
  | Some e => g e
  end.

(** Source lines 91-135 and 552-604: the four accumulators are updated with
    one reading. *)
Definition step (v : variant) (acc : Acc) (r : Reading) : outcome Acc :=
  let rideKey := rideKey r in
  let timeData := timeDataAcc acc in
  let timeData :=
    match read timeData rideKey with
    | Missing => set timeData rideKey []
    | _ => timeData
    end in
  timeData <-
    (if hourBetween 8 21 (currentHour r) then
       push timeData rideKey
         {| time := timeLabel (currentDate r);
            waitTime := if isRideOpen r then Some (numericWaitTime r) else None;
            isOpen := isRideOpen r |}
     else Normal timeData) ;;
  let latestEntries := latestEntries acc in
  let existingDate :=
    match read latestEntries rideKey with
    | Entry e => Some (timestamp e)
    | Foreign => None
    | Missing => Some 0
    end in
  latestEntries <-
    (if missingOr (read latestEntries rideKey)
                  (fun _ => time_gtb (currentDate r) existingDate)
                  (time_gtb (currentDate r) existingDate) then
       iso <- toISOString (currentDate r) ;;
       Normal (set latestEntries rideKey
                 {| ride_name := rideKey;
                    wait_time := numericWaitTime r;
                    last_update := lastUpdate r;
                    is_open := isRideOpen r;
                    timestamp := iso |})
     else Normal latestEntries) ;;
  if isRideOpen r then
    maxWaitTimes <-
      (if missingOr (lookup entryFields (maxProto acc) (maxWaitTimes acc) rideKey)
                    (exceedsMax v (numericWaitTime r))
                    (exceedsForeign v (numericWaitTime r)) then
         iso <- toISOString (currentDate r) ;;
         Normal (assign (maxProto acc) (maxWaitTimes acc) rideKey
                   {| mm_ride_name := rideKey;
                      max_wait_time := Some (numericWaitTime r);
                      min_wait_time := None;
                      mm_timestamp := iso |})
       else Normal (maxProto acc, maxWaitTimes acc)) ;;
    minWaitTimes <-
      (if hourWithin 10 18 (currentHour r) then
         if missingOr (lookup entryFields (minProto acc) (minWaitTimes acc) rideKey)
                      (belowMin v (numericWaitTime r))
                      (belowForeign v (numericWaitTime r)) then
           iso <- toISOString (currentDate r) ;;
           Normal (assign (minProto acc) (minWaitTimes acc) rideKey
                     {| mm_ride_name := rideKey;
                        max_wait_time := None;
                        min_wait_time := Some (numericWaitTime r);
                        mm_timestamp := iso |})
         else Normal (minProto acc, minWaitTimes acc)
       else Normal (minProto acc, minWaitTimes acc)) ;;
    Normal {| latestEntries := latestEntries;
              maxWaitTimes := snd maxWaitTimes;
              maxProto := fst maxWaitTimes;
              minWaitTimes := snd minWaitTimes;
              minProto := fst minWaitTimes;
              timeDataAcc := timeData |}
  else
    Normal {| latestEntries := latestEntries;
              maxWaitTimes := maxWaitTimes acc;
              maxProto := maxProto acc;
              minWaitTimes := minWaitTimes acc;
              minProto := minProto acc;
              timeDataAcc := timeData |}.

(** The callback of [rows.slice(1).forEach]. *)
Definition processRow (v : variant) (acc : Acc) (row : list string) : outcome Acc :=
  r <- readRow row ;; step v acc r.

(** Source lines 72-75 and 529-536. *)
Definition parseRows (csvText : string) : list (list string) :=
  map (fun row => map (fun field => stripQuotes (trim field)) (splitFields row))
      (split LF (trim csvText)).

(** [new Date('1970/01/01 ' + label).getTime()] *)
Definition labelTime (label : string) : option Z :=
  newDate ("1970/01/01 " ++ label).

(** The comparison function of source lines 139-141 and 608-613: a
    difference of two time values, NaN when one is. *)
Definition compareFn (a b : TimeDataEntry) : option Z :=
  match labelTime (time a), labelTime (time b) with
  | Some x, Some y => Some (x - y)
  | _, _ => None
  end.

(** SortCompare: a NaN from the comparison function counts as zero. *)
Definition SortCompare (a b : TimeDataEntry) : Z :=
  match compareFn a b with
  | Some v => v
  | None => 0
  end.

Fixpoint insertSorted (x : TimeDataEntry) (l : list TimeDataEntry) : list TimeDataEntry :=
  match l with
  | [] => [x]
  | y :: l' => if 0 <? SortCompare x y then y :: insertSorted x l' else x :: l
  end.

(** [a.sort(compareFn)]: a stable sort.  An element moves behind those
    after it that compare strictly below it; when the comparison function is
    a consistent ordering this is the one list a stable sort can return. *)
Fixpoint sort (l : list TimeDataEntry) : list TimeDataEntry :=
  match l with
  | [] => []
  | x :: l' => insertSorted x (sort l')
  end.

(** Source lines 138-159 and 607-634. *)
Definition assemble (acc : Acc) : ProcessedData :=
  let timeData := map (fun kv => (fst kv, sort (snd kv))) (timeDataAcc acc) in
  let currentData := values (latestEntries acc) in
  let maxData := values (maxWaitTimes acc) in
  let minData := values (minWaitTimes acc) in
  let latestTimestamp :=
    if (0 <? Z.of_nat (List.length currentData)) then
      Some (fold_left (fun max entry => Z.max max (timestamp entry)) currentData 0)
    else None in
  {| currentData := currentData;
     maxData := maxData;
     minData := minData;
     timeData := timeData;
     latestTimestamp :=
       match latestTimestamp with
       | Some m => if m =? 0 then None else Some m
       | None => None
       end |}.

Definition processCSVData (v : variant) (csvText : string) : outcome ProcessedData :=
  let rows := parseRows csvText in
  acc <- forEach (processRow v) (tl rows) emptyAcc ;;
  Normal (assemble acc).

End Aggregation.

(* ================================================================== *)
(** ** A host for the examples

    A host in the UTC time zone that reads two forms of date strings:
    YYYY-MM-DDTHH:mm:ss (local time) and YYYY/MM/DD HH:mm (local time), and
    nothing else. *)

Module UtcHost.

Definition daysFromCivil (y m d : Z) : Z :=
  let y' := if m <=? 2 then y - 1 else y in
  let era := y' / 400 in
  let yoe := y' - era * 400 in
  let doy := (153 * (if 2 <? m then m - 3 else m + 9) + 2) / 5 + d - 1 in
  let doe := yoe * 365 + yoe / 4 - yoe / 100 + doy in
  era * 146097 + doe - 719468.

Definition isLeap (y : Z) : bool :=
  ((y mod 4 =? 0) && negb (y mod 100 =? 0)) || (y mod 400 =? 0).

Definition daysInMonth (y m : Z) : Z :=
  if m =? 2 then (if isLeap y then 29 else 28)
  else if (m =? 4) || (m =? 6) || (m =? 9) || (m =? 11) then 30 else 31.

Definition num2 (a b : ascii) : option Z :=
  if isDigit a && isDigit b then Some (10 * digitValue a + digitValue b) else None.

Definition num4 (a b c d : ascii) : option Z :=
  match num2 a b, num2 c d with
  | Some x, Some y => Some (100 * x + y)
  | _, _ => None
  end.

Definition civil (y m d h mi s : option Z) : option Z :=
  match y, m, d, h, mi, s with
  | Some y, Some m, Some d, Some h, Some mi, Some s =>
      if (1 <=? m) && (m <=? 12) && (1 <=? d) && (d <=? daysInMonth y m)
         && (h <=? 23) && (mi <=? 59) && (s <=? 59)
      then Some (MakeDate (daysFromCivil y m d) (MakeTime h mi s 0))
      else None
  | _, _, _, _, _, _ => None
  end.

Definition charIs (c : ascii) (x : string) : bool := String.eqb (String c EmptyString) x.

Definition parse (s : string) : option Z :=
  match list_ascii_of_string s with
  | [y1; y2; y3; y4; p1; m1; m2; p2; d1; d2; p3; h1; h2; p4; n1; n2; p5; s1; s2] =>
      if charIs p1 "-" && charIs p2 "-" && charIs p3 "T" && charIs p4 ":" && charIs p5 ":" then
        civil (num4 y1 y2 y3 y4) (num2 m1 m2) (num2 d1 d2)
              (num2 h1 h2) (num2 n1 n2) (num2 s1 s2)
      else None
  | [y1; y2; y3; y4; p1; m1; m2; p2; d1; d2; p3; h1; h2; p4; n1; n2] =>
      if charIs p1 "/" && charIs p2 "/" && charIs p3 " " && charIs p4 ":" then
        civil (num4 y1 y2 y3 y4) (num2 m1 m2) (num2 d1 d2)
              (num2 h1 h2) (num2 n1 n2) (Some 0)
      else None
  | _ => None
  end.

Definition digitChar (n : Z) : ascii := ascii_of_N (Z.to_N (48 + n)).

Definition pad2 (n : Z) : string :=
  String (digitChar (n / 10)) (String (digitChar (n mod 10)) EmptyString).

Definition hhmm (t : Z) : string :=
  pad2 (HourFromTime t) ++ ":" ++ pad2 (MinFromTime t).

Definition host : Host :=
  {| dateParse := parse;
     LocalTime := fun t => t;
     UTC := fun t => t;
     toLocaleTimeString := hhmm |}.

End UtcHost.

(** A text from its lines. *)
Definition csv (lines : list string) : string := join (String LF EmptyString) lines.

(* ================================================================== *)
(** ** The dashboard's functions on the summary *)

Module Dashboard.

(** [w <= c] for a number [w] that may be NaN or undefined: then false. *)
Definition le_const (w : option number) (c : Z) : bool :=
  match w with
  | Some n => num_leb n (Fin c)
  | None => false
  end.

(** Source lines 63-69 and 517-526. *)
Definition getCategoryFromWaitTime (waitTime : option number) (isOpen : bool) : string :=
  if negb isOpen then "Closed"
  else if le_const waitTime 15 then "Short"
  else if le_const waitTime 30 then "Medium"
  else if le_const waitTime 45 then "Long"
  else "Very Long".

(** [theme.colors] and [theme.categoryColors] of the style module, as far as
    the dashboard reads them. *)
Module theme.
Definition success : string := "#16a34a".
Definition warning : string := "#eab308".
Definition danger : string := "#dc2626".
Definition gray : string := "#64748b".
Definition categoryColors : obj string :=
  [ ("Short", "#16a34a"); ("Medium", "#eab308"); ("Long", "#ea580c");
    ("Very Long", "#dc2626"); ("Closed", "#64748b") ].
End theme.

(** The class names of the category headers of the plain dashboard (source
    lines 47-53). *)
Definition categoryColors : obj string :=
  [ ("Short", "bg-green-600 text-white"); ("Medium", "bg-yellow-600 text-white");
    ("Long", "bg-orange-600 text-white"); ("Very Long", "bg-red-600 text-white");
    ("Closed", "bg-gray-600 text-white") ].

(** Source lines 55-61 and 509-515. *)
Definition getWaitTimeColor (v : variant) (waitTime : option number) (isOpen : bool)
  : string :=
  match v with
  | Plain =>
      if negb isOpen then "text-gray-700"
      else if le_const waitTime 15 then "text-green-700"
      else if le_const waitTime 30 then "text-yellow-700"
      else if le_const waitTime 45 then "text-orange-700"
      else "text-red-700"
  | Styled =>
      if negb isOpen then theme.gray
      else if le_const waitTime 15 then theme.success
      else if le_const waitTime 30 then theme.warning
      else if le_const waitTime 45 then theme.danger
      else theme.danger
  end.

(** [o[k].push(x)]: a TypeError when [o[k]] is undefined. *)
Definition pushTo {V : Type} (o : obj (list V)) (k : string) (x : V)
  : outcome (obj (list V)) :=
  match get o k with
  | Some s => Normal (set o k (s ++ [x])%list)
  | None => Throw TypeError
  end.

(** Source lines 185-199 and 666-680; the reduce passes the one object
    along. *)
Definition categorizeAttractions (allData : list RideData)
  : outcome (obj (list RideData)) :=
  let categories : obj (list RideData) :=
    [ ("Short", []); ("Medium", []); ("Long", []); ("Very Long", []); ("Closed", []) ] in
  forEach (fun acc entry =>
             let category :=
               getCategoryFromWaitTime (Some (wait_time entry)) (is_open entry) in
             pushTo acc category entry)
          allData categories.

Fixpoint startsWith (s prefix : string) : bool :=
  match prefix, s with
  | EmptyString, _ => true
  | String p prefix', String c s' => Ascii.eqb c p && startsWith s' prefix'
  | String _ _, EmptyString => false
  end.

(** [s.includes(needle)] *)
Fixpoint includes (s needle : string) : bool :=
  startsWith s needle ||
  match s with
  | EmptyString => false
  | String _ s' => includes s' needle
  end.

Fixpoint insertString (x : string) (l : list string) : list string :=
  match l with
  | [] => [x]
  | y :: l' => if String.ltb y x then y :: insertString x l' else x :: l
  end.

(** [a.sort()] on an array of strings: ascending by code units. *)
Fixpoint sortStrings (l : list string) : list string :=
  match l with
  | [] => []
  | x :: l' => insertString x (sortStrings l')
  end.

(** Source lines 201-206 and 682-689. *)
Definition filteredAttractions (allData : list RideData) (searchTerm : string)
  : list string :=
  sortStrings
    (map ride_name
       (filter (fun entry =>
                  includes (toLowerCase (ride_name entry)) (toLowerCase searchTerm))
               allData)).

(** Source lines 208-211 and 691-693: only the plain dashboard returns
    undefined at once for the empty selection. *)
Definition selectedAttractionData (v : variant) (allData : list RideData)
    (selectedAttraction : string) : option RideData :=
  match v with
  | Plain =>
      if isEmpty selectedAttraction then None
      else find (fun entry => String.eqb (ride_name entry) selectedAttraction) allData
  | Styled =>
      find (fun entry => String.eqb (ride_name entry) selectedAttraction) allData
  end.

(** [maxData.find(entry => entry.ride_name === selectedAttraction)], source
    lines 263-264 and 747-748. *)
Definition findEntry (data : list RideMaxMinData) (selectedAttraction : string)
  : option RideMaxMinData :=
  find (fun entry => String.eqb (mm_ride_name entry) selectedAttraction) data.

(** Source lines 213-214 and 695-696: the series handed to the chart, or
    nothing when the chart is not drawn.  A series, being an array, is
    truthy even when empty; a name that reaches a member of the prototype
    is outside the model. *)
Definition chartData (attractionTimeData : obj (list TimeDataEntry))
    (selectedAttraction : string) : outcome (option (list TimeDataEntry)) :=
  if isEmpty selectedAttraction then Normal None
  else
    match get attractionTimeData selectedAttraction with
    | Some s => Normal (Some s)
    | None => if inherited selectedAttraction then Unmodelled else Normal None
    end.

(** *** The address of the feed (styled dashboard) *)

Definition decimalDigit (n : Z) : ascii := ascii_of_N (Z.to_N (48 + n)).

Fixpoint decimal (fuel : nat) (n : Z) (acc : string) : string :=
  match fuel with
  | O => acc
  | S fuel' =>
      let acc' := String (decimalDigit (n mod 10)) acc in
      if n <? 10 then acc' else decimal fuel' (n / 10) acc'
  end.

(** [String(n)] for an integer [n] of fewer than 21 digits. *)
Definition NumberToString (n : Z) : string :=
  if n <? 0 then String "-"%char (decimal (S (Z.to_nat (Z.log2 (- n)))) (- n) EmptyString)
  else decimal (S (Z.to_nat (Z.log2 n))) n EmptyString.

(** [s.padStart(2, '0')] *)
Definition padStart2 (s : string) : string :=
  match String.length s with
  | O => "00"
  | S O => String "0"%char s
  | _ => s
  end.

(** [s.replace(/-/g, '/')] *)
Fixpoint replaceDashes (s : string) : string :=
  match s with
  | EmptyString => EmptyString
  | String c s' =>
      String (if Ascii.eqb c "-"%char then "/"%char else c) (replaceDashes s')
  end.

(** The calendar operations of the engine on a local time value. *)
Record Calendar : Type := {
  YearFromTime : Z -> Z;
  MonthFromTime : Z -> Z;
  DateFromTime : Z -> Z
}.

Inductive DateMode : Type := today | historical.

Inductive Park : Type := disneyland | studios.

Definition bucket : string :=
  "https://bestnextridestack-bestnextridebucket135078ea-swjzevhnqjw9.s3.eu-west-1.amazonaws.com/".

(** The two addresses of the plain dashboard (source lines 44-45). *)
Definition WALT_DISNEY_STUDIOS_URL : string :=
  bucket ++ "Walt_Disney_Studios_Paris/2025/02/02/queue_times.csv".
Definition DISNEYLAND_PARK_URL : string :=
  bucket ++ "Disneyland_Park_Paris/2025/02/02/queue_times.csv".

Section Address.

Variable host : Host.
Variable calendar : Calendar.

(** [String(x)] for the result of a date getter: NaN on the invalid date. *)
Definition getterToString (x : option Z) : string :=
  match x with
  | Some n => NumberToString n
  | None => "NaN"
  end.

(** Source lines 482-487. *)
Definition formatDateForUrl (date : option Z) : string :=
  let year := option_map (fun t => YearFromTime calendar (LocalTime host t)) date in
  let month :=
    padStart2 (getterToString
                 (option_map (fun t => MonthFromTime calendar (LocalTime host t) + 1) date)) in
  let day :=
    padStart2 (getterToString
                 (option_map (fun t => DateFromTime calendar (LocalTime host t)) date)) in
  getterToString year ++ "/" ++ month ++ "/" ++ day.

(** Source lines 490-507; [now] is the time value of [new Date()]. *)
Definition getUrl (now : Z) (dateMode : DateMode) (historicalDate : string) (park : Park)
  : string :=
  let datePath :=
    match dateMode with
    | today => formatDateForUrl (Some now)
    | historical =>
        if negb (isEmpty historicalDate) then replaceDashes historicalDate
        else formatDateForUrl (Some now)
    end in
  match park with
  | disneyland => bucket ++ "Disneyland_Park_Paris/" ++ datePath ++ "/queue_times.csv"
  | studios => bucket ++ "Walt_Disney_Studios_Paris/" ++ datePath ++ "/queue_times.csv"
  end.

End Address.

(** *** Loading a feed *)

(** How a promise settles. *)
Inductive settled (A : Type) : Type :=
| Fulfilled (a : A)
| Rejected (message : string).

Arguments Fulfilled {A} a.
Arguments Rejected {A} message.

(** What the dashboard reads of a response. *)
Record Response : Type := {
  ok : bool;
  status : Z;
  text : settled string
}.

(** The state of the component. *)
Module Ui.
Record State : Type := {
  allData : list RideData;
  maxData : list RideMaxMinData;
  minData : list RideMaxMinData;
  selectedAttraction : string;
  lastUpdated : option string;
  searchTerm : string;
  isLoading : bool;
  error : option string;
  attractionTimeData : obj (list TimeDataEntry)
}.
End Ui.

(** How a try block ends. *)
Inductive tried : Type :=
| Completed (st : Ui.State)
| Caught (message : string)
| OutOfModel.

Section Loading.

Variable host : Host.
(** The message of the exception the engine throws. *)
Variable messageOf : exn -> string.
(** [d.toLocaleTimeString([], {hour: '2-digit', minute: '2-digit'})] *)
Variable formatClock : Z -> string.
(** What [fetch(url)] settles to. *)
Variable network : string -> settled Response.

(** Source lines 162-183 and 637-664: the state once the call has settled. *)
Definition fetchCSVFromS3 (v : variant) (url : string) (st : Ui.State)
  : outcome Ui.State :=
  let attempt : tried :=
    match network url with
    | Rejected m => Caught m
    | Fulfilled response =>
        if negb (ok response) then
          Caught ("HTTP error! status: " ++ NumberToString (status response))
        else
          match text response with
          | Rejected m => Caught m
          | Fulfilled csvText =>
              match processCSVData host v csvText with
              | Throw e => Caught (messageOf e)
              | Unmodelled => OutOfModel
              | Normal pd =>
                  Completed
                    {| Ui.allData := currentData pd;
                       Ui.maxData := maxData pd;
                       Ui.minData := minData pd;
                       Ui.selectedAttraction := Ui.selectedAttraction st;
                       Ui.lastUpdated :=
                         Some (match latestTimestamp pd with
                               | Some m => formatClock m
                               | None => "Unknown"
                               end);
                       Ui.searchTerm := Ui.searchTerm st;
                       Ui.isLoading := true;
                       Ui.error := None;
                       Ui.attractionTimeData := timeData pd |}
              end
          end
    end in
  match attempt with
  | Completed st' =>
      Normal {| Ui.allData := Ui.allData st';
                Ui.maxData := Ui.maxData st';
                Ui.minData := Ui.minData st';
                Ui.selectedAttraction := Ui.selectedAttraction st';
                Ui.lastUpdated := Ui.lastUpdated st';
                Ui.searchTerm := Ui.searchTerm st';
                Ui.isLoading := false;
                Ui.error := Ui.error st';
                Ui.attractionTimeData := Ui.attractionTimeData st' |}
  | Caught m =>
      Normal {| Ui.allData := Ui.allData st;
                Ui.maxData := Ui.maxData st;
                Ui.minData := Ui.minData st;
                Ui.selectedAttraction := Ui.selectedAttraction st;
                Ui.lastUpdated := Ui.lastUpdated st;
                Ui.searchTerm := Ui.searchTerm st;
                Ui.isLoading := false;
                Ui.error := Some m;
                Ui.attractionTimeData := Ui.attractionTimeData st |}
  | OutOfModel => Unmodelled
  end.

End Loading.

End Dashboard.

(* ================================================================== *)
(** * Vocabulary of the statements *)

(** ** Objects: no key is held twice *)

Definition wf {V : Type} (o : obj V) : Prop := NoDup (map fst o).

(** ** Readings *)

(** The wait of a row: [parseInt(waitTime, 10) || 0]. *)
Definition waitOf (field : string) : number := orElse (parseInt10 field) (Fin 0).

Definition ofRide (k : string) (r : Reading) : bool := String.eqb (rideKey r) k.

(** The reading's hour lies in the display window. *)
Definition inDisplayWindow (r : Reading) : bool := hourBetween 8 21 (currentHour r).

(** The reading is open and its hour lies in the trough window. *)
Definition inTroughWindow (r : Reading) : bool :=
  isRideOpen r && hourWithin 10 18 (currentHour r).

Section ReadingsOfText.

Variable host : Host.

(** The date of a reading: the timestamp field read as a date, then moved
    to the next hour (source lines 87-88). *)
Definition adjusted (timestamp : string) : option Z :=
  let d := newDate host timestamp in
  setHours host d (option_map (fun h => h + 1) (getHours host d)).

(** A data row the callback handles to the end: five fields at least, a
    ride name that is not the name of a member of [Object.prototype], and a
    timestamp that is a valid date once adjusted. *)
Definition wellFormedRow (row : list string) : Prop :=
  (5 <= List.length row)%nat /\
  inherited (trim (nth 1 row EmptyString)) = false /\
  adjusted (nth 0 row EmptyString) <> None.

(** What a data row gives its reading: the trimmed ride name, the wait, the
    label, the open flag, and the timestamp moved one hour of local time
    ahead, with the local hour of that date. *)
Definition ReadingOf (row : list string) (r : Reading) : Prop :=
  rideKey r = trim (nth 1 row EmptyString) /\
  numericWaitTime r = waitOf (nth 2 row EmptyString) /\
  lastUpdate r = nth 3 row EmptyString /\
  isRideOpen r = String.eqb (toLowerCase (nth 4 row EmptyString)) "true" /\
  currentDate r =
    match dateParse host (nth 0 row EmptyString) with
    | Some t => TimeClip (UTC host (LocalTime host t + msPerHour))
    | None => None
    end /\
  currentHour r = getHours host (currentDate r).

(** The local offset does not change within the hour that follows any
    instant: one hour of local time ahead is one hour ahead. *)
Definition SteadyOffset : Prop :=
  forall t, UTC host (LocalTime host t + msPerHour) = t + msPerHour.

(** The instant one hour after the one the timestamp field denotes. *)
Definition oneHourLater (timestamp : string) : option Z :=
  match dateParse host timestamp with
  | Some t => TimeClip (t + msPerHour)
  | None => None
  end.

(** The readings of the data rows, when every row has its five fields. *)
Fixpoint readAll (rows : list (list string)) : outcome (list Reading) :=
  match rows with
  | [] => Normal []
  | row :: rows' => r <- readRow host row ;; rs <- readAll rows' ;; Normal (r :: rs)
  end.

Definition readings (csvText : string) : outcome (list Reading) :=
  readAll (tl (parseRows csvText)).

(** The point a reading adds to its ride's series (source lines 95-103). *)
Definition point (r : Reading) : TimeDataEntry :=
  {| time := timeLabel host (currentDate r);
     waitTime := if isRideOpen r then Some (numericWaitTime r) else None;
     isOpen := isRideOpen r |}.

(** The series of ride [k] before sorting: the points of its readings
    inside the display window, in reading order. *)
Definition series (k : string) (rs : list Reading) : list TimeDataEntry :=
  map point (filter (fun r => ofRide k r && inDisplayWindow r) rs).






End ReadingsOfText.

(** ** The entries of the summary in terms of the readings *)

(** [e] is the latest entry of ride [k] over the readings [rs]: it carries
    the fields of a reading [w] of the ride; every reading of the ride
    before [w] has a strictly earlier date, and none after it has a later
    one. *)
Definition LatestOf (k : string) (rs : list Reading) (e : RideData) : Prop :=
  exists before w after,
    rs = (before ++ w :: after)%list /\ rideKey w = k /\
    ride_name e = k /\ currentDate w = Some (timestamp e) /\
    wait_time e = numericWaitTime w /\ last_update e = lastUpdate w /\
    is_open e = isRideOpen w /\
    (forall r t, In r before -> rideKey r = k -> currentDate r = Some t ->
                 t < timestamp e) /\
    (forall r t, In r after -> rideKey r = k -> currentDate r = Some t ->
                 t <= timestamp e).

(** [e] is the peak entry of ride [k] over the readings [rs]: it carries the
    wait and the date of an open reading [w] of the ride; every open
    reading of the ride before [w] has a strictly smaller wait, and none
    after it has a greater one. *)
Definition PeakOf (k : string) (rs : list Reading) (e : RideMaxMinData) : Prop :=
  exists before w after,
    rs = (before ++ w :: after)%list /\ rideKey w = k /\ isRideOpen w = true /\
    mm_ride_name e = k /\ max_wait_time e = Some (numericWaitTime w) /\
    currentDate w = Some (mm_timestamp e) /\
    (forall r, In r before -> rideKey r = k -> isRideOpen r = true ->
               num_ltb (numericWaitTime r) (numericWaitTime w) = true) /\
    (forall r, In r after -> rideKey r = k -> isRideOpen r = true ->
               num_leb (numericWaitTime r) (numericWaitTime w) = true).

(** [e] is the trough entry of ride [k] over the readings [rs]: it carries
    the wait and the date of a reading [w] of the ride that is open and
    inside the trough window; every such reading of the ride before [w]
    has a strictly greater wait, and none after it has a smaller one. *)
Definition TroughOf (k : string) (rs : list Reading) (e : RideMaxMinData) : Prop :=
  exists before w after,
    rs = (before ++ w :: after)%list /\ rideKey w = k /\
    isRideOpen w = true /\ hourWithin 10 18 (currentHour w) = true /\
    mm_ride_name e = k /\ min_wait_time e = Some (numericWaitTime w) /\
    currentDate w = Some (mm_timestamp e) /\
    (forall r, In r before -> rideKey r = k ->
               isRideOpen r = true -> hourWithin 10 18 (currentHour r) = true ->
               num_ltb (numericWaitTime w) (numericWaitTime r) = true) /\
    (forall r, In r after -> rideKey r = k ->
               isRideOpen r = true -> hourWithin 10 18 (currentHour r) = true ->
               num_leb (numericWaitTime w) (numericWaitTime r) = true).

(** The accumulators after a row that has no effect but to create the empty
    series of its ride. *)
Definition passedOver (acc : Acc) (k : string) : Acc :=
  {| latestEntries := latestEntries acc;
     maxWaitTimes := maxWaitTimes acc;
     maxProto := maxProto acc;
     minWaitTimes := minWaitTimes acc;
     minProto := minProto acc;
     timeDataAcc := match read (timeDataAcc acc) k with
                    | Missing => set (timeDataAcc acc) k []
                    | _ => timeDataAcc acc
                    end |}.

(** The read found a truthy value. *)
Definition present {V : Type} (x : slot V) : bool :=
  match x with Missing => false | _ => true end.

(** The ride of the reading is not named like a member of
    [Object.prototype]. *)
Definition ordinary (r : Reading) : bool := negb (inherited (rideKey r)).

(** The reading is open and its ride is not named like a member of
    [Object.prototype]. *)
Definition openOrdinary (r : Reading) : bool := isRideOpen r && ordinary r.

(** The fields of a peak entry. *)
Definition peakFieldNames : list string := ["ride_name"; "max_wait_time"; "timestamp"].

(** The reading is open and its ride is named __proto__: in the styled
    variant such a row can make its peak entry the prototype of the peaks. *)
Definition opensProto (r : Reading) : bool :=
  String.eqb (rideKey r) "__proto__" && isRideOpen r.

(** The ride names under which a read of the peaks can give something that
    the code has not stored for that ride: the names of the members of
    [Object.prototype], and in the styled variant, once an open reading of a
    ride named __proto__ is among the readings [rs], the names of the fields
    of a peak entry. *)
Definition reservedFor (v : variant) (rs : list Reading) (k : string) : bool :=
  inherited k ||
  match v with
  | Plain => false
  | Styled => existsb opensProto rs && existsb (String.eqb k) peakFieldNames
  end.

(** ** An accumulator that keeps the first best reading of each ride

    Three of the four accumulators follow one scheme: a reading that takes
    part replaces the entry stored for its ride when there is none, or when
    a guard compares it strictly above the stored one. *)

Section FirstBestReading.

Context {E S : Type}.
Variable relevant : Reading -> bool.
Variable make : Reading -> outcome E.
Variable guard : Reading -> E -> bool.
Variable score : Reading -> option S.
Variable lt : S -> S -> bool.
Variable stored : E -> S.

Definition update (o : obj E) (r : Reading) : outcome (obj E) :=
  if relevant r then
    if absentOr o (rideKey r) (guard r) then
      e <- make r ;; Normal (set o (rideKey r) e)
    else Normal o
  else Normal o.

(** The entry [e] was made from the first reading of ride [k] in [pre],
    among those that take part, whose score no other one exceeds. *)
Definition FirstBest (k : string) (pre : list Reading) (e : E) : Prop :=
  exists before w after,
    pre = (before ++ w :: after)%list /\
    rideKey w = k /\ relevant w = true /\ make w = Normal e /\
    (forall r s, In r before -> rideKey r = k -> relevant r = true ->
                 score r = Some s -> lt s (stored e) = true) /\
    (forall r s, In r after -> rideKey r = k -> relevant r = true ->
                 score r = Some s -> lt (stored e) s = false).

Definition Tracks (pre : list Reading) (o : obj E) : Prop :=
  forall k,
    match get o k with
    | Some e => FirstBest k pre e
    | None => forall r, In r pre -> rideKey r = k -> relevant r = false
    end.

End FirstBestReading.

(** The entry stored for the one ride [k] was made from the first reading
    of that ride, among those that take part, whose score no other one
    exceeds. *)
Definition TracksAt {E S : Type} (relevant : Reading -> bool) (make : Reading -> outcome E)
    (score : Reading -> option S) (lt : S -> S -> bool) (stored : E -> S)
    (k : string) (pre : list Reading) (o : obj E) : Prop :=
  match get o k with
  | Some e => FirstBest relevant make score lt stored k pre e
  | None => forall r, In r pre -> rideKey r = k -> relevant r = false
  end.

(** The entry [e] was made from a reading of ride [k] in [pre] that takes
    part. *)
Definition MadeFrom {E : Type} (relevant : Reading -> bool) (make : Reading -> outcome E)
    (k : string) (pre : list Reading) (e : E) : Prop :=
  exists w, In w pre /\ rideKey w = k /\ relevant w = true /\ make w = Normal e.

(** Every stored entry was made from a reading of its ride that takes part,
    and a ride without an entry has no such reading. *)
Definition Holds {E : Type} (relevant : Reading -> bool) (make : Reading -> outcome E)
    (pre : list Reading) (o : obj E) : Prop :=
  forall k,
    match get o k with
    | Some e => MadeFrom relevant make k pre e
    | None => forall r, In r pre -> rideKey r = k -> relevant r = false
    end.

(** Every stored entry was made from a reading of its ride that takes
    part. *)
Definition Kept {E : Type} (relevant : Reading -> bool) (make : Reading -> outcome E)
    (pre : list Reading) (o : obj E) : Prop :=
  forall k e, get o k = Some e -> MadeFrom relevant make k pre e.

(** The three accumulators as instances of the scheme. *)

Definition makeLatest (r : Reading) : outcome RideData :=
  iso <- toISOString (currentDate r) ;;
  Normal {| ride_name := rideKey r;
            wait_time := numericWaitTime r;
            last_update := lastUpdate r;
            is_open := isRideOpen r;
            timestamp := iso |}.

Definition makeMax (r : Reading) : outcome RideMaxMinData :=
  iso <- toISOString (currentDate r) ;;
  Normal {| mm_ride_name := rideKey r;
            max_wait_time := Some (numericWaitTime r);
            min_wait_time := None;
            mm_timestamp := iso |}.

Definition makeMin (r : Reading) : outcome RideMaxMinData :=
  iso <- toISOString (currentDate r) ;;
  Normal {| mm_ride_name := rideKey r;
            max_wait_time := None;
            min_wait_time := Some (numericWaitTime r);
            mm_timestamp := iso |}.

Definition always (r : Reading) : bool := true.

Definition laterThan (r : Reading) (e : RideData) : bool :=
  time_gtb (currentDate r) (Some (timestamp e)).

Definition storedMax (e : RideMaxMinData) : number :=
  match max_wait_time e with Some m => m | None => Fin 0 end.

Definition storedMin (e : RideMaxMinData) : number :=
  match min_wait_time e with Some m => m | None => Fin 0 end.

Definition waitScore (r : Reading) : option number := Some (numericWaitTime r).

Definition num_gtb' (a b : number) : bool := num_ltb b a.

Definition FirstLatest : string -> list Reading -> RideData -> Prop :=
  FirstBest always makeLatest currentDate Z.ltb timestamp.

Definition FirstPeak : string -> list Reading -> RideMaxMinData -> Prop :=
  FirstBest isRideOpen makeMax waitScore num_ltb storedMax.

Definition FirstTrough : string -> list Reading -> RideMaxMinData -> Prop :=
  FirstBest inTroughWindow makeMin waitScore num_gtb' storedMin.

Definition seriesOr (o : obj (list TimeDataEntry)) (k : string) : list TimeDataEntry :=
  match get o k with Some s => s | None => [] end.

(** What the accumulators hold after the readings [pre], whatever the
    rides are named. *)
Record AccInv (host : Host) (v : variant) (pre : list Reading) (acc : Acc) : Prop := {
  inv_latest : Tracks ordinary makeLatest currentDate Z.ltb timestamp pre (latestEntries acc);
  inv_max : forall k, reservedFor v pre k = false ->
            TracksAt isRideOpen makeMax waitScore num_ltb storedMax k pre (maxWaitTimes acc);
  inv_max_kept : Kept isRideOpen makeMax pre (maxWaitTimes acc);
  inv_max_proto : forall p, maxProto acc = Some p ->
                  v = Styled /\ min_wait_time p = None /\ existsb opensProto pre = true;
  inv_min : v = Plain ->
            Tracks inTroughWindow makeMin waitScore num_gtb' storedMin pre (minWaitTimes acc);
  inv_min_held : Holds inTroughWindow makeMin pre (minWaitTimes acc);
  inv_min_proto : minProto acc = None;
  inv_quiet : forall r, In r pre -> inherited (rideKey r) = true -> inDisplayWindow r = false;
  inv_time : forall k, get (timeDataAcc acc) k =
                       if negb (inherited k) && existsb (ofRide k) pre
                       then Some (series host k pre) else None;
  inv_wf_latest : wf (latestEntries acc);
  inv_wf_max : wf (maxWaitTimes acc);
  inv_wf_min : wf (minWaitTimes acc);
  inv_wf_time : wf (timeDataAcc acc)
}.

(** ** The two variants side by side *)

(** Every stored peak entry holds a maximum. *)
Definition MaxStored (o : obj RideMaxMinData) : Prop :=
  forall k e, get o k = Some e -> max_wait_time e <> None.

(** The accumulators of the two variants agree but for the troughs, and
    no prototype has been replaced. *)
Record Agree (p s : Acc) : Prop := {
  agree_latest : latestEntries p = latestEntries s;
  agree_max : maxWaitTimes p = maxWaitTimes s;
  agree_time : timeDataAcc p = timeDataAcc s;
  agree_stored : MaxStored (maxWaitTimes p);
  agree_proto : maxProto p = None /\ maxProto s = None /\
                minProto p = None /\ minProto s = None
}.

(** No data row names its ride like a member of [Object.prototype]. *)
Definition ordinaryRows (csvText : string) : Prop :=
  Forall (fun row => inherited (trim (nth 1 row EmptyString)) = false)
         (tl (parseRows csvText)).

(** Two completions end the same way, with results related by [R]. *)
Definition sameCompletion {A : Type} (R : A -> A -> Prop) (p s : outcome A) : Prop :=
  match p, s with
  | Normal a, Normal b => R a b
  | Throw e, Throw e' => e = e'
  | _, _ => False
  end.

(** ** Example inputs *)

Module Examples.

(** Scenario 1 of the specification. *)
Definition scenario1 : string :=
  csv [ "ts,name,wait,upd,open";
        "2025-02-02T09:00:00,Space Mountain,10,9:00,true";
        "2025-02-02T11:00:00,Space Mountain,40,11:00,true";
        "2025-02-02T15:00:00,Space Mountain,5,15:00,true" ].

(** Scenario 5: two readings of one ride at the same instant, then an
    earlier one. *)
Definition scenario5 : string :=
  csv [ "ts,name,wait,upd,open";
        "2025-02-02T09:00:00,Big Thunder,10,first,true";
        "2025-02-02T09:00:00,Big Thunder,20,second,true";
        "2025-02-02T08:00:00,Big Thunder,30,third,false" ].

(** A header, a blank line, a data row. *)
Definition blankLine : string :=
  csv [ "ts,name,wait,upd,open";
        EmptyString;
        "2025-02-02T09:00:00,Space Mountain,10,9:00,true" ].

(** The only data row has a timestamp that is not a date. *)
Definition badTimestamp : string :=
  csv [ "ts,name,wait,upd,open";
        "yesterday,Space Mountain,10,9:00,false" ].

(** An open reading with wait 0 inside the trough window, then one with
    wait 30. *)
Definition zeroTrough : string :=
  csv [ "ts,name,wait,upd,open";
        "2025-02-02T10:00:00,Autopia,0,10:00,true";
        "2025-02-02T11:00:00,Autopia,30,11:00,true" ].

(** A reading of the year 1969. *)
Definition beforeEpoch : string :=
  csv [ "ts,name,wait,upd,open";
        "1969-07-20T12:00:00,Orbitron,15,12:00,true" ].

(** A wait field with a minus sign. *)
Definition negativeWait : string :=
  csv [ "ts,name,wait,upd,open";
        "2025-02-02T09:00:00,Space Mountain,-5,9:00,true" ].

(** Two rides; the readings of the second fall outside the display window;
    the first has two readings out of clock order. *)
Definition twoRides : string :=
  csv [ "ts,name,wait,upd,open";
        "2025-02-02T14:30:00,Autopia,25,14:30,true";
        "2025-02-02T22:00:00,Orbitron,5,22:00,true";
        "2025-02-02T09:15:00,Autopia,10,9:15,false";
        "2025-02-02T14:30:00,Autopia,35,14:31,true" ].

Definition headerOnly : string := "ts,name,wait,upd,open".

(** An open reading, outside the display window, of a ride named like a
    method of [Object.prototype]. *)
Definition prototypeName : string :=
  csv [ "ts,name,wait,upd,open";
        "2025-02-02T21:00:00,toString,10,21:00,true" ].

(** The same with a wait of 0. *)
Definition prototypeNameZero : string :=
  csv [ "ts,name,wait,upd,open";
        "2025-02-02T21:00:00,toString,0,21:00,true" ].

(** A reading of a ride named like a method of [Object.prototype] inside the
    display window. *)
Definition prototypeNameInWindow : string :=
  csv [ "ts,name,wait,upd,open";
        "2025-02-02T12:00:00,toString,10,12:00,true" ].

(** An open reading of a ride named __proto__ outside the display window,
    then an open reading with wait 0, inside the trough window, of a ride
    named like a field of a peak entry. *)
Definition protoThenField : string :=
  csv [ "ts,name,wait,upd,open";
        "2025-02-02T21:00:00,__proto__,10,21:00,true";
        "2025-02-02T09:00:00,timestamp,0,9:00,true" ].

(** A reading at 02:30 of the night the clocks are set back. *)
Definition clockChange : string :=
  csv [ "ts,name,wait,upd,open";
        "2025-10-26T02:30:00,Autopia,10,2:30,true" ].

End Examples.

(** A host with a change of the local offset: the local clock is two hours
    ahead of UTC until 01:00 UTC of 26 October 2025 and one hour ahead from
    then on, so that local 03:00 is followed by local 02:00.  A local time
    that occurs twice is read as its first occurrence. *)
Module DstHost.

Definition change : Z := MakeDate (UtcHost.daysFromCivil 2025 10 26) msPerHour.

Definition localTime (t : Z) : Z :=
  if t <? change then t + 2 * msPerHour else t + msPerHour.

Definition utc (l : Z) : Z :=
  if l <? change + 2 * msPerHour then l - 2 * msPerHour else l - msPerHour.

Definition host : Host :=
  {| dateParse := fun s => option_map utc (UtcHost.parse s);
     LocalTime := localTime;
     UTC := utc;
     toLocaleTimeString := fun t => UtcHost.hhmm (localTime t) |}.

End DstHost.

(** ** Vocabulary of the further properties *)

(** The summary of an input without data rows. *)
Definition emptySummary : ProcessedData :=
  {| currentData := []; maxData := []; minData := []; timeData := [];
     latestTimestamp := None |}.

(** The pieces of a text put together again with a separator between
    them. *)
Fixpoint unsplit (sep : ascii) (l : list string) : string :=
  match l with
  | [] => EmptyString
  | [x] => x
  | x :: rest => x ++ String sep (unsplit sep rest)
  end.

(** A field that the splitter leaves whole and that closes every double
    quote it opens. *)
Definition wholeField (f : string) : Prop :=
  splitFields f = [f] /\ Nat.even (countQuotes f) = true.

Fixpoint allWhiteSpace (s : string) : bool :=
  match s with
  | EmptyString => true
  | String c s' => isWhiteSpace c && allWhiteSpace s'
  end.

(** The integer a run of decimal digits denotes. *)
Definition digitsValue (ds : string) : Z := fst (readDigits 0 O ds).

(** The string does not start with a character of the class [p]. *)
Definition startsWithout (p : ascii -> bool) (s : string) : bool :=
  match s with
  | String c _ => negb (p c)
  | EmptyString => true
  end.

(** White space, a sign or a decimal digit: what the start of a number is
    made of. *)
Definition numeric (c : ascii) : bool :=
  isWhiteSpace c || isDigit c || Ascii.eqb c "+"%char || Ascii.eqb c "-"%char.

Fixpoint hasChar (c : ascii) (s : string) : bool :=
  match s with
  | EmptyString => false
  | String c' s' => Ascii.eqb c' c || hasChar c s'
  end.

(** The sixteen spellings of the word true. *)
Definition spellsTrue (s : string) : Prop :=
  exists c1 c2 c3 c4,
    s = String c1 (String c2 (String c3 (String c4 EmptyString))) /\
    (c1 = "t"%char \/ c1 = "T"%char) /\ (c2 = "r"%char \/ c2 = "R"%char) /\
    (c3 = "u"%char \/ c3 = "U"%char) /\ (c4 = "e"%char \/ c4 = "E"%char).

(** The local hour the timestamp field of a row denotes, before the
    adjustment. *)
Definition sourceHour (host : Host) (row : list string) : option Z :=
  option_map (fun t => HourFromTime (LocalTime host t))
             (dateParse host (nth 0 row EmptyString)).

(** The place of a category in the order of the headers. *)
Definition categoryRank (category : string) : Z :=
  if String.eqb category "Short" then 0
  else if String.eqb category "Medium" then 1
  else if String.eqb category "Long" then 2
  else if String.eqb category "Very Long" then 3
  else 4.

(** The category of an entry. *)
Definition categoryOf (entry : RideData) : string :=
  Dashboard.getCategoryFromWaitTime (Some (wait_time entry)) (is_open entry).

(** The value of a date input for a calendar day: YYYY-MM-DD. *)
Definition dateInputValue (year month day : Z) : string :=
  Dashboard.NumberToString year ++ "-" ++
  Dashboard.padStart2 (Dashboard.NumberToString month) ++ "-" ++
  Dashboard.padStart2 (Dashboard.NumberToString day).

(** The data a state shows. *)
Definition shown (st : Dashboard.Ui.State)
  : list RideData * list RideMaxMinData * list RideMaxMinData
    * obj (list TimeDataEntry) * option string :=
  (Dashboard.Ui.allData st, Dashboard.Ui.maxData st, Dashboard.Ui.minData st,
   Dashboard.Ui.attractionTimeData st, Dashboard.Ui.lastUpdated st).

(** A calendar for the examples: the proleptic Gregorian calendar on time
    values read as UTC. *)
Module UtcCalendar.

Definition civilFromDays (z : Z) : Z * Z * Z :=
  let z := z + 719468 in
  let era := z / 146097 in
  let doe := z - era * 146097 in
  let yoe := (doe - doe / 1460 + doe / 36524 - doe / 146096) / 365 in
  let doy := doe - (365 * yoe + yoe / 4 - yoe / 100) in
  let mp := (5 * doy + 2) / 153 in
  let d := doy - (153 * mp + 2) / 5 + 1 in
  let m := if mp <? 10 then mp + 3 else mp - 9 in
  (yoe + era * 400 + (if m <=? 2 then 1 else 0), m, d).

Definition calendar : Dashboard.Calendar :=
  {| Dashboard.YearFromTime := fun t => fst (fst (civilFromDays (Day t)));
     Dashboard.MonthFromTime := fun t => snd (fst (civilFromDays (Day t))) - 1;
     Dashboard.DateFromTime := fun t => snd (civilFromDays (Day t)) |}.

End UtcCalendar.

(** A state of the dashboard before any feed is loaded, with a ride
    selected and a search typed. *)
Definition initialState : Dashboard.Ui.State :=
  {| Dashboard.Ui.allData := [];
     Dashboard.Ui.maxData := [];
     Dashboard.Ui.minData := [];
     Dashboard.Ui.selectedAttraction := "Autopia";
     Dashboard.Ui.lastUpdated := None;
     Dashboard.Ui.searchTerm := "aut";
     Dashboard.Ui.isLoading := false;
     Dashboard.Ui.error := None;
     Dashboard.Ui.attractionTimeData := [] |}.

(* ================================================================== *)
(** * Lemmas and theorems *)

(* ================================================================== *)
(** ** Completions: inversion *)

Lemma bind_Normal {A B : Type} (c : outcome A) (k : A -> outcome B) (b : B) :
  bind c k = Normal b -> exists a, c = Normal a /\ k a = Normal b.
Proof.
  destruct c as [a | e |]; simpl; intros H; try discriminate.
  exists a; split; [reflexivity | exact H].
Qed.

Ltac inv_bind H :=
  let a := fresh "a" in
  let Ha := fresh "H" a in
  apply bind_Normal in H; destruct H as (a & Ha & H).

Lemma forEach_app {A S : Type} (f : S -> A -> outcome S) (l1 l2 : list A) (s : S) :
  forEach f (l1 ++ l2) s = (s' <- forEach f l1 s ;; forEach f l2 s').
Proof.
  revert s; induction l1 as [| x l1 IH]; intros s; simpl; [reflexivity |].
  destruct (f s x); simpl; auto.
Qed.

(* ================================================================== *)
(** ** Objects: lookup, update, enumeration *)

Section ObjectFacts.

Context {V : Type}.
Implicit Types (o : obj V) (k : string) (v : V).

Lemma get_set_same o k v : get (set o k v) k = Some v.
Proof.
  induction o as [| [k' v'] o IH]; simpl.
  - rewrite String.eqb_refl; reflexivity.
  - destruct (String.eqb k' k) eqn:E; simpl; rewrite E; auto.
Qed.

Lemma get_set_other o k k' v : k <> k' -> get (set o k v) k' = get o k'.
Proof.
  intros Hne; induction o as [| [k0 v0] o IH]; simpl.
  - destruct (String.eqb k k') eqn:E; [apply String.eqb_eq in E; contradiction | reflexivity].
  - destruct (String.eqb k0 k) eqn:E; simpl.
    + apply String.eqb_eq in E; subst k0.
      destruct (String.eqb k k') eqn:E'; [apply String.eqb_eq in E'; contradiction | reflexivity].
    + destruct (String.eqb k0 k'); auto.
Qed.

Lemma get_set o k k' v :
  get (set o k v) k' = if String.eqb k k' then Some v else get o k'.
Proof.
  destruct (String.eqb k k') eqn:E.
  - apply String.eqb_eq in E; subst; apply get_set_same.
  - apply String.eqb_neq in E; apply get_set_other; assumption.
Qed.

Lemma has_get o k : has o k = true <-> exists v, get o k = Some v.
Proof.
  unfold has; destruct (get o k) as [v |]; split; intros H;
    try discriminate; eauto; destruct H; discriminate.
Qed.

Lemma get_In o k v : get o k = Some v -> In (k, v) o.
Proof.
  induction o as [| [k' v'] o IH]; simpl; [discriminate |].
  destruct (String.eqb k' k) eqn:E; intros H.
  - apply String.eqb_eq in E; inversion H; subst; left; reflexivity.
  - right; auto.
Qed.

Lemma In_fst_get o k : In k (map fst o) -> exists v, get o k = Some v.
Proof.
  induction o as [| [k' v'] o IH]; simpl; [tauto |].
  destruct (String.eqb k' k) eqn:E; [eauto |].
  intros [H | H]; [apply String.eqb_neq in E; contradiction | auto].
Qed.

Lemma get_None_not_In o k : get o k = None -> ~ In k (map fst o).
Proof.
  intros H Hin; apply In_fst_get in Hin; destruct Hin as [v Hv]; congruence.
Qed.

Lemma In_get o k v : wf o -> In (k, v) o -> get o k = Some v.
Proof.
  unfold wf; induction o as [| [k' v'] o IH]; simpl; [tauto |].
  intros Hnd [H | H].
  - inversion H; subst; rewrite String.eqb_refl; reflexivity.
  - inversion Hnd as [| ? ? Hnot Hnd']; subst.
    destruct (String.eqb k' k) eqn:E.
    + apply String.eqb_eq in E; subst k'.
      exfalso; apply Hnot; apply (in_map fst) in H; exact H.
    + auto.
Qed.

Lemma set_keys o k v :
  map fst (set o k v) = if has o k then map fst o else (map fst o ++ [k])%list.
Proof.
  unfold has; induction o as [| [k' v'] o IH]; simpl; [reflexivity |].
  destruct (String.eqb k' k) eqn:E; simpl; [reflexivity |].
  rewrite IH; destruct (get o k); reflexivity.
Qed.

Lemma wf_set o k v : wf o -> wf (set o k v).
Proof.
  unfold wf; intros H; rewrite set_keys; unfold has.
  destruct (get o k) eqn:E; [assumption |].
  apply NoDup_app; [assumption | repeat constructor; simpl; tauto |].
  intros x Hx [Hk | []]; subst x.
  apply get_None_not_In in E; contradiction.
Qed.

Lemma wf_nil : wf (@nil (string * V)).
Proof. constructor. Qed.

Lemma In_insertIndex (x y : Z * (string * V)) l :
  In x (insertIndex y l) <-> x = y \/ In x l.
Proof.
  induction l as [| z l IH]; simpl; [intuition congruence |].
  destruct (fst z <? fst y); simpl; rewrite ?IH; intuition congruence.
Qed.

Lemma In_indexed o i k v :
  In (i, (k, v)) (indexed o) <-> In (k, v) o /\ arrayIndex k = Some i.
Proof.
  induction o as [| [k' v'] o IH]; simpl; [tauto |].
  destruct (arrayIndex k') as [j |] eqn:E.
  - rewrite In_insertIndex, IH; split.
    + intros [H | [H1 H2]]; [inversion H; subst; auto | auto].
    + intros [[H | H] Hi]; [inversion H; subst; left; congruence | right; auto].
  - rewrite IH; split.
    + intros [H1 H2]; auto.
    + intros [[H | H] Hi]; [inversion H; subst; congruence | auto].
Qed.

Lemma In_entries o k v : In (k, v) (entries o) <-> In (k, v) o.
Proof.
  unfold entries, named; rewrite in_app_iff, in_map_iff, filter_In; simpl; split.
  - intros [([i [k' v']] & Heq & Hin) | [Hin _]]; [| assumption].
    simpl in Heq; inversion Heq; subst; apply In_indexed in Hin; tauto.
  - intros Hin; destruct (arrayIndex k) as [i |] eqn:E.
    + left; exists (i, (k, v)); split; [reflexivity | apply In_indexed; auto].
    + right; auto.
Qed.

Lemma In_values o v : In v (values o) <-> exists k, In (k, v) o.
Proof.
  unfold values; rewrite in_map_iff; split.
  - intros ([k v'] & Heq & Hin); simpl in Heq; subst; exists k; apply In_entries; assumption.
  - intros [k Hin]; exists (k, v); split; [reflexivity | apply In_entries; assumption].
Qed.

Lemma In_values_get o v : wf o -> (In v (values o) <-> exists k, get o k = Some v).
Proof.
  intros Hwf; rewrite In_values; split; intros [k H]; exists k;
    [apply In_get | apply get_In]; assumption.
Qed.

Lemma values_nil o : values o = [] <-> o = [].
Proof.
  split; [| intros ->; reflexivity].
  destruct o as [| [k v] o]; [reflexivity |]; intros H.
  assert (Hin : In v (values ((k, v) :: o))) by (apply In_values; exists k; left; reflexivity).
  rewrite H in Hin; destruct Hin.
Qed.

End ObjectFacts.

(* ================================================================== *)
(** ** Order facts on numbers *)

Lemma num_ltb_trans a b c :
  num_ltb a b = true -> num_ltb b c = true -> num_ltb a c = true.
Proof.
  destruct a, b, c; simpl; intros H1 H2; try discriminate; try reflexivity.
  apply Z.ltb_lt in H1, H2; apply Z.ltb_lt; lia.
Qed.

Lemma num_ltb_cotrans a b c :
  num_ltb a c = true -> num_ltb a b = true \/ num_ltb b c = true.
Proof.
  destruct a, b, c; simpl; intros H; try discriminate; auto.
  apply Z.ltb_lt in H.
  destruct (z <? z0) eqn:E; [auto |].
  right; apply Z.ltb_ge in E; apply Z.ltb_lt; lia.
Qed.

Lemma num_ltb_irrefl a : num_ltb a a = false.
Proof. destruct a; simpl; auto using Z.ltb_irrefl. Qed.

Lemma orElse_zero_gtb n m : num_gtb n (orElse (Some m) (Fin 0)) = num_ltb m n.
Proof.
  unfold num_gtb; destruct m as [z | |]; simpl; try reflexivity.
  destruct z; reflexivity.
Qed.

(* ================================================================== *)
(** ** The first-best scheme *)

Section Update.

Context {E S : Type}.
Variable relevant : Reading -> bool.
Variable make : Reading -> outcome E.
Variable guard : Reading -> E -> bool.
Variable score : Reading -> option S.
Variable lt : S -> S -> bool.
Variable stored : E -> S.

Local Abbreviation upd := (update relevant make guard).
Local Abbreviation FB := (FirstBest relevant make score lt stored).
Local Abbreviation Tr := (Tracks relevant make score lt stored).

Lemma update_wf o r o' : upd o r = Normal o' -> wf o -> wf o'.
Proof.
  unfold update; intros H Hwf.
  destruct (relevant r); [| inversion H; subst; assumption].
  destruct (absentOr o (rideKey r) (guard r)); [| inversion H; subst; assumption].
  inv_bind H; inversion H; subst; apply wf_set; assumption.
Qed.

Hypothesis lt_trans : forall a b c, lt a b = true -> lt b c = true -> lt a c = true.
Hypothesis lt_cotrans : forall a b c, lt a c = true -> lt a b = true \/ lt b c = true.
Hypothesis make_score : forall r e, make r = Normal e -> score r = Some (stored e).
Hypothesis guard_spec : forall r w e,
  make w = Normal e ->
  guard r e = match score r with Some s => lt (stored e) s | None => false end.

Lemma Tracks_nil : Tr [] [].
Proof. intros k; simpl; intros r []. Qed.

Lemma FirstBest_snoc k pre e r :
  FB k pre e ->
  (rideKey r = k -> relevant r = true ->
   forall s, score r = Some s -> lt (stored e) s = false) ->
  FB k (pre ++ [r]) e.
Proof.
  intros (before & w & after & Hpre & Hk & Hrel & Hmk & Hb & Ha) Hr.
  exists before, w, (after ++ [r])%list; subst pre.
  rewrite <- app_assoc; simpl; repeat split; auto.
  intros r' s Hin; apply in_app_iff in Hin; destruct Hin as [Hin | [<- | []]]; eauto.
Qed.

Lemma update_Tracks pre o r o' :
  Tr pre o -> upd o r = Normal o' -> Tr (pre ++ [r]) o'.
Proof.
  intros HT H k; specialize (HT k); unfold update in H.
  assert (Hkeep : relevant r = false \/ rideKey r <> k ->
                  match get o k with
                  | Some e => FB k (pre ++ [r]) e
                  | None => forall r0, In r0 (pre ++ [r]) -> rideKey r0 = k -> relevant r0 = false
                  end).
  { intros Hor; destruct (get o k) as [e |].
    - apply FirstBest_snoc; [assumption |].
      intros Hk Hrel; destruct Hor; congruence.
    - intros r0 Hin Hk; apply in_app_iff in Hin; destruct Hin as [Hin | [<- | []]]; auto.
      destruct Hor; congruence. }
  destruct (relevant r) eqn:Hrel; [| inversion H; subst; apply Hkeep; left; reflexivity].
  destruct (String.eqb (rideKey r) k) eqn:Ek.
  2:{ apply String.eqb_neq in Ek.
      destruct (absentOr o (rideKey r) (guard r));
        [| inversion H; subst; apply Hkeep; right; exact Ek].
      inv_bind H; inversion H; subst.
      rewrite get_set_other by assumption; apply Hkeep; right; exact Ek. }
  apply String.eqb_eq in Ek; subst k.
  unfold absentOr in H; destruct (get o (rideKey r)) as [e |] eqn:Hget.
  - destruct (guard r e) eqn:Hg.
    + inv_bind H; inversion H; subst; rewrite get_set_same.
      destruct HT as (before & w & after & Hpre & Hk & Hw & Hmk & Hbef & Haft).
      rewrite (guard_spec r w e Hmk), (make_score r a Ha) in Hg.
      exists pre, r, []; split; [reflexivity |]; do 3 (split; [auto |]);
        split; [| intros ? ? []].
      intros r' s Hin Hk' Hrel' Hs; subst pre.
      apply in_app_iff in Hin; destruct Hin as [Hin | [<- | Hin]].
      * eapply lt_trans; [eapply Hbef; eauto | exact Hg].
      * rewrite (make_score _ _ Hmk) in Hs; inversion Hs; subst; exact Hg.
      * destruct (lt_cotrans _ s _ Hg) as [Hc | Hc]; [| exact Hc].
        rewrite (Haft r' s Hin Hk' Hrel' Hs) in Hc; discriminate.
    + inversion H; subst; rewrite Hget.
      apply FirstBest_snoc; [assumption |].
      intros _ _ s Hs.
      destruct HT as (before & w & after & Hpre & Hk & Hw & Hmk & Hbef & Haft).
      rewrite (guard_spec r w e Hmk), Hs in Hg; exact Hg.
  - inv_bind H; inversion H; subst; rewrite get_set_same.
    exists pre, r, []; split; [reflexivity |]; do 3 (split; [auto |]);
        split; [| intros ? ? []].
    intros r' s Hin Hk' Hrel'; rewrite (HT r' Hin Hk') in Hrel'; discriminate.
Qed.

(** An entry is stored exactly for the rides that have a reading taking
    part. *)
Lemma Tracks_present pre o k :
  Tr pre o ->
  (exists e, get o k = Some e) <->
  (exists r, In r pre /\ rideKey r = k /\ relevant r = true).
Proof.
  intros HT; specialize (HT k); split.
  - intros [e He]; rewrite He in HT.
    destruct HT as (before & w & after & Hpre & Hk & Hw & _).
    exists w; subst pre; repeat split; auto; apply in_app_iff; right; left; reflexivity.
  - intros (r & Hin & Hk & Hrel); destruct (get o k) as [e |]; [eauto |].
    rewrite (HT r Hin Hk) in Hrel; discriminate.
Qed.

End Update.

(** ** The weaker scheme: every entry comes from a reading *)

Section HoldsFacts.

Context {E : Type}.
Variable relevant : Reading -> bool.
Variable make : Reading -> outcome E.
Variable guard : Reading -> E -> bool.

Lemma Holds_nil : Holds relevant make [] [].
Proof. intros k; simpl; intros r []. Qed.

Lemma MadeFrom_snoc k pre e r :
  MadeFrom relevant make k pre e -> MadeFrom relevant make k (pre ++ [r]) e.
Proof.
  intros (w & Hin & Hk & Hrel & Hmk); exists w; repeat split; auto.
  apply in_app_iff; left; exact Hin.
Qed.

Lemma update_Holds pre o r o' :
  Holds relevant make pre o -> update relevant make guard o r = Normal o' ->
  Holds relevant make (pre ++ [r]) o'.
Proof.
  intros HT H k; specialize (HT k); unfold update in H.
  assert (Hkeep : relevant r = false \/ rideKey r <> k ->
                  match get o k with
                  | Some e => MadeFrom relevant make k (pre ++ [r]) e
                  | None => forall r0, In r0 (pre ++ [r]) -> rideKey r0 = k -> relevant r0 = false
                  end).
  { intros Hor; destruct (get o k) as [e |]; [apply MadeFrom_snoc; exact HT |].
    intros r0 Hin Hk; apply in_app_iff in Hin; destruct Hin as [Hin | [<- | []]]; auto.
    destruct Hor; congruence. }
  destruct (relevant r) eqn:Hrel; [| inversion H; subst; apply Hkeep; left; reflexivity].
  destruct (String.eqb (rideKey r) k) eqn:Ek.
  2:{ apply String.eqb_neq in Ek.
      destruct (absentOr o (rideKey r) (guard r));
        [| inversion H; subst; apply Hkeep; right; exact Ek].
      apply bind_Normal in H; destruct H as (a & Ha & H); inversion H; subst.
      rewrite get_set_other by assumption; apply Hkeep; right; exact Ek. }
  apply String.eqb_eq in Ek; subst k.
  unfold absentOr in H; destruct (get o (rideKey r)) as [e |] eqn:Hget.
  - destruct (guard r e).
    + apply bind_Normal in H; destruct H as (a & Ha & H); inversion H; subst.
      rewrite get_set_same; exists r; repeat split; auto.
      apply in_app_iff; right; left; reflexivity.
    + inversion H; subst; rewrite Hget; apply MadeFrom_snoc; exact HT.
  - apply bind_Normal in H; destruct H as (a & Ha & H); inversion H; subst.
    rewrite get_set_same; exists r; repeat split; auto.
    apply in_app_iff; right; left; reflexivity.
Qed.

Lemma Holds_present pre o k :
  Holds relevant make pre o ->
  (exists e, get o k = Some e) <->
  (exists r, In r pre /\ rideKey r = k /\ relevant r = true).
Proof.
  intros HT; specialize (HT k); split.
  - intros [e He]; rewrite He in HT; destruct HT as (w & Hin & Hk & Hrel & _); eauto.
  - intros (r & Hin & Hk & Hrel); destruct (get o k) as [e |]; [eauto |].
    rewrite (HT r Hin Hk) in Hrel; discriminate.
Qed.

Lemma held_values (name : E -> string) (pre : list Reading) (o : obj E) :
  (forall r e, make r = Normal e -> name e = rideKey r) ->
  Holds relevant make pre o -> wf o ->
  forall k e, (In e (values o) /\ name e = k) <-> get o k = Some e.
Proof.
  intros Hname HT Hwf k e; split.
  - intros [Hin Hk]; apply (In_values_get o e Hwf) in Hin; destruct Hin as [k' Hk'].
    pose proof (HT k') as HT'; rewrite Hk' in HT'.
    destruct HT' as (w & _ & Hw & _ & Hmk); apply Hname in Hmk; congruence.
  - intros Hget; split; [apply (In_values_get o e Hwf); eauto |].
    pose proof (HT k) as HT'; rewrite Hget in HT'.
    destruct HT' as (w & _ & Hw & _ & Hmk); apply Hname in Hmk; congruence.
Qed.

End HoldsFacts.

(** ** The scheme for one ride *)

Section UpdateAt.

Context {E S : Type}.
Variable relevant : Reading -> bool.
Variable make : Reading -> outcome E.
Variable guard : Reading -> E -> bool.
Variable score : Reading -> option S.
Variable lt : S -> S -> bool.
Variable stored : E -> S.

Hypothesis lt_trans : forall a b c, lt a b = true -> lt b c = true -> lt a c = true.
Hypothesis lt_cotrans : forall a b c, lt a c = true -> lt a b = true \/ lt b c = true.
Hypothesis make_score : forall r e, make r = Normal e -> score r = Some (stored e).

Lemma FirstBest_keep k pre e r :
  FirstBest relevant make score lt stored k pre e ->
  (rideKey r = k -> relevant r = true ->
   forall s, score r = Some s -> lt (stored e) s = false) ->
  FirstBest relevant make score lt stored k (pre ++ [r]) e.
Proof.
  intros (before & w & after & Hpre & Hk & Hrel & Hmk & Hb & Ha) Hr.
  exists before, w, (after ++ [r])%list; subst pre.
  rewrite <- app_assoc; simpl; repeat split; auto.
  intros r' s Hin; apply in_app_iff in Hin; destruct Hin as [Hin | [<- | []]]; eauto.
Qed.

(** One update keeps the entry of ride [k] the first best one, as soon as
    the guard compares scores on the entry stored for [k]. *)
Lemma update_TracksAt k pre o r o' :
  (forall e, get o k = Some e -> rideKey r = k ->
             guard r e = match score r with Some s => lt (stored e) s | None => false end) ->
  TracksAt relevant make score lt stored k pre o ->
  update relevant make guard o r = Normal o' ->
  TracksAt relevant make score lt stored k (pre ++ [r]) o'.
Proof.
  unfold TracksAt; intros guard_at HT H; unfold update in H.
  assert (Hkeep : relevant r = false \/ rideKey r <> k ->
                  match get o k with
                  | Some e => FirstBest relevant make score lt stored k (pre ++ [r]) e
                  | None => forall r0, In r0 (pre ++ [r]) -> rideKey r0 = k -> relevant r0 = false
                  end).
  { intros Hor; destruct (get o k) as [e |].
    - apply FirstBest_keep; [assumption |].
      intros Hk Hrel; destruct Hor; congruence.
    - intros r0 Hin Hk; apply in_app_iff in Hin; destruct Hin as [Hin | [<- | []]]; auto.
      destruct Hor; congruence. }
  destruct (relevant r) eqn:Hrel; [| inversion H; subst; apply Hkeep; left; reflexivity].
  destruct (String.eqb (rideKey r) k) eqn:Ek.
  2:{ apply String.eqb_neq in Ek.
      destruct (absentOr o (rideKey r) (guard r));
        [| inversion H; subst; apply Hkeep; right; exact Ek].
      apply bind_Normal in H; destruct H as (a & Ha & H); inversion H; subst.
      rewrite get_set_other by assumption; apply Hkeep; right; exact Ek. }
  apply String.eqb_eq in Ek; subst k.
  unfold absentOr in H; destruct (get o (rideKey r)) as [e |] eqn:Hget.
  - pose proof (guard_at e eq_refl eq_refl) as Hspec.
    destruct (guard r e) eqn:Hg.
    + apply bind_Normal in H; destruct H as (a & Ha & H); inversion H; subst.
      rewrite get_set_same.
      destruct HT as (before & w & after & Hpre & Hk & Hw & Hmk & Hbef & Haft).
      rewrite (make_score r a Ha) in Hspec; symmetry in Hspec.
      exists pre, r, []; split; [reflexivity |]; do 3 (split; [auto |]);
        split; [| intros ? ? []].
      intros r' s Hin Hk' Hrel' Hs; subst pre.
      apply in_app_iff in Hin; destruct Hin as [Hin | [<- | Hin]].
      * eapply lt_trans; [eapply Hbef; eauto | exact Hspec].
      * rewrite (make_score _ _ Hmk) in Hs; inversion Hs; subst; exact Hspec.
      * destruct (lt_cotrans _ s _ Hspec) as [Hc | Hc]; [| exact Hc].
        rewrite (Haft r' s Hin Hk' Hrel' Hs) in Hc; discriminate.
    + inversion H; subst; rewrite Hget.
      apply FirstBest_keep; [assumption |].
      intros _ _ s Hs; rewrite Hs in Hspec; symmetry; exact Hspec.
  - apply bind_Normal in H; destruct H as (a & Ha & H); inversion H; subst.
    rewrite get_set_same.
    exists pre, r, []; split; [reflexivity |]; do 3 (split; [auto |]);
        split; [| intros ? ? []].
    intros r' s Hin Hk' Hrel'; rewrite (HT r' Hin Hk') in Hrel'; discriminate.
Qed.

Lemma TracksAt_other k pre o o' r :
  rideKey r <> k -> get o' k = get o k ->
  TracksAt relevant make score lt stored k pre o ->
  TracksAt relevant make score lt stored k (pre ++ [r]) o'.
Proof.
  unfold TracksAt; intros Hne Hg HT; rewrite Hg.
  destruct (get o k) as [e |].
  - apply FirstBest_keep; [assumption |]; intros Hk; contradiction.
  - intros r0 Hin Hk; apply in_app_iff in Hin; destruct Hin as [Hin | [<- | []]]; auto.
    contradiction.
Qed.

Lemma TracksAt_present k pre o :
  TracksAt relevant make score lt stored k pre o ->
  (exists r, In r pre /\ rideKey r = k /\ relevant r = true) <->
  (exists e, get o k = Some e).
Proof.
  unfold TracksAt; intros HT; split.
  - intros (r & Hin & Hk & Hrel); destruct (get o k) as [e |]; [eauto |].
    rewrite (HT r Hin Hk) in Hrel; discriminate.
  - intros [e He]; rewrite He in HT.
    destruct HT as (before & w & after & Hpre & Hk & Hw & _).
    exists w; subst pre; repeat split; auto; apply in_app_iff; right; left; reflexivity.
Qed.

End UpdateAt.

(* ================================================================== *)
(** ** The callback as four accumulator updates *)

Lemma absentOr_ext {V : Type} (o : obj V) (k : string) (g g' : V -> bool) :
  (forall e, get o k = Some e -> g e = g' e) -> absentOr o k g = absentOr o k g'.
Proof. unfold absentOr; destruct (get o k); auto. Qed.

(* ================================================================== *)
(** ** Property reads and writes *)

Lemma not_inherited_not_proto k : inherited k = false -> String.eqb k "__proto__" = false.
Proof.
  intros H; destruct (String.eqb k "__proto__") eqn:E; [| reflexivity].
  apply String.eqb_eq in E; subst k; discriminate.
Qed.

Section Reads.

Context {V : Type}.
Implicit Types (o : obj V) (k : string).

(** Under a name that is not inherited and is no field of the prototype,
    a read sees the own properties only. *)
Lemma lookup_own (fields : V -> obj bool) proto o k :
  inherited k = false ->
  match proto with Some p => get (fields p) k | None => None end = None ->
  lookup fields proto o k = match get o k with Some v => Entry v | None => Missing end.
Proof.
  intros Hk Hp; unfold lookup; rewrite (not_inherited_not_proto k Hk), Hp, Hk.
  destruct (get o k); reflexivity.
Qed.

Lemma read_own o k :
  inherited k = false ->
  read o k = match get o k with Some v => Entry v | None => Missing end.
Proof. intros Hk; apply lookup_own; [exact Hk | reflexivity]. Qed.

Lemma read_foreign o k : inherited k = true -> get o k = None -> read o k = Foreign.
Proof.
  intros Hk Hg; unfold read, lookup; rewrite Hg, Hk.
  destruct (String.eqb k "__proto__"); reflexivity.
Qed.

Lemma assign_own (proto : option V) o k v :
  inherited k = false -> assign proto o k v = (proto, set o k v).
Proof. intros Hk; unfold assign; rewrite (not_inherited_not_proto k Hk); reflexivity. Qed.

Lemma missingOr_own o k (g : V -> bool) b :
  missingOr (match get o k with Some v => Entry v | None => Missing end) g b = absentOr o k g.
Proof. unfold absentOr; destruct (get o k); reflexivity. Qed.

Lemma assign_get (proto : option V) o k v k' :
  k <> k' -> get (snd (assign proto o k v)) k' = get o k'.
Proof.
  intros Hne; unfold assign; destruct (String.eqb k "__proto__"); simpl; [reflexivity |].
  apply get_set_other; exact Hne.
Qed.

Lemma assign_wf (proto : option V) o k v : wf o -> wf (snd (assign proto o k v)).
Proof.
  intros Hwf; unfold assign; destruct (String.eqb k "__proto__"); simpl;
    [exact Hwf | apply wf_set; exact Hwf].
Qed.

End Reads.

Lemma entryFields_other p k :
  min_wait_time p = None -> existsb (String.eqb k) peakFieldNames = false ->
  get (entryFields p) k = None.
Proof.
  intros Hmin Hk; unfold entryFields; rewrite Hmin.
  cbn [existsb peakFieldNames] in Hk.
  apply orb_false_iff in Hk; destruct Hk as [H1 Hk].
  apply orb_false_iff in Hk; destruct Hk as [H2 Hk].
  apply orb_false_iff in Hk; destruct Hk as [H3 _].
  rewrite String.eqb_sym in H1, H2, H3.
  destruct (max_wait_time p); cbn [app get]; rewrite ?H1, ?H2, ?H3; reflexivity.
Qed.

Lemma time_gtb_none a : time_gtb a None = false.
Proof. destruct a; reflexivity. Qed.

Lemma trough_in_display r : inTroughWindow r = true -> inDisplayWindow r = true.
Proof.
  unfold inTroughWindow, inDisplayWindow, hourWithin, hourBetween; intros H.
  apply andb_true_iff in H; destruct H as [_ H].
  destruct (currentHour r) as [h |]; [| discriminate].
  apply andb_true_iff in H; destruct H as [H1 H2].
  apply Z.leb_le in H1; apply Z.ltb_lt in H2.
  apply andb_true_iff; split; apply Z.leb_le; lia.
Qed.

Section Callback.

Variable host : Host.

(** The callback, accumulator by accumulator. *)
Lemma step_parts v acc r acc' :
  step host v acc r = Normal acc' ->
  (if inDisplayWindow r then
     push (match read (timeDataAcc acc) (rideKey r) with
           | Missing => set (timeDataAcc acc) (rideKey r) []
           | _ => timeDataAcc acc
           end) (rideKey r) (point host r)
   else Normal (match read (timeDataAcc acc) (rideKey r) with
                | Missing => set (timeDataAcc acc) (rideKey r) []
                | _ => timeDataAcc acc
                end)) = Normal (timeDataAcc acc') /\
  (if missingOr (read (latestEntries acc) (rideKey r)) (laterThan r) false then
     e <- makeLatest r ;; Normal (set (latestEntries acc) (rideKey r) e)
   else Normal (latestEntries acc)) = Normal (latestEntries acc') /\
  (if isRideOpen r
      && missingOr (lookup entryFields (maxProto acc) (maxWaitTimes acc) (rideKey r))
                   (exceedsMax v (numericWaitTime r))
                   (exceedsForeign v (numericWaitTime r)) then
     e <- makeMax r ;; Normal (assign (maxProto acc) (maxWaitTimes acc) (rideKey r) e)
   else Normal (maxProto acc, maxWaitTimes acc)) = Normal (maxProto acc', maxWaitTimes acc') /\
  (if inTroughWindow r
      && missingOr (lookup entryFields (minProto acc) (minWaitTimes acc) (rideKey r))
                   (belowMin v (numericWaitTime r))
                   (belowForeign v (numericWaitTime r)) then
     e <- makeMin r ;; Normal (assign (minProto acc) (minWaitTimes acc) (rideKey r) e)
   else Normal (minProto acc, minWaitTimes acc)) = Normal (minProto acc', minWaitTimes acc').
Proof.
  unfold step; cbv zeta; intros H.
  apply bind_Normal in H; destruct H as (td & Htd & H).
  apply bind_Normal in H; destruct H as (latest' & Hl & H).
  assert (Hl' : (if missingOr (read (latestEntries acc) (rideKey r)) (laterThan r) false then
                   e <- makeLatest r ;; Normal (set (latestEntries acc) (rideKey r) e)
                 else Normal (latestEntries acc)) = Normal latest').
  { unfold makeLatest, laterThan.
    destruct (read (latestEntries acc) (rideKey r)) as [e | |];
      cbn [missingOr] in Hl |- *; rewrite ?time_gtb_none in Hl;
      destruct (currentDate r); cbn [toISOString bind] in *; exact Hl. }
  clear Hl.
  unfold makeMax, makeMin, inTroughWindow, inDisplayWindow, point.
  destruct (isRideOpen r); cbn [andb].
  - apply bind_Normal in H; destruct H as ([mp mo] & Hm & H).
    apply bind_Normal in H; destruct H as ([np no] & Hn & H).
    inversion H; subst; clear H;
      cbn [timeDataAcc latestEntries maxProto maxWaitTimes minProto minWaitTimes fst snd].
    split; [exact Htd |]; split; [exact Hl' |]; split.
    + destruct (missingOr _ _ _) in Hm |- *;
        destruct (currentDate r); cbn [toISOString bind] in *; exact Hm.
    + destruct (hourWithin 10 18 (currentHour r)); [| exact Hn].
      destruct (missingOr _ _ _) in Hn |- *;
        destruct (currentDate r); cbn [toISOString bind] in *; exact Hn.
  - inversion H; subst; clear H;
      cbn [timeDataAcc latestEntries maxProto maxWaitTimes minProto minWaitTimes].
    split; [exact Htd |]; split; [exact Hl' |]; split; reflexivity.
Qed.

(** A row of a ride named like a member of [Object.prototype] that falls
    inside the display window makes the callback throw. *)
Lemma step_quiet v acc r acc' :
  step host v acc r = Normal acc' ->
  (forall k, inherited k = true -> get (timeDataAcc acc) k = None) ->
  inherited (rideKey r) = true -> inDisplayWindow r = false.
Proof.
  intros H Hown Hinh; destruct (step_parts _ _ _ _ H) as (Ht & _).
  destruct (inDisplayWindow r); [| reflexivity].
  rewrite (read_foreign _ _ Hinh (Hown _ Hinh)) in Ht.
  unfold push in Ht; rewrite (read_foreign _ _ Hinh (Hown _ Hinh)) in Ht; discriminate.
Qed.

Lemma step_latest v acc r acc' :
  step host v acc r = Normal acc' ->
  (forall k, inherited k = true -> get (latestEntries acc) k = None) ->
  update ordinary makeLatest laterThan (latestEntries acc) r = Normal (latestEntries acc').
Proof.
  intros H Hown; destruct (step_parts _ _ _ _ H) as (_ & Hl & _).
  unfold update, ordinary; destruct (inherited (rideKey r)) eqn:Hinh; cbn [negb].
  - rewrite (read_foreign _ _ Hinh (Hown _ Hinh)) in Hl; exact Hl.
  - rewrite (read_own _ _ Hinh), missingOr_own in Hl; exact Hl.
Qed.

Lemma step_min v acc r acc' :
  step host v acc r = Normal acc' ->
  (forall k, inherited k = true -> get (timeDataAcc acc) k = None) ->
  minProto acc = None ->
  update inTroughWindow makeMin (fun r => belowMin v (numericWaitTime r))
         (minWaitTimes acc) r = Normal (minWaitTimes acc') /\
  minProto acc' = None.
Proof.
  intros H Hown Hp; destruct (step_parts _ _ _ _ H) as (_ & _ & _ & Hn).
  unfold update; destruct (inTroughWindow r) eqn:Hw; cbn [andb] in Hn.
  - assert (Hinh : inherited (rideKey r) = false).
    { destruct (inherited (rideKey r)) eqn:E; [| reflexivity].
      pose proof (step_quiet _ _ _ _ H Hown E) as Hq.
      pose proof (trough_in_display r Hw); congruence. }
    rewrite Hp, (lookup_own entryFields None _ _ Hinh eq_refl), missingOr_own in Hn.
    destruct (absentOr _ _ _).
    + destruct (makeMin r) as [e | x |]; cbn [bind] in *; try discriminate.
      rewrite (assign_own _ _ _ _ Hinh) in Hn; inversion Hn; subst; auto.
    + inversion Hn; subst; auto.
  - inversion Hn; subst; auto.
Qed.

(** A read of the peaks under the name of the row that sees own properties
    only: the peaks are updated as the scheme says. *)
Lemma step_max_own v acc r acc' :
  step host v acc r = Normal acc' ->
  inherited (rideKey r) = false ->
  (forall p, maxProto acc = Some p -> get (entryFields p) (rideKey r) = None) ->
  update isRideOpen makeMax (fun r => exceedsMax v (numericWaitTime r))
         (maxWaitTimes acc) r = Normal (maxWaitTimes acc') /\
  maxProto acc' = maxProto acc.
Proof.
  intros H Hinh Hp; destruct (step_parts _ _ _ _ H) as (_ & _ & Hm & _).
  rewrite (lookup_own entryFields (maxProto acc) _ _ Hinh), missingOr_own in Hm
    by (destruct (maxProto acc) as [p |]; [apply Hp |]; reflexivity).
  unfold update; destruct (isRideOpen r); cbn [andb] in Hm.
  - destruct (absentOr _ _ _).
    + destruct (makeMax r) as [e | x |]; cbn [bind] in *; try discriminate.
      rewrite (assign_own _ _ _ _ Hinh) in Hm; inversion Hm; subst; auto.
    + inversion Hm; subst; auto.
  - inversion Hm; subst; auto.
Qed.

(** What one row can do to the peaks. *)
Lemma step_max_cases v acc r acc' :
  step host v acc r = Normal acc' ->
  (maxProto acc', maxWaitTimes acc') = (maxProto acc, maxWaitTimes acc) \/
  exists e,
    isRideOpen r = true /\ makeMax r = Normal e /\
    missingOr (lookup entryFields (maxProto acc) (maxWaitTimes acc) (rideKey r))
              (exceedsMax v (numericWaitTime r))
              (exceedsForeign v (numericWaitTime r)) = true /\
    (maxProto acc', maxWaitTimes acc') =
      assign (maxProto acc) (maxWaitTimes acc) (rideKey r) e.
Proof.
  intros H; destruct (step_parts _ _ _ _ H) as (_ & _ & Hm & _).
  destruct (isRideOpen r); cbn [andb] in Hm; [| inversion Hm; auto].
  destruct (missingOr _ _ _) eqn:Eg; [| inversion Hm; auto].
  destruct (makeMax r) as [e | x |]; cbn [bind] in Hm; try discriminate.
  right; exists e; inversion Hm; auto.
Qed.

Lemma step_max_other v acc r acc' k :
  step host v acc r = Normal acc' -> rideKey r <> k ->
  get (maxWaitTimes acc') k = get (maxWaitTimes acc) k.
Proof.
  intros H Hne; destruct (step_max_cases _ _ _ _ H) as [Heq | (e & _ & _ & _ & Heq)].
  - inversion Heq; reflexivity.
  - replace (maxWaitTimes acc') with (snd (maxProto acc', maxWaitTimes acc')) by reflexivity.
    rewrite Heq; apply assign_get; exact Hne.
Qed.

Lemma step_timeData v acc r acc' :
  step host v acc r = Normal acc' ->
  (forall k, inherited k = true -> get (timeDataAcc acc) k = None) ->
  forall k,
    get (timeDataAcc acc') k =
      if ofRide k r && ordinary r
      then Some (seriesOr (timeDataAcc acc) k
                   ++ (if inDisplayWindow r then [point host r] else []))%list
      else get (timeDataAcc acc) k.
Proof.
  intros H Hown k; destruct (step_parts _ _ _ _ H) as (Ht & _).
  unfold ordinary; destruct (inherited (rideKey r)) eqn:Hinh; cbn [negb].
  - rewrite andb_false_r.
    rewrite (step_quiet _ _ _ _ H Hown Hinh) in Ht.
    rewrite (read_foreign _ _ Hinh (Hown _ Hinh)) in Ht; inversion Ht; reflexivity.
  - rewrite andb_true_r.
    rewrite (read_own _ _ Hinh) in Ht.
    unfold ofRide, seriesOr, push in *.
    destruct (inDisplayWindow r).
    + destruct (get (timeDataAcc acc) (rideKey r)) as [s |] eqn:Hg.
      * rewrite (read_own _ _ Hinh), Hg in Ht; inversion Ht; subst.
        rewrite get_set; destruct (String.eqb (rideKey r) k) eqn:E; [| reflexivity].
        apply String.eqb_eq in E; subst k; rewrite Hg; reflexivity.
      * rewrite (read_own _ _ Hinh), get_set_same in Ht; inversion Ht; subst.
        rewrite !get_set; destruct (String.eqb (rideKey r) k) eqn:E; [| reflexivity].
        apply String.eqb_eq in E; subst k; rewrite Hg; reflexivity.
    + inversion Ht; subst.
      destruct (get (timeDataAcc acc) (rideKey r)) as [s |] eqn:Hg.
      * destruct (String.eqb (rideKey r) k) eqn:E; [| reflexivity].
        apply String.eqb_eq in E; subst k; rewrite Hg, app_nil_r; reflexivity.
      * rewrite get_set; destruct (String.eqb (rideKey r) k) eqn:E; [| reflexivity].
        apply String.eqb_eq in E; subst k; rewrite Hg; reflexivity.
Qed.

Lemma step_timeData_wf v acc r acc' :
  step host v acc r = Normal acc' -> wf (timeDataAcc acc) -> wf (timeDataAcc acc').
Proof.
  intros H Hwf; destruct (step_parts _ _ _ _ H) as (Ht & _).
  assert (Hwf1 : wf (match read (timeDataAcc acc) (rideKey r) with
                     | Missing => set (timeDataAcc acc) (rideKey r) []
                     | _ => timeDataAcc acc
                     end)).
  { destruct (read (timeDataAcc acc) (rideKey r)); try assumption.
    apply wf_set; assumption. }
  destruct (inDisplayWindow r).
  - unfold push in Ht.
    destruct (read _ (rideKey r)) in Ht; inversion Ht; subst; apply wf_set; assumption.
  - inversion Ht; subst; assumption.
Qed.

End Callback.

(* ================================================================== *)
(** ** What the accumulators hold after a prefix of the readings *)

Lemma makeLatest_inv r e :
  makeLatest r = Normal e ->
  currentDate r = Some (timestamp e) /\ ride_name e = rideKey r /\
  wait_time e = numericWaitTime r /\ last_update e = lastUpdate r /\
  is_open e = isRideOpen r.
Proof.
  unfold makeLatest; destruct (currentDate r); simpl; intros H; inversion H; subst; simpl; auto.
Qed.

Lemma makeMax_inv r e :
  makeMax r = Normal e ->
  currentDate r = Some (mm_timestamp e) /\ mm_ride_name e = rideKey r /\
  max_wait_time e = Some (numericWaitTime r) /\ min_wait_time e = None.
Proof.
  unfold makeMax; destruct (currentDate r); simpl; intros H; inversion H; subst; simpl; auto.
Qed.

Lemma makeMin_inv r e :
  makeMin r = Normal e ->
  currentDate r = Some (mm_timestamp e) /\ mm_ride_name e = rideKey r /\
  min_wait_time e = Some (numericWaitTime r) /\ max_wait_time e = None.
Proof.
  unfold makeMin; destruct (currentDate r); simpl; intros H; inversion H; subst; simpl; auto.
Qed.

Lemma update_latest pre o r o' :
  Tracks ordinary makeLatest currentDate Z.ltb timestamp pre o ->
  update ordinary makeLatest laterThan o r = Normal o' ->
  Tracks ordinary makeLatest currentDate Z.ltb timestamp (pre ++ [r]) o'.
Proof.
  apply update_Tracks.
  - intros a b c H1 H2; apply Z.ltb_lt in H1, H2; apply Z.ltb_lt; lia.
  - intros a b c H; apply Z.ltb_lt in H; destruct (a <? b) eqn:E; [auto |].
    right; apply Z.ltb_ge in E; apply Z.ltb_lt; lia.
  - intros r0 e H; apply makeLatest_inv in H; tauto.
  - intros r0 w e _; unfold laterThan; destruct (currentDate r0); reflexivity.
Qed.

Lemma update_max_at v k pre o r o' :
  TracksAt isRideOpen makeMax waitScore num_ltb storedMax k pre o ->
  update isRideOpen makeMax (fun r => exceedsMax v (numericWaitTime r)) o r = Normal o' ->
  TracksAt isRideOpen makeMax waitScore num_ltb storedMax k (pre ++ [r]) o'.
Proof.
  intros HT; apply update_TracksAt; [| | | | exact HT].
  - exact num_ltb_trans.
  - exact num_ltb_cotrans.
  - intros r0 e H; apply makeMax_inv in H; unfold waitScore, storedMax.
    destruct H as (_ & _ & -> & _); reflexivity.
  - intros e Hget _; unfold TracksAt in HT; rewrite Hget in HT.
    destruct HT as (before & w & after & _ & _ & _ & Hmk & _).
    apply makeMax_inv in Hmk; destruct Hmk as (_ & _ & Hm & _).
    unfold waitScore, storedMax, exceedsMax; rewrite Hm.
    destruct v; [reflexivity | apply orElse_zero_gtb].
Qed.

Lemma update_min pre o r o' :
  Tracks inTroughWindow makeMin waitScore num_gtb' storedMin pre o ->
  update inTroughWindow makeMin (fun r => belowMin Plain (numericWaitTime r)) o r = Normal o' ->
  Tracks inTroughWindow makeMin waitScore num_gtb' storedMin (pre ++ [r]) o'.
Proof.
  apply update_Tracks.
  - intros a b c H1 H2; unfold num_gtb' in *; eapply num_ltb_trans; eassumption.
  - intros a b c H; unfold num_gtb' in *.
    destruct (num_ltb_cotrans _ b _ H); auto.
  - intros r0 e H; apply makeMin_inv in H; unfold waitScore, storedMin.
    destruct H as (_ & _ & -> & _); reflexivity.
  - intros r0 w e H; apply makeMin_inv in H; destruct H as (_ & _ & Hm & _).
    unfold waitScore, storedMin, belowMin, num_gtb'; rewrite Hm; reflexivity.
Qed.

Lemma reservedFor_inherited v rs k : reservedFor v rs k = false -> inherited k = false.
Proof. unfold reservedFor; intros H; apply orb_false_iff in H; tauto. Qed.

Lemma reservedFor_before v pre r k :
  reservedFor v (pre ++ [r]) k = false -> reservedFor v pre k = false.
Proof.
  unfold reservedFor; intros H; apply orb_false_iff in H; destruct H as [-> H]; simpl.
  destruct v; [reflexivity |].
  rewrite existsb_app in H.
  destruct (existsb opensProto pre); [| reflexivity].
  exact H.
Qed.

Lemma reservedFor_field pre k :
  reservedFor Styled pre k = false -> existsb opensProto pre = true ->
  existsb (String.eqb k) peakFieldNames = false.
Proof.
  unfold reservedFor; intros H Hp; apply orb_false_iff in H; destruct H as [_ H].
  rewrite Hp in H; exact H.
Qed.

Lemma Tracks_ordinary_own {E S : Type} make score lt stored pre (o : obj E) :
  @Tracks E S ordinary make score lt stored pre o ->
  forall k, inherited k = true -> get o k = None.
Proof.
  intros HT k Hk; specialize (HT k); destruct (get o k) as [e |]; [| reflexivity].
  destruct HT as (before & w & after & _ & Hw & Hrel & _).
  unfold ordinary in Hrel; rewrite Hw, Hk in Hrel; discriminate.
Qed.

Section Fold.

Variable host : Host.

Lemma series_app k l1 l2 :
  series host k (l1 ++ l2) = (series host k l1 ++ series host k l2)%list.
Proof. unfold series; rewrite filter_app, map_app; reflexivity. Qed.

Lemma series_one k r :
  series host k [r] = if ofRide k r && inDisplayWindow r then [point host r] else [].
Proof. unfold series; simpl; destruct (ofRide k r && inDisplayWindow r); reflexivity. Qed.

Lemma series_absent k rs : existsb (ofRide k) rs = false -> series host k rs = [].
Proof.
  unfold series; induction rs as [| r rs IH]; simpl; [reflexivity |].
  intros H; apply orb_false_iff in H; destruct H as [-> H]; simpl; auto.
Qed.

Lemma AccInv_time_own v pre acc :
  AccInv host v pre acc -> forall k, inherited k = true -> get (timeDataAcc acc) k = None.
Proof. intros Hinv k Hk; rewrite (inv_time _ _ _ _ Hinv k), Hk; reflexivity. Qed.

Lemma AccInv_empty v : AccInv host v [] emptyAcc.
Proof.
  constructor; simpl; try apply Tracks_nil; try apply wf_nil; try apply Holds_nil; auto.
  - intros k _; unfold TracksAt; simpl; intros r [].
  - intros k e H; discriminate.
  - intros p H; discriminate.
  - intros _; apply Tracks_nil.
  - intros r [].
  - intros k; rewrite andb_false_r; reflexivity.
Qed.

Lemma step_AccInv v pre acc r acc' :
  AccInv host v pre acc -> step host v acc r = Normal acc' ->
  AccInv host v (pre ++ [r]) acc'.
Proof.
  intros Hinv H.
  pose proof (AccInv_time_own _ _ _ Hinv) as Htown.
  pose proof (Tracks_ordinary_own _ _ _ _ _ _ (inv_latest _ _ _ _ Hinv)) as Hlown.
  destruct Hinv as [HL HM HK HP Hm Hh Hq HQ HT WL WM Wm WT].
  pose proof (step_latest _ _ _ _ _ H Hlown) as UL.
  destruct (step_min _ _ _ _ _ H Htown Hq) as (Um & Uq).
  pose proof (step_max_cases _ _ _ _ _ H) as UM.
  constructor.
  - eapply update_latest; eassumption.
  - intros k Hk; pose proof (reservedFor_inherited _ _ _ Hk) as Hinh.
    pose proof (reservedFor_before _ _ _ _ Hk) as Hk0.
    destruct (String.eqb (rideKey r) k) eqn:Ek.
    + apply String.eqb_eq in Ek.
      assert (Hown : forall p, maxProto acc = Some p -> get (entryFields p) (rideKey r) = None).
      { intros p Hp; destruct (HP p Hp) as (-> & Hmin & Hopen).
        apply entryFields_other; [exact Hmin |].
        rewrite Ek; apply (reservedFor_field _ _ Hk).
        rewrite existsb_app, Hopen; reflexivity. }
      rewrite <- Ek in Hinh.
      destruct (step_max_own _ _ _ _ _ H Hinh Hown) as (U & _).
      eapply update_max_at; [apply HM; exact Hk0 | exact U].
    + apply String.eqb_neq in Ek.
      eapply TracksAt_other; [exact Ek | | apply HM; exact Hk0].
      eapply step_max_other; eassumption.
  - intros k e Hg.
    destruct UM as [Heq | (e0 & Ho & Hmk & _ & Heq)].
    + inversion Heq as [[Hp' Ho']]; rewrite Ho' in Hg.
      apply MadeFrom_snoc; apply HK; exact Hg.
    + assert (Hsnd : maxWaitTimes acc' = snd (assign (maxProto acc) (maxWaitTimes acc) (rideKey r) e0))
        by (rewrite <- Heq; reflexivity).
      rewrite Hsnd in Hg; unfold assign in Hg.
      destruct (String.eqb (rideKey r) "__proto__"); cbn [snd] in Hg.
      * apply MadeFrom_snoc; apply HK; exact Hg.
      * rewrite get_set in Hg; destruct (String.eqb (rideKey r) k) eqn:Ek.
        -- apply String.eqb_eq in Ek; inversion Hg; subst.
           exists r; repeat split; auto; apply in_app_iff; right; left; reflexivity.
        -- apply MadeFrom_snoc; apply HK; exact Hg.
  - intros p Hp.
    assert (Hold : forall q, maxProto acc = Some q ->
              v = Styled /\ min_wait_time q = None /\
              existsb opensProto (pre ++ [r]) = true).
    { intros q Eq; destruct (HP q Eq) as (Hv & Hmin & Hopen).
      rewrite existsb_app, Hopen; auto. }
    destruct UM as [Heq | (e0 & Ho & Hmk & Hg & Heq)].
    + inversion Heq as [[Hp' Ho']]; rewrite Hp' in Hp; apply Hold; exact Hp.
    + assert (Hfst : maxProto acc' = fst (assign (maxProto acc) (maxWaitTimes acc) (rideKey r) e0))
        by (rewrite <- Heq; reflexivity).
      rewrite Hfst in Hp; unfold assign in Hp.
      destruct (String.eqb (rideKey r) "__proto__") eqn:Ek; cbn [fst] in Hp;
        [| apply Hold; exact Hp].
      inversion Hp; subst p; apply makeMax_inv in Hmk.
      split; [| split; [tauto |]].
      * destruct v; [| reflexivity].
        apply String.eqb_eq in Ek; rewrite Ek in Hg.
        destruct (maxProto acc) as [p |] eqn:Ep; [destruct (HP p eq_refl); discriminate |].
        discriminate.
      * rewrite existsb_app; unfold opensProto at 2; cbn [existsb].
        rewrite Ek, Ho; cbn [andb orb]; apply orb_true_r.
  - intros ->; eapply update_min; eauto.
  - eapply update_Holds; eassumption.
  - exact Uq.
  - intros r0 Hin Hinh; apply in_app_iff in Hin; destruct Hin as [Hin | [<- | []]].
    + apply HQ; assumption.
    + eapply step_quiet; eassumption.
  - intros k; rewrite (step_timeData _ _ _ _ _ H Htown k), existsb_app, series_app.
    unfold seriesOr; rewrite HT, series_one; simpl existsb.
    unfold ordinary.
    destruct (ofRide k r) eqn:Ek; simpl andb.
    + unfold ofRide in Ek; apply String.eqb_eq in Ek; rewrite Ek.
      destruct (inherited k) eqn:Hinh; cbn [negb andb]; [reflexivity |].
      rewrite orb_true_r.
      destruct (existsb (ofRide k) pre) eqn:Ex.
      * destruct (inDisplayWindow r); reflexivity.
      * rewrite (series_absent _ _ Ex); destruct (inDisplayWindow r); reflexivity.
    + rewrite orb_false_r, app_nil_r; reflexivity.
  - eapply update_wf; eassumption.
  - destruct UM as [Heq | (e0 & _ & _ & _ & Heq)].
    + inversion Heq as [[Hp' Ho']]; rewrite Ho'; exact WM.
    + replace (maxWaitTimes acc') with (snd (maxProto acc', maxWaitTimes acc')) by reflexivity.
      rewrite Heq; apply assign_wf; exact WM.
  - eapply update_wf; eassumption.
  - eapply step_timeData_wf; eassumption.
Qed.

Lemma forEach_AccInv v rs : forall pre acc acc',
  AccInv host v pre acc -> forEach (step host v) rs acc = Normal acc' ->
  AccInv host v (pre ++ rs) acc'.
Proof.
  induction rs as [| r rs IH]; simpl; intros pre acc acc' Hinv H.
  - inversion H; subst; rewrite app_nil_r; assumption.
  - inv_bind H.
    replace (pre ++ r :: rs)%list with ((pre ++ [r]) ++ rs)%list
      by (rewrite <- app_assoc; reflexivity).
    eapply IH; [eapply step_AccInv |]; eassumption.
Qed.

Lemma forEach_processRow v rows : forall acc acc',
  forEach (processRow host v) rows acc = Normal acc' ->
  exists rs, readAll host rows = Normal rs /\ forEach (step host v) rs acc = Normal acc'.
Proof.
  induction rows as [| row rows IH]; simpl; intros acc acc' H.
  - exists []; auto.
  - inv_bind H; unfold processRow in Ha; inv_bind Ha.
    destruct (IH _ _ H) as (rs & Hrs & Hfold).
    exists (a0 :: rs); rewrite Ha0, Hrs; simpl; rewrite Ha; auto.
Qed.

Lemma processCSVData_inv v csvText pd :
  processCSVData host v csvText = Normal pd ->
  exists rs acc,
    readings host csvText = Normal rs /\
    forEach (step host v) rs emptyAcc = Normal acc /\
    AccInv host v rs acc /\ pd = assemble host acc.
Proof.
  unfold processCSVData; cbv zeta; intros H; inv_bind H; inversion H; subst.
  destruct (forEach_processRow _ _ _ _ Ha) as (rs & Hrs & Hfold).
  exists rs, a; split; [exact Hrs |]; split; [exact Hfold |]; split; [| reflexivity].
  apply (forEach_AccInv v rs [] emptyAcc a (AccInv_empty v) Hfold).
Qed.

End Fold.

(* ================================================================== *)
(** ** The summary in terms of the readings *)

Lemma FirstLatest_LatestOf k rs e : FirstLatest k rs e -> LatestOf k rs e.
Proof.
  intros (before & w & after & Hrs & Hk & _ & Hmk & Hb & Ha).
  apply makeLatest_inv in Hmk; destruct Hmk as (Hd & Hn & Hw & Hl & Ho).
  exists before, w, after; repeat split; try assumption; try congruence.
  - intros r t Hin Hr Ht; apply Z.ltb_lt; eapply Hb; eauto.
  - intros r t Hin Hr Ht; apply Z.ltb_ge; eapply Ha; eauto.
Qed.

(** Among the readings of a ride whose name is not inherited, all take
    part. *)
Lemma FirstOrdinary_FirstLatest k rs e :
  FirstBest ordinary makeLatest currentDate Z.ltb timestamp k rs e ->
  inherited k = false /\ FirstLatest k rs e.
Proof.
  intros (before & w & after & Hrs & Hk & Hrel & Hmk & Hb & Ha).
  assert (Hinh : inherited k = false).
  { unfold ordinary in Hrel; rewrite Hk in Hrel; destruct (inherited k); [discriminate | reflexivity]. }
  split; [exact Hinh |].
  exists before, w, after; repeat split; try assumption.
  - intros r s Hin Hr _; apply Hb; auto; unfold ordinary; rewrite Hr, Hinh; reflexivity.
  - intros r s Hin Hr _; apply Ha; auto; unfold ordinary; rewrite Hr, Hinh; reflexivity.
Qed.

Lemma FirstPeak_PeakOf k rs e : FirstPeak k rs e -> PeakOf k rs e.
Proof.
  intros (before & w & after & Hrs & Hk & Hrel & Hmk & Hb & Ha).
  apply makeMax_inv in Hmk; destruct Hmk as (Hd & Hn & Hm & _).
  assert (Hst : storedMax e = numericWaitTime w) by (unfold storedMax; rewrite Hm; reflexivity).
  exists before, w, after; repeat split; try assumption; try congruence.
  - intros r Hin Hr Ho; rewrite <- Hst; eapply Hb; eauto; reflexivity.
  - intros r Hin Hr Ho; unfold num_leb; rewrite <- Hst.
    rewrite (Ha r (numericWaitTime r)); auto.
Qed.

Lemma FirstTrough_TroughOf k rs e : FirstTrough k rs e -> TroughOf k rs e.
Proof.
  intros (before & w & after & Hrs & Hk & Hrel & Hmk & Hb & Ha).
  apply makeMin_inv in Hmk; destruct Hmk as (Hd & Hn & Hm & _).
  assert (Hst : storedMin e = numericWaitTime w) by (unfold storedMin; rewrite Hm; reflexivity).
  unfold inTroughWindow in *; apply andb_true_iff in Hrel; destruct Hrel as [Ho Hh].
  exists before, w, after; repeat split; try assumption; try congruence.
  - intros r Hin Hr Hro Hrh; rewrite <- Hst.
    apply (Hb r (numericWaitTime r) Hin Hr); [rewrite Hro, Hrh |]; reflexivity.
  - intros r Hin Hr Hro Hrh; unfold num_leb; rewrite <- Hst.
    change (negb (num_gtb' (storedMin e) (numericWaitTime r)) = true).
    rewrite (Ha r (numericWaitTime r) Hin Hr); [| rewrite Hro, Hrh |]; reflexivity.
Qed.

Lemma ex_iff {A : Type} (P Q : A -> Prop) :
  (forall a, P a <-> Q a) -> ((exists a, P a) <-> (exists a, Q a)).
Proof. intros H; split; intros [a Ha]; exists a; apply H; exact Ha. Qed.

(** The values of an accumulator that tracks first-best readings are keyed
    by the ride name they carry. *)
Lemma tracked_values {E S : Type} relevant make score lt stored (name : E -> string)
      (rs : list Reading) (o : obj E) :
  (forall r e, make r = Normal e -> name e = rideKey r) ->
  @Tracks E S relevant make score lt stored rs o -> wf o ->
  forall k e, (In e (values o) /\ name e = k) <-> get o k = Some e.
Proof.
  intros Hname HT Hwf k e; split.
  - intros [Hin Hk]; apply (In_values_get o e Hwf) in Hin; destruct Hin as [k' Hk'].
    pose proof (HT k') as HT'; rewrite Hk' in HT'.
    destruct HT' as (? & w & ? & _ & Hw & _ & Hmk & _).
    apply Hname in Hmk; congruence.
  - intros Hget; split; [apply (In_values_get o e Hwf); eauto |].
    pose proof (HT k) as HT'; rewrite Hget in HT'.
    destruct HT' as (? & w & ? & _ & Hw & _ & Hmk & _).
    apply Hname in Hmk; congruence.
Qed.

Lemma kept_values {E : Type} relevant make (name : E -> string)
      (rs : list Reading) (o : obj E) :
  (forall r e, make r = Normal e -> name e = rideKey r) ->
  Kept relevant make rs o -> wf o ->
  forall k e, (In e (values o) /\ name e = k) <-> get o k = Some e.
Proof.
  intros Hname HK Hwf k e; split.
  - intros [Hin Hk]; apply (In_values_get o e Hwf) in Hin; destruct Hin as [k' Hk'].
    destruct (HK k' e Hk') as (w & _ & Hw & _ & Hmk); apply Hname in Hmk; congruence.
  - intros Hget; split; [apply (In_values_get o e Hwf); eauto |].
    destruct (HK k e Hget) as (w & _ & Hw & _ & Hmk); apply Hname in Hmk; congruence.
Qed.

Section Summary.

Variable host : Host.
Variable v : variant.
Variable rs : list Reading.
Variable acc : Acc.
Hypothesis Hinv : AccInv host v rs acc.

Local Abbreviation pd := (assemble host acc).

Lemma currentData_get k e :
  (In e (currentData pd) /\ ride_name e = k) <-> get (latestEntries acc) k = Some e.
Proof.
  apply (tracked_values ordinary makeLatest currentDate Z.ltb timestamp ride_name rs).
  - intros r e0 H; apply makeLatest_inv in H; tauto.
  - apply Hinv.
  - apply Hinv.
Qed.

Lemma maxData_get k e :
  (In e (maxData pd) /\ mm_ride_name e = k) <-> get (maxWaitTimes acc) k = Some e.
Proof.
  apply (kept_values isRideOpen makeMax mm_ride_name rs).
  - intros r e0 H; apply makeMax_inv in H; tauto.
  - apply Hinv.
  - apply Hinv.
Qed.

Lemma minData_get_held k e :
  (In e (minData pd) /\ mm_ride_name e = k) <-> get (minWaitTimes acc) k = Some e.
Proof.
  apply (held_values inTroughWindow makeMin mm_ride_name rs).
  - intros r e0 H; apply makeMin_inv in H; tauto.
  - apply Hinv.
  - apply Hinv.
Qed.

Lemma minData_get k e :
  v = Plain ->
  (In e (minData pd) /\ mm_ride_name e = k) <-> get (minWaitTimes acc) k = Some e.
Proof. intros _; apply minData_get_held. Qed.

Lemma summary_latest k :
  (inherited k = false ->
   ((exists r, In r rs /\ rideKey r = k) <->
    (exists e, In e (currentData pd) /\ ride_name e = k))) /\
  (forall e, In e (currentData pd) -> ride_name e = k ->
             inherited k = false /\ LatestOf k rs e) /\
  (forall e e', In e (currentData pd) -> In e' (currentData pd) ->
                ride_name e = k -> ride_name e' = k -> e = e').
Proof.
  pose proof (inv_latest _ _ _ _ Hinv) as HT.
  split; [| split].
  - intros Hinh; rewrite (ex_iff _ _ (fun e => currentData_get k e)).
    rewrite (Tracks_present _ _ _ _ _ _ _ k HT); unfold ordinary.
    split; intros (r & H1 & H2); exists r.
    + split; [exact H1 |]; split; [exact H2 |]; rewrite H2, Hinh; reflexivity.
    + tauto.
  - intros e Hin Hk.
    assert (Hg : get (latestEntries acc) k = Some e) by (apply currentData_get; auto).
    specialize (HT k); rewrite Hg in HT.
    destruct (FirstOrdinary_FirstLatest _ _ _ HT) as [Hinh HF].
    split; [exact Hinh | apply FirstLatest_LatestOf; exact HF].
  - intros e e' Hin Hin' Hk Hk'.
    assert (Hg : get (latestEntries acc) k = Some e) by (apply currentData_get; auto).
    assert (Hg' : get (latestEntries acc) k = Some e') by (apply currentData_get; auto).
    congruence.
Qed.

Lemma summary_peak_unique k e e' :
  In e (maxData pd) -> In e' (maxData pd) ->
  mm_ride_name e = k -> mm_ride_name e' = k -> e = e'.
Proof.
  intros Hin Hin' Hk Hk'.
  assert (Hg : get (maxWaitTimes acc) k = Some e) by (apply maxData_get; auto).
  assert (Hg' : get (maxWaitTimes acc) k = Some e') by (apply maxData_get; auto).
  congruence.
Qed.

Lemma summary_peak k :
  reservedFor v rs k = false ->
  ((exists r, In r rs /\ rideKey r = k /\ isRideOpen r = true) <->
   (exists e, In e (maxData pd) /\ mm_ride_name e = k)) /\
  (forall e, In e (maxData pd) -> mm_ride_name e = k -> PeakOf k rs e) /\
  (forall e e', In e (maxData pd) -> In e' (maxData pd) ->
                mm_ride_name e = k -> mm_ride_name e' = k -> e = e').
Proof.
  intros Hk; pose proof (inv_max _ _ _ _ Hinv k Hk) as HT.
  split; [| split].
  - rewrite (ex_iff _ _ (fun e => maxData_get k e)).
    apply (TracksAt_present _ _ _ _ _ _ _ _ HT).
  - intros e Hin Hn; apply FirstPeak_PeakOf.
    assert (Hg : get (maxWaitTimes acc) k = Some e) by (apply maxData_get; auto).
    unfold TracksAt in HT; rewrite Hg in HT; exact HT.
  - apply summary_peak_unique.
Qed.

Lemma summary_trough k :
  v = Plain ->
  ((exists r, In r rs /\ rideKey r = k /\
              isRideOpen r = true /\ hourWithin 10 18 (currentHour r) = true) <->
   (exists e, In e (minData pd) /\ mm_ride_name e = k)) /\
  (forall e, In e (minData pd) -> mm_ride_name e = k -> TroughOf k rs e).
Proof.
  intros Hv; pose proof (inv_min _ _ _ _ Hinv Hv) as HT.
  split.
  - rewrite (ex_iff _ _ (fun e => minData_get k e Hv)).
    rewrite (Tracks_present _ _ _ _ _ _ _ k HT); unfold inTroughWindow.
    split.
    + intros (r & H1 & H2 & H3 & H4); exists r; split; [exact H1 |]; split; [exact H2 |].
      apply andb_true_iff; auto.
    + intros (r & H1 & H2 & H3); apply andb_true_iff in H3; exists r; tauto.
  - intros e Hin Hk; apply FirstTrough_TroughOf.
    assert (Hg : get (minWaitTimes acc) k = Some e) by (apply minData_get; auto).
    specialize (HT k); rewrite Hg in HT; exact HT.
Qed.

End Summary.

(* ================================================================== *)
(** ** The sort of a series *)

Section Sorting.

Variable host : Host.


Lemma insertSorted_perm x l : Permutation (insertSorted host x l) (x :: l).
Proof.
  induction l as [| y l IH]; simpl; [apply Permutation_refl |].
  destruct (0 <? SortCompare host x y); [| apply Permutation_refl].
  eapply perm_trans; [apply perm_skip; exact IH | apply perm_swap].
Qed.

Lemma sort_perm l : Permutation (sort host l) l.
Proof.
  induction l as [| x l IH]; simpl; [constructor |].
  eapply perm_trans; [apply insertSorted_perm | apply perm_skip; exact IH].
Qed.






Lemma get_sorted (o : obj (list TimeDataEntry)) k :
  get (map (fun kv => (fst kv, sort host (snd kv))) o) k = option_map (sort host) (get o k).
Proof.
  induction o as [| [k' s] o IH]; simpl; [reflexivity |].
  destruct (String.eqb k' k); auto.
Qed.

End Sorting.

(* ================================================================== *)
(** ** Rows and readings *)

Section Rows.

Variable host : Host.

Lemma readRow_Normal row r :
  readRow host row = Normal r ->
  (5 <= List.length row)%nat /\
  rideKey r = trim (nth 1 row EmptyString) /\
  numericWaitTime r = orElse (parseInt10 (nth 2 row EmptyString)) (Fin 0) /\
  lastUpdate r = nth 3 row EmptyString /\
  isRideOpen r = String.eqb (toLowerCase (nth 4 row EmptyString)) "true" /\
  currentDate r = adjusted host (nth 0 row EmptyString) /\
  currentHour r = getHours host (currentDate r).
Proof.
  unfold readRow.
  destruct row as [| f0 [| f1 [| f2 [| f3 [| f4 rest]]]]]; try discriminate.
  intros H; inversion H; subst; simpl; repeat split; auto; lia.
Qed.

(** A row of five fields or more always gives a reading. *)
Lemma readRow_total row :
  (5 <= List.length row)%nat -> exists r, readRow host row = Normal r.
Proof.
  unfold readRow.
  destruct row as [| f0 [| f1 [| f2 [| f3 [| f4 rest]]]]]; simpl; try lia.
  intros _; eauto.
Qed.

Lemma readRow_modelled row : readRow host row <> Unmodelled.
Proof.
  unfold readRow.
  destruct row as [| f0 [| f1 [| f2 [| f3 [| f4 rest]]]]]; discriminate.
Qed.

(** A row of fewer than five fields makes the callback throw. *)
Lemma short_row_throws v acc row :
  (List.length row < 5)%nat -> processRow host v acc row = Throw TypeError.
Proof.
  unfold processRow, readRow.
  destruct row as [| f0 [| f1 [| f2 [| f3 [| f4 rest]]]]]; simpl; intros H;
    try reflexivity; lia.
Qed.

Lemma readAll_Forall (P : list string -> Reading -> Prop) rows : forall rs,
  (forall row r, readRow host row = Normal r -> P row r) ->
  readAll host rows = Normal rs -> Forall2 P rows rs.
Proof.
  induction rows as [| row rows IH]; simpl; intros rs HP H.
  - inversion H; constructor.
  - inv_bind H; inv_bind H; inversion H; subst; constructor; auto.
Qed.


(** No callback leaves the model. *)
Lemma step_modelled v acc r : step host v acc r <> Unmodelled.
Proof.
  unfold step, push; cbv zeta.
  destruct (currentDate r); cbn [toISOString bind];
    repeat match goal with
           | |- context [match ?x with _ => _ end] =>
               match type of x with
               | bool => destruct x
               | slot _ => destruct x
               end; cbn [bind]
           end; discriminate.
Qed.

Lemma forEach_modelled {A : Type} (f : Acc -> A -> outcome Acc) (l : list A) :
  (forall acc x, f acc x <> Unmodelled) ->
  forall acc, forEach f l acc <> Unmodelled.
Proof.
  intros Hf; induction l as [| x l IH]; intros acc; simpl; [discriminate |].
  destruct (f acc x) as [acc' | e |] eqn:E; cbn [bind]; [apply IH | discriminate |].
  exfalso; exact (Hf _ _ E).
Qed.

(** The aggregation returns or throws on every text: nothing is left out of
    the model. *)
Lemma processCSVData_modelled v csvText : processCSVData host v csvText <> Unmodelled.
Proof.
  unfold processCSVData; cbv zeta.
  pose proof (forEach_modelled (processRow host v) (tl (parseRows csvText))) as H.
  destruct (forEach (processRow host v) (tl (parseRows csvText)) emptyAcc) eqn:E;
    cbn [bind]; try discriminate.
  exfalso; apply (H ltac:(intros acc x; unfold processRow;
                          destruct (readRow host x) eqn:Er; cbn [bind];
                          [apply step_modelled | discriminate |
                           exfalso; exact (readRow_modelled _ Er)]) emptyAcc E).
Qed.

(** A reading with a valid date, of a ride not named like a member of
    [Object.prototype], is taken in without an exception. *)
Lemma step_total v acc r :
  currentDate r <> None -> inherited (rideKey r) = false ->
  exists acc', step host v acc r = Normal acc'.
Proof.
  intros Hd Hinh; destruct (currentDate r) as [t |] eqn:Ed; [clear Hd | congruence].
  unfold step; cbv zeta; rewrite Ed; cbn [toISOString bind].
  assert (Hpush : forall x, exists td,
             push (match read (timeDataAcc acc) (rideKey r) with
                   | Missing => set (timeDataAcc acc) (rideKey r) []
                   | _ => timeDataAcc acc
                   end) (rideKey r) x = Normal td).
  { intros x; unfold push; rewrite (read_own (timeDataAcc acc) _ Hinh).
    destruct (get (timeDataAcc acc) (rideKey r)) eqn:Eg.
    - rewrite (read_own _ _ Hinh), Eg; eauto.
    - rewrite (read_own _ _ Hinh), get_set_same; eauto. }
  destruct (hourBetween 8 21 (currentHour r)).
  - match goal with |- context [push ?a ?b ?c] => destruct (Hpush c) as [td ->] end.
    cbn [bind].
    repeat match goal with
           | |- context [if ?b then _ else _] => destruct b; cbn [bind]
           end; eauto.
  - cbn [bind].
    repeat match goal with
           | |- context [if ?b then _ else _] => destruct b; cbn [bind]
           end; eauto.
Qed.

Lemma forEach_total v rows : forall acc,
  Forall (wellFormedRow host) rows ->
  exists acc', forEach (processRow host v) rows acc = Normal acc'.
Proof.
  induction rows as [| row rows IH]; simpl; intros acc H; [eauto |].
  inversion H as [| ? ? (Hlen & Hinh & Hdate) Hrest]; subst.
  destruct (readRow_total row Hlen) as [r Hr].
  unfold processRow at 1; rewrite Hr; cbn [bind].
  pose proof (readRow_Normal _ _ Hr) as (_ & Hk & _ & _ & _ & Hd & _).
  destruct (step_total v acc r) as [acc1 ->]; [congruence | congruence |].
  cbn [bind]; apply IH; assumption.
Qed.

End Rows.

(* ================================================================== *)
(** ** Wait times *)

Lemma isDigit_code c : isDigit c = true -> 48 <= code c <= 57.
Proof. unfold isDigit; intros H; apply andb_true_iff in H; lia. Qed.

Lemma readDigits_nonneg s : forall acc n, 0 <= acc -> 0 <= fst (readDigits acc n s).
Proof.
  induction s as [| c s IH]; cbn [readDigits]; intros acc n Hacc; [assumption |].
  destruct (isDigit c) eqn:E; [| assumption].
  apply IH; apply isDigit_code in E; unfold digitValue; lia.
Qed.

Lemma readDigits_count s : forall acc n, (n <= snd (readDigits acc n s))%nat.
Proof.
  induction s as [| c s IH]; cbn [readDigits]; intros acc n; [simpl; lia |].
  destruct (isDigit c); [| simpl; lia].
  specialize (IH (10 * acc + digitValue c) (S n)); lia.
Qed.

Lemma roundToDouble_nonneg n : 0 <= n -> num_leb (Fin 0) (roundToDouble n) = true.
Proof.
  intros Hn; unfold roundToDouble, num_leb.
  destruct (Z.abs n <? 2 ^ 53) eqn:E53.
  - simpl; destruct (n <? 0) eqn:E; [apply Z.ltb_lt in E; lia | reflexivity].
  - cbv zeta.
    set (e := Z.log2 (Z.abs n) - 52).
    set (q := Z.abs n / 2 ^ e).
    set (q' := if 2 * (Z.abs n mod 2 ^ e) <? 2 ^ e then q
               else if 2 ^ e <? 2 * (Z.abs n mod 2 ^ e) then q + 1
               else if Z.even q then q else q + 1).
    destruct (2 ^ 1024 <=? q' * 2 ^ e).
    + destruct (n <? 0) eqn:E; [apply Z.ltb_lt in E; lia | reflexivity].
    + assert (Hp : 0 <= 2 ^ e) by (apply Z.pow_nonneg; lia).
      assert (Hq : 0 <= q).
      { unfold q; destruct (Z.eq_dec (2 ^ e) 0) as [-> | Hne].
        - rewrite Z.div_0_r; lia.
        - apply Z.div_pos; lia. }
      assert (Hq' : 0 <= q').
      { unfold q'.
        destruct (2 * (Z.abs n mod 2 ^ e) <? 2 ^ e); [lia |].
        destruct (2 ^ e <? 2 * (Z.abs n mod 2 ^ e)); [lia |].
        destruct (Z.even q); lia. }
      simpl; destruct (Z.sgn n * (q' * 2 ^ e) <? 0) eqn:E; [| reflexivity].
      apply Z.ltb_lt in E.
      assert (0 <= Z.sgn n) by (apply Z.sgn_nonneg; assumption).
      assert (0 <= q' * 2 ^ e) by (apply Z.mul_nonneg_nonneg; assumption).
      assert (0 <= Z.sgn n * (q' * 2 ^ e)) by (apply Z.mul_nonneg_nonneg; assumption).
      lia.
Qed.

Lemma roundToDouble_exact n : Z.abs n < 2 ^ 53 -> roundToDouble n = Fin n.
Proof.
  intros H; unfold roundToDouble.
  destruct (Z.abs n <? 2 ^ 53) eqn:E; [reflexivity | apply Z.ltb_ge in E; lia].
Qed.

Lemma orElse_zero_nonneg x :
  (forall n, x = Some n -> num_leb (Fin 0) n = true) ->
  num_leb (Fin 0) (orElse x (Fin 0)) = true.
Proof.
  intros H; destruct x as [[z | |] |]; simpl; try reflexivity.
  - specialize (H _ eq_refl); destruct z; auto.
  - specialize (H _ eq_refl); discriminate.
Qed.

Lemma waitOf_nonneg field :
  (forall rest, trimStart field <> String "-"%char rest) ->
  num_leb (Fin 0) (waitOf field) = true.
Proof.
  intros Hminus; unfold waitOf; apply orElse_zero_nonneg; intros n.
  unfold parseInt10.
  destruct (trimStart field) as [| c rest] eqn:Et.
  - simpl; discriminate.
  - destruct (Ascii.eqb c "-"%char) eqn:Em.
    { apply Ascii.eqb_eq in Em; subst c; exfalso; apply (Hminus rest); reflexivity. }
    assert (Hgen : forall s2,
               (let '(v, n0) := readDigits 0 0 s2 in
                match n0 with
                | O => None
                | S _ => Some (roundToDouble v)
                end) = Some n -> num_leb (Fin 0) n = true).
    { intros s2; pose proof (readDigits_nonneg s2 0 O (Z.le_refl 0)) as Hv.
      destruct (readDigits 0 0 s2) as [v0 n0]; simpl in Hv.
      destruct n0; [discriminate |].
      intros H; inversion H; subst; apply roundToDouble_nonneg; assumption. }
    destruct (Ascii.eqb c "+"%char); apply Hgen.
Qed.

Lemma isDigit_not_space c : isDigit c = true -> isWhiteSpace c = false.
Proof.
  intros H; apply isDigit_code in H; unfold isWhiteSpace; cbv zeta.
  destruct (9 <=? code c) eqn:E1, (code c <=? 13) eqn:E2,
           (code c =? 32) eqn:E3, (code c =? 160) eqn:E4; simpl; try reflexivity;
    try apply Z.leb_le in E2; try apply Z.eqb_eq in E3; try apply Z.eqb_eq in E4; lia.
Qed.

Lemma isDigit_not_sign c :
  isDigit c = true -> Ascii.eqb c "-"%char = false /\ Ascii.eqb c "+"%char = false.
Proof.
  intros H; apply isDigit_code in H.
  split; apply Ascii.eqb_neq; intros Heq; subst c;
    [change (48 <= 45 <= 57) in H | change (48 <= 43 <= 57) in H]; lia.
Qed.

(** A field of decimal digits only, denoting an integer below 2^53, is read
    as that integer. *)
Lemma waitOf_digits field :
  allDigits field = true -> field <> EmptyString ->
  fst (readDigits 0 O field) < 2 ^ 53 ->
  waitOf field = Fin (fst (readDigits 0 O field)).
Proof.
  intros Hall Hne Hlt; unfold waitOf, parseInt10.
  destruct field as [| c rest]; [congruence |].
  simpl in Hall; apply andb_true_iff in Hall; destruct Hall as [Hc Hrest].
  simpl trimStart; rewrite (isDigit_not_space c Hc).
  destruct (isDigit_not_sign c Hc) as [-> ->].
  cbn [readDigits] in Hlt |- *; rewrite Hc in Hlt |- *.
  assert (Hd : 0 <= 10 * 0 + digitValue c)
    by (apply isDigit_code in Hc; unfold digitValue; lia).
  pose proof (readDigits_nonneg rest _ 1%nat Hd) as Hv.
  pose proof (readDigits_count rest (10 * 0 + digitValue c) 1) as Hn.
  destruct (readDigits (10 * 0 + digitValue c) 1 rest) as [v n]; cbn [fst snd] in *.
  destruct n; [lia |].
  rewrite roundToDouble_exact by lia.
  destruct v; reflexivity.
Qed.

(* ================================================================== *)
(** ** The global latest timestamp *)

Lemma fold_max_spec (l : list RideData) : forall a,
  let m := fold_left (fun max entry => Z.max max (timestamp entry)) l a in
  a <= m /\ (forall e, In e l -> timestamp e <= m) /\
  (m = a \/ exists e, In e l /\ timestamp e = m).
Proof.
  induction l as [| x l IH]; simpl; intros a.
  - repeat split; [lia | tauto | auto].
  - destruct (IH (Z.max a (timestamp x))) as (H1 & H2 & H3).
    repeat split.
    + lia.
    + intros e [<- | Hin]; [lia | auto].
    + destruct H3 as [H3 | (e & Hin & He)].
      * destruct (Z.max_spec a (timestamp x)) as [[_ Hm] | [_ Hm]].
        -- right; exists x; split; [auto | congruence].
        -- left; congruence.
      * right; exists e; auto.
Qed.

Lemma latestTimestamp_spec host acc :
  let pd := assemble host acc in
  (forall m, latestTimestamp pd = Some m <->
             0 < m /\ (exists e, In e (currentData pd) /\ timestamp e = m) /\
             (forall e, In e (currentData pd) -> timestamp e <= m)) /\
  (latestTimestamp pd = None <-> forall e, In e (currentData pd) -> timestamp e <= 0).
Proof.
  unfold assemble; cbv zeta; cbn [latestTimestamp currentData].
  set (cd := values (latestEntries acc)).
  destruct (fold_max_spec cd 0) as (H1 & H2 & H3); cbv zeta in *.
  set (m0 := fold_left (fun max entry => Z.max max (timestamp entry)) cd 0) in *.
  destruct cd as [| x cd'] eqn:Ecd.
  - simpl; split; [intros m; split; [discriminate | intros (_ & (e & [] & _) & _)] |].
    split; [intros _ e [] | reflexivity].
  - replace (0 <? Z.of_nat (List.length (x :: cd'))) with true
      by (symmetry; apply Z.ltb_lt; simpl List.length; lia).
    destruct (m0 =? 0) eqn:E0.
    + apply Z.eqb_eq in E0; split.
      * intros m; split; [discriminate |].
        intros (Hpos & (e & Hin & He) & _); specialize (H2 e Hin); lia.
      * split; [intros _ e Hin; specialize (H2 e Hin); lia | reflexivity].
    + apply Z.eqb_neq in E0; split.
      * intros m; split.
        -- intros H; inversion H; subst m.
           destruct H3 as [H3 | H3]; [congruence |].
           repeat split; [lia | exact H3 | exact H2].
        -- intros (Hpos & (e & Hin & He) & Hmax); f_equal.
           destruct H3 as [H3 | (e' & Hin' & He')]; [congruence |].
           specialize (H2 e Hin); specialize (Hmax e' Hin'); lia.
      * split; [discriminate |].
        intros Hall; destruct H3 as [H3 | (e' & Hin' & He')]; [congruence |].
        specialize (Hall e' Hin'); lia.
Qed.

(* ================================================================== *)
(** ** One hour later *)

Lemma time_decomposition t :
  t = MakeDate (Day t) (MakeTime (HourFromTime t) (MinFromTime t) (SecFromTime t)
                                 (msFromTime t)).
Proof.
  unfold MakeDate, MakeTime, Day, HourFromTime, MinFromTime, SecFromTime, msFromTime,
    msPerDay, msPerHour, msPerMinute, msPerSecond.
  pose proof (Z.div_mod t 1000 ltac:(lia)).
  pose proof (Z.div_mod (t / 1000) 60 ltac:(lia)).
  pose proof (Z.div_mod (t / 60000) 60 ltac:(lia)).
  pose proof (Z.div_mod (t / 3600000) 24 ltac:(lia)).
  assert (t / 60000 = t / 1000 / 60) by (rewrite Z.div_div by lia; reflexivity).
  assert (t / 3600000 = t / 60000 / 60) by (rewrite Z.div_div by lia; reflexivity).
  assert (t / 86400000 = t / 3600000 / 24) by (rewrite Z.div_div by lia; reflexivity).
  lia.
Qed.

(** [d.setHours(d.getHours() + 1)] moves a valid date one hour of local
    time ahead. *)
Lemma adjusted_one_hour host timestamp :
  adjusted host timestamp =
    match dateParse host timestamp with
    | Some t => TimeClip (UTC host (LocalTime host t + msPerHour))
    | None => None
    end.
Proof.
  unfold adjusted, newDate, setHours, getHours; cbv zeta.
  destruct (dateParse host timestamp) as [t |]; simpl; [| reflexivity].
  f_equal; f_equal.
  pose proof (time_decomposition (LocalTime host t)) as H.
  unfold MakeDate, MakeTime in *; lia.
Qed.

(* ================================================================== *)
(** ** The examples evaluated *)

Example scenario1_summary :
  processCSVData UtcHost.host Plain Examples.scenario1 =
  Normal {| currentData :=
              [ {| ride_name := "Space Mountain"; wait_time := Fin 5;
                   last_update := "15:00"; is_open := true;
                   timestamp := 1738512000000 |} ];
            maxData :=
              [ {| mm_ride_name := "Space Mountain"; max_wait_time := Some (Fin 40);
                   min_wait_time := None; mm_timestamp := 1738497600000 |} ];
            minData :=
              [ {| mm_ride_name := "Space Mountain"; max_wait_time := None;
                   min_wait_time := Some (Fin 5); mm_timestamp := 1738512000000 |} ];
            timeData :=
              [ ("Space Mountain",
                 [ {| time := "10:00"; waitTime := Some (Fin 10); isOpen := true |};
                   {| time := "12:00"; waitTime := Some (Fin 40); isOpen := true |};
                   {| time := "16:00"; waitTime := Some (Fin 5); isOpen := true |} ]) ];
            latestTimestamp := Some 1738512000000 |}.
Proof. vm_compute; reflexivity. Qed.

Example scenario5_latest :
  exists pd, processCSVData UtcHost.host Plain Examples.scenario5 = Normal pd /\
             map last_update (currentData pd) = ["first"].
Proof. eexists; split; vm_compute; reflexivity. Qed.

Example headerOnly_summary :
  processCSVData UtcHost.host Plain Examples.headerOnly =
  Normal {| currentData := []; maxData := []; minData := []; timeData := [];
            latestTimestamp := None |}.
Proof. vm_compute; reflexivity. Qed.

Example twoRides_timeData :
  exists pd, processCSVData UtcHost.host Styled Examples.twoRides = Normal pd /\
    timeData pd =
      [ ("Autopia",
         [ {| time := "10:15"; waitTime := None; isOpen := false |};
           {| time := "15:30"; waitTime := Some (Fin 25); isOpen := true |};
           {| time := "15:30"; waitTime := Some (Fin 35); isOpen := true |} ]);
        ("Orbitron", []) ].
Proof. eexists; split; vm_compute; reflexivity. Qed.


(* ================================================================== *)
(** ** Properties of the aggregation *)

Lemma readings_rows host csvText rs :
  readings host csvText = Normal rs ->
  Forall2 (ReadingOf host) (tl (parseRows csvText)) rs.
Proof.
  apply readAll_Forall; intros row r H.
  apply readRow_Normal in H; destruct H as (_ & H1 & H2 & H3 & H4 & H5 & H6).
  unfold ReadingOf; rewrite <- adjusted_one_hour; auto 10.
Qed.

Lemma readings_one_hour_later host csvText rs :
  SteadyOffset host ->
  readings host csvText = Normal rs ->
  Forall2 (fun row r => currentDate r = oneHourLater host (nth 0 row EmptyString))
          (tl (parseRows csvText)) rs.
Proof.
  intros Hsteady; apply readAll_Forall; intros row r H.
  apply readRow_Normal in H; destruct H as (_ & _ & _ & _ & _ & H5 & _).
  rewrite H5, adjusted_one_hour; unfold oneHourLater.
  destruct (dateParse host (nth 0 row EmptyString)) as [t |]; [| reflexivity].
  rewrite Hsteady; reflexivity.
Qed.

(** C1 (as amended): when [processCSVData] returns, the latest entry of
    every ride not named like a member of [Object.prototype] is made from
    the reading of that ride whose adjusted timestamp is the maximum among
    the readings of the ride; an entry is replaced only by a strictly later
    reading, so among readings at the same instant the first one met stays.
    Every such ride with a reading has exactly one such entry, and no entry
    is stored under an inherited name.  The adjusted timestamp is the source
    timestamp moved one hour of local time ahead: the source timestamp plus
    one hour on a host whose local offset does not change within that
    hour. *)
Theorem latest_entry_is_first_maximum (host : Host) (v : variant) (csvText : string)
    (pd : ProcessedData) :
  processCSVData host v csvText = Normal pd ->
  exists rs,
    readings host csvText = Normal rs /\
    Forall2 (ReadingOf host) (tl (parseRows csvText)) rs /\
    (SteadyOffset host ->
     Forall2 (fun row r => currentDate r = oneHourLater host (nth 0 row EmptyString))
             (tl (parseRows csvText)) rs) /\
    forall k,
      (inherited k = false ->
       ((exists r, In r rs /\ rideKey r = k) <->
        (exists e, In e (currentData pd) /\ ride_name e = k))) /\
      (forall e, In e (currentData pd) -> ride_name e = k ->
                 inherited k = false /\ LatestOf k rs e) /\
      (forall e e', In e (currentData pd) -> In e' (currentData pd) ->
                    ride_name e = k -> ride_name e' = k -> e = e').
Proof.
  intros H.
  destruct (processCSVData_inv _ _ _ _ H) as (rs & acc & Hrs & _ & Hinv & ->).
  exists rs; split; [exact Hrs |]; split; [apply readings_rows; exact Hrs |].
  split; [intros Hsteady; apply readings_one_hour_later; assumption |].
  intros k; exact (summary_latest host v rs acc Hinv k).
Qed.

Lemma latest_entry_is_first_maximum_witness :
  exists pd,
    processCSVData UtcHost.host Plain Examples.scenario5 = Normal pd /\
    exists rs,
      readings UtcHost.host Examples.scenario5 = Normal rs /\
      Forall2 (ReadingOf UtcHost.host) (tl (parseRows Examples.scenario5)) rs /\
      (SteadyOffset UtcHost.host ->
       Forall2 (fun row r =>
                  currentDate r = oneHourLater UtcHost.host (nth 0 row EmptyString))
               (tl (parseRows Examples.scenario5)) rs) /\
      forall k,
        (inherited k = false ->
         ((exists r, In r rs /\ rideKey r = k) <->
          (exists e, In e (currentData pd) /\ ride_name e = k))) /\
        (forall e, In e (currentData pd) -> ride_name e = k ->
                   inherited k = false /\ LatestOf k rs e) /\
        (forall e e', In e (currentData pd) -> In e' (currentData pd) ->
                      ride_name e = k -> ride_name e' = k -> e = e').
Proof.
  eexists; split; [vm_compute; reflexivity |].
  apply (latest_entry_is_first_maximum UtcHost.host Plain); vm_compute; reflexivity.
Defined.

(** The claim as stated fails twice.  A ride named like a method of
    [Object.prototype] has a reading (outside the display window) and no
    latest entry, in both variants.  And on a host that sets its clock back
    at 03:00 local time, the reading stamped 02:30 is stored with the
    timestamp two hours after the source timestamp, not one. *)
Lemma latest_entry_missing_or_two_hours_later :
  (exists pd ps rs,
     processCSVData UtcHost.host Plain Examples.prototypeName = Normal pd /\
     processCSVData UtcHost.host Styled Examples.prototypeName = Normal ps /\
     readings UtcHost.host Examples.prototypeName = Normal rs /\
     map rideKey rs = ["toString"] /\
     currentData pd = [] /\ currentData ps = []) /\
  (exists pd t,
     processCSVData DstHost.host Plain Examples.clockChange = Normal pd /\
     dateParse DstHost.host "2025-10-26T02:30:00" = Some t /\
     map timestamp (currentData pd) = [t + 2 * msPerHour] /\
     t + 2 * msPerHour <> t + msPerHour).
Proof.
  split.
  - do 3 eexists; repeat split; vm_compute; reflexivity.
  - do 2 eexists; split; [vm_compute; reflexivity |]; split; [vm_compute; reflexivity |].
    split; [vm_compute; reflexivity | vm_compute; discriminate].
Qed.

(** C2 (as amended): when [processCSVData] returns, in either variant,
    every peak entry was made from an open reading of its ride, so that a
    ride with no open reading has no peak entry; and a ride whose name is
    not reserved (not the name of a member of [Object.prototype], nor, in
    the styled variant once an open reading of a ride named __proto__ is
    among the readings, the name of a field of a peak entry) has a peak
    entry exactly when it has an open reading; the entry holds the maximum
    wait among the open readings of the ride, with the timestamp of the
    first reading that attains it. *)
Theorem peak_entry_is_first_maximum (host : Host) (v : variant) (csvText : string)
    (pd : ProcessedData) :
  processCSVData host v csvText = Normal pd ->
  exists rs,
    readings host csvText = Normal rs /\
    (forall e, In e (maxData pd) ->
       exists r, In r rs /\ rideKey r = mm_ride_name e /\ isRideOpen r = true /\
                 max_wait_time e = Some (numericWaitTime r) /\
                 currentDate r = Some (mm_timestamp e)) /\
    forall k,
      reservedFor v rs k = false ->
      ((exists r, In r rs /\ rideKey r = k /\ isRideOpen r = true) <->
       (exists e, In e (maxData pd) /\ mm_ride_name e = k)) /\
      (forall e, In e (maxData pd) -> mm_ride_name e = k -> PeakOf k rs e) /\
      (forall e e', In e (maxData pd) -> In e' (maxData pd) ->
                    mm_ride_name e = k -> mm_ride_name e' = k -> e = e').
Proof.
  intros H.
  destruct (processCSVData_inv _ _ _ _ H) as (rs & acc & Hrs & _ & Hinv & ->).
  exists rs; split; [exact Hrs |]; split.
  - intros e He.
    assert (Hg : get (maxWaitTimes acc) (mm_ride_name e) = Some e)
      by (apply (maxData_get host v rs acc Hinv); auto).
    destruct (inv_max_kept _ _ _ _ Hinv _ e Hg) as (w & Hin & Hk & Ho & Hmk).
    apply makeMax_inv in Hmk; destruct Hmk as (Hd & _ & Hm & _).
    exists w; auto.
  - intros k; exact (summary_peak host v rs acc Hinv k).
Qed.

Lemma peak_entry_is_first_maximum_witness :
  exists pd,
    processCSVData UtcHost.host Styled Examples.scenario1 = Normal pd /\
    exists rs,
      readings UtcHost.host Examples.scenario1 = Normal rs /\
      (forall e, In e (maxData pd) ->
         exists r, In r rs /\ rideKey r = mm_ride_name e /\ isRideOpen r = true /\
                   max_wait_time e = Some (numericWaitTime r) /\
                   currentDate r = Some (mm_timestamp e)) /\
      forall k,
        reservedFor Styled rs k = false ->
        ((exists r, In r rs /\ rideKey r = k /\ isRideOpen r = true) <->
         (exists e, In e (maxData pd) /\ mm_ride_name e = k)) /\
        (forall e, In e (maxData pd) -> mm_ride_name e = k -> PeakOf k rs e) /\
        (forall e e', In e (maxData pd) -> In e' (maxData pd) ->
                      mm_ride_name e = k -> mm_ride_name e' = k -> e = e').
Proof.
  eexists; split; [vm_compute; reflexivity |].
  apply (peak_entry_is_first_maximum UtcHost.host Styled); vm_compute; reflexivity.
Defined.

(** The claim as stated fails under reserved names.  An open reading of a
    ride named like a method of [Object.prototype], outside the display
    window, leaves no peak entry in the plain variant, nor in the styled
    one when its wait is 0.  In the styled variant an open reading of a ride
    named __proto__ makes its entry the prototype of the peaks; an open
    reading with wait 0 of a ride named timestamp then leaves no peak entry
    either, while the plain variant stores one. *)
Lemma open_reading_without_peak_entry :
  (exists pd rs,
     processCSVData UtcHost.host Plain Examples.prototypeName = Normal pd /\
     readings UtcHost.host Examples.prototypeName = Normal rs /\
     map (fun r => (rideKey r, isRideOpen r)) rs = [("toString", true)] /\
     maxData pd = []) /\
  (exists pd rs,
     processCSVData UtcHost.host Styled Examples.prototypeNameZero = Normal pd /\
     readings UtcHost.host Examples.prototypeNameZero = Normal rs /\
     map (fun r => (rideKey r, isRideOpen r)) rs = [("toString", true)] /\
     maxData pd = []) /\
  (exists pd ps rs,
     processCSVData UtcHost.host Styled Examples.protoThenField = Normal ps /\
     processCSVData UtcHost.host Plain Examples.protoThenField = Normal pd /\
     readings UtcHost.host Examples.protoThenField = Normal rs /\
     map (fun r => (rideKey r, isRideOpen r)) rs = [("__proto__", true); ("timestamp", true)] /\
     maxData ps = [] /\
     map (fun e => (mm_ride_name e, max_wait_time e)) (maxData pd) =
       [("timestamp", Some (Fin 0))]).
Proof.
  split; [| split].
  - do 2 eexists; repeat split; vm_compute; reflexivity.
  - do 2 eexists; repeat split; vm_compute; reflexivity.
  - do 3 eexists; repeat split; vm_compute; reflexivity.
Qed.

(** X22: the plain variant keeps the trough the specification describes: a
    ride has a trough entry exactly when it has an open reading inside the
    window, and the entry holds the minimum wait among those readings. *)
Lemma plain_trough_is_first_minimum (host : Host) (csvText : string) (pd : ProcessedData) :
  processCSVData host Plain csvText = Normal pd ->
  exists rs,
    readings host csvText = Normal rs /\
    forall k,
      ((exists r, In r rs /\ rideKey r = k /\
                  isRideOpen r = true /\ hourWithin 10 18 (currentHour r) = true) <->
       (exists e, In e (minData pd) /\ mm_ride_name e = k)) /\
      (forall e, In e (minData pd) -> mm_ride_name e = k -> TroughOf k rs e).
Proof.
  intros H.
  destruct (processCSVData_inv _ _ _ _ H) as (rs & acc & Hrs & _ & Hinv & ->).
  exists rs; split; [exact Hrs |].
  intros k; exact (summary_trough host Plain rs acc Hinv k eq_refl).
Qed.

(** C3: in the styled variant a stored minimum of 0 is taken for a missing
    one: after an open reading with wait 0 at 11:00, the open reading with
    wait 30 at 12:00 replaces it, and the trough entry holds 30 although the
    minimum over the open readings inside the window is 0.  The plain
    variant holds 0 on the same input. *)
Theorem styled_trough_loses_zero_minimum :
  (exists pd, processCSVData UtcHost.host Styled Examples.zeroTrough = Normal pd /\
              map min_wait_time (minData pd) = [Some (Fin 30)]) /\
  (exists pd, processCSVData UtcHost.host Plain Examples.zeroTrough = Normal pd /\
              map min_wait_time (minData pd) = [Some (Fin 0)]) /\
  (exists rs, readings UtcHost.host Examples.zeroTrough = Normal rs /\
              map (fun r => (numericWaitTime r, isRideOpen r, currentHour r)) rs =
                [ (Fin 0, true, Some 11); (Fin 30, true, Some 12) ]).
Proof.
  repeat split; eexists; split; vm_compute; reflexivity.
Qed.

(** C4: the two variants return different summaries on an input with an
    open reading of wait 0 inside the trough window followed by one of
    wait 30. *)
Theorem variants_differ_on_zero_trough :
  processCSVData UtcHost.host Plain Examples.zeroTrough <>
  processCSVData UtcHost.host Styled Examples.zeroTrough.
Proof. vm_compute; discriminate. Qed.

(** C5 (as amended): [processCSVData] returns a summary for every input
    text whose data rows all have at least five fields, a timestamp that is
    a valid date once moved one hour ahead, and a ride name that is not the
    name of a member of [Object.prototype]. *)
Theorem processCSVData_returns_on_well_formed_rows (host : Host) (v : variant)
    (csvText : string) :
  Forall (wellFormedRow host) (tl (parseRows csvText)) ->
  exists pd, processCSVData host v csvText = Normal pd.
Proof.
  intros H; unfold processCSVData; cbv zeta.
  destruct (forEach_total host v _ emptyAcc H) as [acc ->].
  cbn [bind]; eauto.
Qed.

Lemma processCSVData_returns_on_well_formed_rows_witness :
  Forall (wellFormedRow UtcHost.host) (tl (parseRows Examples.scenario1)) /\
  exists pd, processCSVData UtcHost.host Plain Examples.scenario1 = Normal pd.
Proof.
  assert (H : Forall (wellFormedRow UtcHost.host) (tl (parseRows Examples.scenario1))).
  { let rows := eval vm_compute in (tl (parseRows Examples.scenario1)) in
    change (Forall (wellFormedRow UtcHost.host) rows).
    repeat (apply Forall_cons;
            [split; [simpl; lia | split; [reflexivity | vm_compute; discriminate]] |]).
    apply Forall_nil. }
  split; [exact H |].
  exact (processCSVData_returns_on_well_formed_rows UtcHost.host Plain Examples.scenario1 H).
Defined.

(** C5, as stated, fails: a blank line between the header and a data row
    is a row of one field, on which the callback throws a TypeError; the
    pass is aborted in both variants. *)
Lemma blank_line_throws :
  processCSVData UtcHost.host Plain Examples.blankLine = Throw TypeError /\
  processCSVData UtcHost.host Styled Examples.blankLine = Throw TypeError /\
  ~ (forall csvText, exists pd, processCSVData UtcHost.host Plain csvText = Normal pd).
Proof.
  assert (H : processCSVData UtcHost.host Plain Examples.blankLine = Throw TypeError)
    by (vm_compute; reflexivity).
  split; [exact H |]; split; [vm_compute; reflexivity |].
  intros Hall; destruct (Hall Examples.blankLine) as [pd Hpd]; congruence.
Qed.

(** C6 (as amended): a row whose timestamp is not a date never changes a
    latest, peak or trough entry and adds no point to a series.  It is
    passed over (only creating the empty series of its ride where the read
    of the series finds nothing) when the read of the latest entries under
    its ride name finds a value (a stored entry, or an inherited member for
    a ride named like a member of [Object.prototype]) and the row is closed
    or fails the guard on the peak; in every other case (nothing is found
    for its ride in the latest entries, or it is open and passes the guard
    on the peak) the callback throws a RangeError. *)
Theorem invalid_timestamp_row (host : Host) (v : variant) (acc : Acc)
    (tsField nameField waitField updField openField : string) (rest : list string) :
  dateParse host tsField = None ->
  processRow host v acc (tsField :: nameField :: waitField :: updField :: openField :: rest) =
    if present (read (latestEntries acc) (trim nameField))
       && (negb (String.eqb (toLowerCase openField) "true")
           || negb (missingOr (lookup entryFields (maxProto acc) (maxWaitTimes acc)
                                      (trim nameField))
                              (exceedsMax v (waitOf waitField))
                              (exceedsForeign v (waitOf waitField))))
    then Normal (passedOver acc (trim nameField))
    else Throw RangeError.
Proof.
  intros Hdate.
  unfold processRow, readRow; cbn [bind].
  unfold newDate; rewrite Hdate; cbn [getHours setHours option_map].
  unfold step; cbv zeta;
    cbn [rideKey numericWaitTime lastUpdate isRideOpen currentDate currentHour
         hourBetween hourWithin bind toISOString time_gtb].
  fold (waitOf waitField).
  destruct (read (latestEntries acc) (trim nameField)) as [e | |];
    cbn [missingOr present bind andb]; [| | reflexivity].
  - destruct (String.eqb (toLowerCase openField) "true"); cbn [negb orb]; [| reflexivity].
    destruct (missingOr _ _ _); reflexivity.
  - destruct (String.eqb (toLowerCase openField) "true"); cbn [negb orb]; [| reflexivity].
    destruct (missingOr _ _ _); reflexivity.
Qed.

Lemma invalid_timestamp_row_witness :
  dateParse UtcHost.host "yesterday" = None /\
  processRow UtcHost.host Plain emptyAcc ["yesterday"; "Space Mountain"; "10"; "9:00"; "false"] =
    Throw RangeError.
Proof.
  split; [reflexivity |].
  exact (invalid_timestamp_row UtcHost.host Plain emptyAcc
           "yesterday" "Space Mountain" "10" "9:00" "false" [] eq_refl).
Defined.

(** C6, as stated, fails: a first row whose timestamp is not a date aborts
    the pass with a RangeError. *)
Lemma invalid_timestamp_throws :
  dateParse UtcHost.host "yesterday" = None /\
  processCSVData UtcHost.host Plain Examples.badTimestamp = Throw RangeError /\
  processCSVData UtcHost.host Styled Examples.badTimestamp = Throw RangeError.
Proof. repeat split; vm_compute; reflexivity. Qed.


Lemma existsb_ofRide k rs :
  existsb (ofRide k) rs = true <-> exists r, In r rs /\ rideKey r = k.
Proof.
  rewrite existsb_exists; unfold ofRide; split; intros (r & Hin & Hk); exists r;
    (split; [exact Hin |]); [apply String.eqb_eq | apply String.eqb_eq]; exact Hk.
Qed.

(** The series the summary holds for a ride. *)
Lemma timeData_get host v rs acc k :
  AccInv host v rs acc ->
  get (timeData (assemble host acc)) k =
    if negb (inherited k) && existsb (ofRide k) rs
    then Some (sort host (series host k rs)) else None.
Proof.
  intros Hinv; unfold assemble; cbv zeta; cbn [timeData].
  rewrite get_sorted, (inv_time _ _ _ _ Hinv k).
  destruct (negb (inherited k) && existsb (ofRide k) rs); reflexivity.
Qed.



(** No reading of the ride has a date after that of the latest entry. *)
Lemma LatestOf_bound k rs e r t :
  LatestOf k rs e -> In r rs -> rideKey r = k -> currentDate r = Some t ->
  t <= timestamp e.
Proof.
  intros (before & w & after & -> & Hk & _ & Hd & _ & _ & _ & Hb & Ha) Hin Hr Ht.
  apply in_app_iff in Hin; destruct Hin as [Hin | [<- | Hin]].
  - specialize (Hb r t Hin Hr Ht); lia.
  - rewrite Hd in Ht; inversion Ht; lia.
  - exact (Ha r t Hin Hr Ht).
Qed.

(** C8 (as amended): when [processCSVData] returns, every latest entry
    carries the date of a reading of a ride not named like a member of
    [Object.prototype], and the date of every such reading is at most that
    of a latest entry.  Whenever such a reading lies after the epoch, the
    global latest timestamp is present and is the maximum timestamp over
    the latest entries.  There is no latest entry exactly when every
    reading names its ride like a member of [Object.prototype], which
    includes the input without readings; the global latest timestamp is
    then absent. *)
Theorem latestTimestamp_is_maximum_after_epoch (host : Host) (v : variant)
    (csvText : string) (pd : ProcessedData) :
  processCSVData host v csvText = Normal pd ->
  exists rs,
    readings host csvText = Normal rs /\
    (forall m, latestTimestamp pd = Some m <->
               0 < m /\ (exists e, In e (currentData pd) /\ timestamp e = m) /\
               (forall e, In e (currentData pd) -> timestamp e <= m)) /\
    (forall e, In e (currentData pd) ->
       exists r, In r rs /\ inherited (rideKey r) = false /\
                 currentDate r = Some (timestamp e)) /\
    (forall r t, In r rs -> inherited (rideKey r) = false -> currentDate r = Some t ->
       exists e, In e (currentData pd) /\ t <= timestamp e) /\
    (forall r t, In r rs -> inherited (rideKey r) = false -> currentDate r = Some t ->
       0 < t -> exists m, latestTimestamp pd = Some m /\ t <= m) /\
    (currentData pd = [] <-> forall r, In r rs -> inherited (rideKey r) = true) /\
    ((forall r, In r rs -> inherited (rideKey r) = true) -> latestTimestamp pd = None).
Proof.
  intros H.
  destruct (processCSVData_inv _ _ _ _ H) as (rs & acc & Hrs & _ & Hinv & ->).
  exists rs; split; [exact Hrs |].
  destruct (latestTimestamp_spec host acc) as [HSome HNone].
  assert (Hfrom : forall e, In e (currentData (assemble host acc)) ->
            exists r, In r rs /\ inherited (rideKey r) = false /\
                      currentDate r = Some (timestamp e)).
  { intros e Hin.
    destruct (summary_latest host v rs acc Hinv (ride_name e)) as (_ & Hl & _).
    destruct (Hl e Hin eq_refl) as (Hinh & before & w & after & -> & Hk & _ & Hd & _).
    exists w; split; [apply in_app_iff; right; left; reflexivity |].
    split; [rewrite Hk; exact Hinh | exact Hd]. }
  assert (Hto : forall r t, In r rs -> inherited (rideKey r) = false ->
            currentDate r = Some t ->
            exists e, In e (currentData (assemble host acc)) /\ t <= timestamp e).
  { intros r t Hin Hinh Ht.
    destruct (summary_latest host v rs acc Hinv (rideKey r)) as (Hex & Hl & _).
    destruct (proj1 (Hex Hinh)) as (e & He & Hn); [exists r; auto |].
    exists e; split; [exact He |].
    destruct (Hl e He Hn) as (_ & HL).
    exact (LatestOf_bound _ _ _ r t HL Hin eq_refl Ht). }
  assert (Hempty : currentData (assemble host acc) = [] <->
                   forall r, In r rs -> inherited (rideKey r) = true).
  { split.
    - intros Hnil r Hin; destruct (inherited (rideKey r)) eqn:Hinh; [reflexivity | exfalso].
      destruct (summary_latest host v rs acc Hinv (rideKey r)) as (Hex & _ & _).
      destruct (proj1 (Hex Hinh)) as (e & He & _); [exists r; auto |].
      rewrite Hnil in He; destruct He.
    - intros Hall.
      destruct (currentData (assemble host acc)) as [| e cd] eqn:Ecd; [reflexivity | exfalso].
      destruct (Hfrom e) as (r & Hin & Hinh & _); [left; reflexivity |].
      rewrite (Hall r Hin) in Hinh; discriminate. }
  split; [exact HSome |]; split; [exact Hfrom |]; split; [exact Hto |].
  split; [| split; [exact Hempty |]].
  - intros r t Hin Hinh Ht Hpos.
    destruct (Hto r t Hin Hinh Ht) as (e & He & Hle).
    destruct (latestTimestamp (assemble host acc)) as [m |] eqn:Em.
    + exists m; split; [reflexivity |].
      destruct (proj1 (HSome m) eq_refl) as (_ & _ & Hmax).
      specialize (Hmax e He); lia.
    + exfalso; pose proof (proj1 HNone eq_refl e He); lia.
  - intros Hall; apply HNone; apply Hempty in Hall; rewrite Hall; intros e [].
Qed.

Lemma latestTimestamp_is_maximum_after_epoch_witness :
  exists pd,
    processCSVData UtcHost.host Plain Examples.scenario1 = Normal pd /\
    exists rs,
      readings UtcHost.host Examples.scenario1 = Normal rs /\
      (forall m, latestTimestamp pd = Some m <->
                 0 < m /\ (exists e, In e (currentData pd) /\ timestamp e = m) /\
                 (forall e, In e (currentData pd) -> timestamp e <= m)) /\
      (forall e, In e (currentData pd) ->
         exists r, In r rs /\ inherited (rideKey r) = false /\
                   currentDate r = Some (timestamp e)) /\
      (forall r t, In r rs -> inherited (rideKey r) = false -> currentDate r = Some t ->
         exists e, In e (currentData pd) /\ t <= timestamp e) /\
      (forall r t, In r rs -> inherited (rideKey r) = false -> currentDate r = Some t ->
         0 < t -> exists m, latestTimestamp pd = Some m /\ t <= m) /\
      (currentData pd = [] <-> forall r, In r rs -> inherited (rideKey r) = true) /\
      ((forall r, In r rs -> inherited (rideKey r) = true) -> latestTimestamp pd = None).
Proof.
  eexists; split; [vm_compute; reflexivity |].
  apply (latestTimestamp_is_maximum_after_epoch UtcHost.host Plain); vm_compute; reflexivity.
Defined.

(** C8, as stated, fails: for a single reading of the year 1969 the summary
    has a latest entry, with a negative time value, and no global latest
    timestamp; and for a single reading, of the year 2025, of a ride named
    like a method of [Object.prototype] the summary has no latest entry and
    no global latest timestamp. *)
Lemma latestTimestamp_absent_before_epoch :
  (exists pd rs,
     processCSVData UtcHost.host Plain Examples.beforeEpoch = Normal pd /\
     readings UtcHost.host Examples.beforeEpoch = Normal rs /\
     List.length rs = 1%nat /\
     map timestamp (currentData pd) = [-14209200000] /\
     latestTimestamp pd = None) /\
  (exists pd rs,
     processCSVData UtcHost.host Plain Examples.prototypeName = Normal pd /\
     readings UtcHost.host Examples.prototypeName = Normal rs /\
     map (fun r => (rideKey r, currentDate r)) rs = [("toString", Some 1738533600000)] /\
     currentData pd = [] /\
     latestTimestamp pd = None).
Proof. split; do 2 eexists; repeat split; vm_compute; reflexivity. Qed.

Example waitOf_examples :
  waitOf "35" = Fin 35 /\ waitOf " 42 min" = Fin 42 /\ waitOf "abc" = Fin 0 /\
  waitOf EmptyString = Fin 0 /\ waitOf "-5" = Fin (-5) /\ waitOf "+7" = Fin 7 /\
  waitOf "9007199254740993" = Fin 9007199254740992.
Proof. repeat split; vm_compute; reflexivity. Qed.

Lemma trimStart_space a s : allWhiteSpace a = true -> trimStart (a ++ s) = trimStart s.
Proof.
  induction a as [| c a IH]; simpl; [reflexivity |].
  intros H; apply andb_true_iff in H; destruct H as [-> H]; auto.
Qed.

Lemma trimStart_fixed s : startsWithout isWhiteSpace s = true -> trimStart s = s.
Proof.
  destruct s as [| c s]; simpl; [reflexivity |].
  intros H; apply negb_true_iff in H; rewrite H; reflexivity.
Qed.

Lemma readDigits_app ds rest : forall acc n,
  allDigits ds = true -> startsWithout isDigit rest = true ->
  readDigits acc n (ds ++ rest) = readDigits acc n ds.
Proof.
  induction ds as [| c ds IH]; intros acc n Hds Hrest.
  - destruct rest as [| c r]; [reflexivity |].
    cbn [append readDigits]; simpl in Hrest; apply negb_true_iff in Hrest.
    rewrite Hrest; reflexivity.
  - simpl in Hds; apply andb_true_iff in Hds; destruct Hds as [Hc Hds].
    cbn [append readDigits]; rewrite Hc; apply IH; assumption.
Qed.

Lemma readDigits_some ds :
  allDigits ds = true -> ds <> EmptyString ->
  exists n, readDigits 0 O ds = (digitsValue ds, S n) /\ 0 <= digitsValue ds.
Proof.
  intros Hds Hne; unfold digitsValue.
  pose proof (readDigits_nonneg ds 0 O ltac:(lia)) as Hv.
  destruct ds as [| c ds]; [congruence |].
  simpl in Hds; apply andb_true_iff in Hds; destruct Hds as [Hc _].
  pose proof (readDigits_count ds (10 * 0 + digitValue c) 1) as Hn.
  cbn [readDigits] in *; rewrite Hc in *.
  destruct (readDigits (10 * 0 + digitValue c) 1 ds) as [x n] eqn:E.
  cbn [fst snd] in *; destruct n as [| n]; [lia |].
  exists n; auto.
Qed.

Lemma orElse_Fin z : orElse (Some (Fin z)) (Fin 0) = Fin z.
Proof. destruct z; reflexivity. Qed.

(** A field made of white space, an optional sign, a run of digits and a
    rest that does not go on with a digit is read as the integer the digits
    denote, negated after a minus sign. *)
Lemma waitOf_leading_integer ws ds rest :
  allWhiteSpace ws = true -> allDigits ds = true -> ds <> EmptyString ->
  startsWithout isDigit rest = true -> digitsValue ds < 2 ^ 53 ->
  waitOf (ws ++ ds ++ rest) = Fin (digitsValue ds) /\
  waitOf (ws ++ "+" ++ ds ++ rest) = Fin (digitsValue ds) /\
  waitOf (ws ++ "-" ++ ds ++ rest) = Fin (- digitsValue ds).
Proof.
  intros Hws Hds Hne Hrest Hlt.
  destruct (readDigits_some ds Hds Hne) as (n & Hread & Hpos).
  assert (Hround : roundToDouble (digitsValue ds) = Fin (digitsValue ds) /\
                   roundToDouble (- digitsValue ds) = Fin (- digitsValue ds))
    by (split; apply roundToDouble_exact; lia).
  destruct Hround as [Hr1 Hr2].
  unfold waitOf, parseInt10; rewrite !(trimStart_space ws _ Hws).
  split; [| split].
  - destruct ds as [| c ds']; [congruence |].
    pose proof Hds as Hds'; simpl in Hds'; apply andb_true_iff in Hds'; destruct Hds' as [Hc _].
    change ((String c ds' ++ rest)%string) with (String c (ds' ++ rest)%string).
    cbn [trimStart]; rewrite (isDigit_not_space c Hc).
    destruct (isDigit_not_sign c Hc) as [-> ->].
    change (String c (ds' ++ rest)%string) with ((String c ds' ++ rest)%string).
    rewrite (readDigits_app _ _ 0 O Hds Hrest), Hread, Hr1; apply orElse_Fin.
  - change (("+" ++ ds ++ rest)%string) with (String "+"%char (ds ++ rest)%string).
    cbn [trimStart]; change (isWhiteSpace "+"%char) with false; cbv iota.
    change (Ascii.eqb "+"%char "-"%char) with false;
      change (Ascii.eqb "+"%char "+"%char) with true; cbv iota.
    rewrite (readDigits_app _ _ 0 O Hds Hrest), Hread, Hr1; apply orElse_Fin.
  - change (("-" ++ ds ++ rest)%string) with (String "-"%char (ds ++ rest)%string).
    cbn [trimStart]; change (isWhiteSpace "-"%char) with false; cbv iota.
    change (Ascii.eqb "-"%char "-"%char) with true; cbv iota.
    rewrite (readDigits_app _ _ 0 O Hds Hrest), Hread, Hr2; apply orElse_Fin.
Qed.

Lemma readDigits_none rest :
  startsWithout isDigit rest = true -> readDigits 0 O rest = (0, O).
Proof.
  destruct rest as [| c r]; [reflexivity |]; simpl; intros H.
  apply negb_true_iff in H; rewrite H; reflexivity.
Qed.

(** A field in which no digit follows the white space and the optional
    sign is read as 0. *)
Lemma waitOf_no_integer ws rest :
  allWhiteSpace ws = true ->
  (startsWithout numeric rest = true -> waitOf (ws ++ rest) = Fin 0) /\
  (startsWithout isDigit rest = true ->
   waitOf (ws ++ "+" ++ rest) = Fin 0 /\ waitOf (ws ++ "-" ++ rest) = Fin 0).
Proof.
  intros Hws; unfold waitOf, parseInt10; rewrite !(trimStart_space ws _ Hws); split.
  - intros H; destruct rest as [| c r]; [reflexivity |].
    simpl in H; apply negb_true_iff in H; unfold numeric in H.
    apply orb_false_iff in H; destruct H as [H Hm].
    apply orb_false_iff in H; destruct H as [H Hp].
    apply orb_false_iff in H; destruct H as [Hw Hd].
    cbn [trimStart]; rewrite Hw, Hm, Hp; cbn [readDigits]; rewrite Hd; reflexivity.
  - intros H; split.
    + change (("+" ++ rest)%string) with (String "+"%char rest).
      cbn [trimStart]; change (isWhiteSpace "+"%char) with false; cbv iota.
      change (Ascii.eqb "+"%char "-"%char) with false;
        change (Ascii.eqb "+"%char "+"%char) with true; cbv iota.
      rewrite (readDigits_none rest H); reflexivity.
    + change (("-" ++ rest)%string) with (String "-"%char rest).
      cbn [trimStart]; change (isWhiteSpace "-"%char) with false; cbv iota.
      change (Ascii.eqb "-"%char "-"%char) with true; cbv iota.
      rewrite (readDigits_none rest H); reflexivity.
Qed.

(** C9 (as amended): a row of five fields is never rejected for its wait
    field.  When the field is made of white space, an optional sign, a run
    of digits denoting an integer below 2^53 and a rest that does not go on
    with a digit, the wait is that integer, negated after a minus sign;
    when no digit follows the white space and the optional sign, the wait
    is 0.  The wait is not negative unless the field starts, after white
    space, with a minus sign. *)
Theorem wait_is_leading_integer_or_zero (host : Host)
    (tsField nameField waitField updField openField : string) (rest : list string) :
  exists r,
    readRow host (tsField :: nameField :: waitField :: updField :: openField :: rest)
      = Normal r /\
    numericWaitTime r = waitOf waitField /\
    (forall ws ds tail,
       allWhiteSpace ws = true -> allDigits ds = true -> ds <> EmptyString ->
       startsWithout isDigit tail = true -> digitsValue ds < 2 ^ 53 ->
       (waitField = (ws ++ ds ++ tail)%string \/ waitField = (ws ++ "+" ++ ds ++ tail)%string ->
        numericWaitTime r = Fin (digitsValue ds)) /\
       (waitField = (ws ++ "-" ++ ds ++ tail)%string ->
        numericWaitTime r = Fin (- digitsValue ds))) /\
    (forall ws tail,
       allWhiteSpace ws = true ->
       (waitField = (ws ++ tail)%string /\ startsWithout numeric tail = true) \/
       ((waitField = (ws ++ "+" ++ tail)%string \/ waitField = (ws ++ "-" ++ tail)%string) /\
        startsWithout isDigit tail = true) ->
       numericWaitTime r = Fin 0) /\
    (parseInt10 waitField = None -> numericWaitTime r = Fin 0) /\
    ((forall s, trimStart waitField <> String "-"%char s) ->
     num_leb (Fin 0) (numericWaitTime r) = true) /\
    (allDigits waitField = true -> waitField <> EmptyString ->
     fst (readDigits 0 O waitField) < 2 ^ 53 ->
     numericWaitTime r = Fin (fst (readDigits 0 O waitField))).
Proof.
  destruct (readRow_total host
              (tsField :: nameField :: waitField :: updField :: openField :: rest))
    as [r Hr]; [simpl; lia |].
  exists r; split; [exact Hr |].
  apply readRow_Normal in Hr; destruct Hr as (_ & _ & Hw & _).
  cbn [nth] in Hw; fold (waitOf waitField) in Hw; rewrite Hw.
  split; [reflexivity |]; split; [| split; [| split; [| split]]].
  - intros ws ds tail Hws Hds Hne Htail Hlt.
    destruct (waitOf_leading_integer ws ds tail Hws Hds Hne Htail Hlt) as (H1 & H2 & H3).
    split; [intros [-> | ->]; assumption | intros ->; assumption].
  - intros ws tail Hws.
    destruct (waitOf_no_integer ws tail Hws) as (H1 & H2).
    intros [[-> Ht] | [[-> | ->] Ht]]; [apply H1 | apply H2 | apply H2]; exact Ht.
  - intros Hp; unfold waitOf; rewrite Hp; reflexivity.
  - apply waitOf_nonneg.
  - apply waitOf_digits.
Qed.

Lemma wait_is_leading_integer_or_zero_witness :
  exists r,
    readRow UtcHost.host ["2025-02-02T09:00:00"; "Space Mountain"; " -5 min"; "9:00"; "true"]
      = Normal r /\
    numericWaitTime r = waitOf " -5 min" /\
    (forall ws ds tail,
       allWhiteSpace ws = true -> allDigits ds = true -> ds <> EmptyString ->
       startsWithout isDigit tail = true -> digitsValue ds < 2 ^ 53 ->
       (" -5 min" = (ws ++ ds ++ tail)%string \/ " -5 min" = (ws ++ "+" ++ ds ++ tail)%string ->
        numericWaitTime r = Fin (digitsValue ds)) /\
       (" -5 min" = (ws ++ "-" ++ ds ++ tail)%string ->
        numericWaitTime r = Fin (- digitsValue ds))) /\
    (forall ws tail,
       allWhiteSpace ws = true ->
       (" -5 min" = (ws ++ tail)%string /\ startsWithout numeric tail = true) \/
       ((" -5 min" = (ws ++ "+" ++ tail)%string \/ " -5 min" = (ws ++ "-" ++ tail)%string) /\
        startsWithout isDigit tail = true) ->
       numericWaitTime r = Fin 0) /\
    (parseInt10 " -5 min" = None -> numericWaitTime r = Fin 0) /\
    ((forall s, trimStart " -5 min" <> String "-"%char s) ->
     num_leb (Fin 0) (numericWaitTime r) = true) /\
    (allDigits " -5 min" = true -> " -5 min" <> EmptyString ->
     fst (readDigits 0 O " -5 min") < 2 ^ 53 ->
     numericWaitTime r = Fin (fst (readDigits 0 O " -5 min"))).
Proof.
  exact (wait_is_leading_integer_or_zero UtcHost.host
           "2025-02-02T09:00:00" "Space Mountain" " -5 min" "9:00" "true" []).
Defined.

(** C9, as stated, fails: a wait field with a minus sign gives a negative
    wait, which enters the accumulators. *)
Lemma negative_wait_is_kept :
  exists pd,
    processCSVData UtcHost.host Plain Examples.negativeWait = Normal pd /\
    map wait_time (currentData pd) = [Fin (-5)] /\
    map max_wait_time (maxData pd) = [Some (Fin (-5))] /\
    num_ltb (Fin (-5)) (Fin 0) = true.
Proof. eexists; repeat split; vm_compute; reflexivity. Qed.

Lemma series_outside host k rs :
  (forall r, In r rs -> rideKey r = k -> inDisplayWindow r = false) ->
  series host k rs = [].
Proof.
  unfold series; induction rs as [| r rs IH]; simpl; intros H; [reflexivity |].
  destruct (ofRide k r) eqn:Ek; simpl.
  - rewrite (H r); [apply IH; auto | auto | apply String.eqb_eq; exact Ek].
  - apply IH; auto.
Qed.

(** C10 (as amended): when [processCSVData] returns, the rides that have a
    series are the rides that have a latest entry, which are the rides that
    have a reading and are not named like a member of [Object.prototype];
    such a ride none of whose readings falls in the display window has the
    empty series. *)
Theorem series_keys_are_latest_keys (host : Host) (v : variant) (csvText : string)
    (pd : ProcessedData) :
  processCSVData host v csvText = Normal pd ->
  exists rs,
    readings host csvText = Normal rs /\
    forall k,
      ((exists s, get (timeData pd) k = Some s) <->
       (exists e, In e (currentData pd) /\ ride_name e = k)) /\
      ((exists s, get (timeData pd) k = Some s) <->
       inherited k = false /\ (exists r, In r rs /\ rideKey r = k)) /\
      (inherited k = false ->
       (exists r, In r rs /\ rideKey r = k) ->
       (forall r, In r rs -> rideKey r = k -> inDisplayWindow r = false) ->
       get (timeData pd) k = Some []).
Proof.
  intros H.
  destruct (processCSVData_inv _ _ _ _ H) as (rs & acc & Hrs & _ & Hinv & ->).
  exists rs; split; [exact Hrs |].
  intros k.
  destruct (summary_latest host v rs acc Hinv k) as (Hlatest & Hord & _).
  pose proof (timeData_get host v rs acc k Hinv) as Hget.
  assert (Hkeys : (exists s, get (timeData (assemble host acc)) k = Some s) <->
                  inherited k = false /\ (exists r, In r rs /\ rideKey r = k)).
  { rewrite <- existsb_ofRide, Hget.
    destruct (inherited k), (existsb (ofRide k) rs); cbn [negb andb];
      split; intros Hx; eauto; try discriminate;
      try (destruct Hx; discriminate). }
  split; [| split; [exact Hkeys |]].
  - rewrite Hkeys; split.
    + intros [Hinh Hex]; apply Hlatest; assumption.
    + intros (e & Hin & Hn); destruct (Hord e Hin Hn) as [Hinh _].
      split; [exact Hinh |]; apply Hlatest; eauto.
  - intros Hinh Hex Hout; rewrite Hget.
    apply existsb_ofRide in Hex; rewrite Hinh, Hex, (series_outside host k rs Hout); reflexivity.
Qed.

Lemma series_keys_are_latest_keys_witness :
  exists pd,
    processCSVData UtcHost.host Plain Examples.twoRides = Normal pd /\
    exists rs,
      readings UtcHost.host Examples.twoRides = Normal rs /\
      forall k,
        ((exists s, get (timeData pd) k = Some s) <->
         (exists e, In e (currentData pd) /\ ride_name e = k)) /\
        ((exists s, get (timeData pd) k = Some s) <->
         inherited k = false /\ (exists r, In r rs /\ rideKey r = k)) /\
        (inherited k = false ->
         (exists r, In r rs /\ rideKey r = k) ->
         (forall r, In r rs -> rideKey r = k -> inDisplayWindow r = false) ->
         get (timeData pd) k = Some []).
Proof.
  eexists; split; [vm_compute; reflexivity |].
  apply (series_keys_are_latest_keys UtcHost.host Plain); vm_compute; reflexivity.
Defined.

(** C10, as stated, fails: a ride named like a method of [Object.prototype]
    appears in a data row, outside the display window, and the returned
    mapping has no series for it, in both variants; inside the display
    window the same row aborts the pass with a TypeError. *)
Lemma ride_in_a_row_without_series :
  (exists pd ps rs,
     processCSVData UtcHost.host Plain Examples.prototypeName = Normal pd /\
     processCSVData UtcHost.host Styled Examples.prototypeName = Normal ps /\
     readings UtcHost.host Examples.prototypeName = Normal rs /\
     map rideKey rs = ["toString"] /\
     timeData pd = [] /\ timeData ps = [] /\
     get (timeData pd) "toString" = None) /\
  processCSVData UtcHost.host Plain Examples.prototypeNameInWindow = Throw TypeError /\
  processCSVData UtcHost.host Styled Examples.prototypeNameInWindow = Throw TypeError.
Proof.
  split; [do 3 eexists; repeat split; vm_compute; reflexivity |].
  split; vm_compute; reflexivity.
Qed.

(* ================================================================== *)
(** ** Where the two variants agree *)

Section Variants.

Variable host : Host.

Lemma exceedsMax_agree o k n :
  MaxStored o ->
  absentOr o k (exceedsMax Plain n) = absentOr o k (exceedsMax Styled n).
Proof.
  intros Hst; apply absentOr_ext; intros e He; specialize (Hst k e He).
  unfold exceedsMax; destruct (max_wait_time e) as [m |]; [| congruence].
  simpl lt_undef; symmetry; apply orElse_zero_gtb.
Qed.

Lemma MaxStored_set o k e :
  MaxStored o -> max_wait_time e <> None -> MaxStored (set o k e).
Proof.
  intros Hst He k' e'; rewrite get_set.
  destruct (String.eqb k k'); [intros H; inversion H; subst; exact He | apply Hst].
Qed.

Lemma trough_update_returns v (o : obj RideMaxMinData) r :
  currentHour r = getHours host (currentDate r) ->
  exists o',
    (if hourWithin 10 18 (currentHour r) then
       if absentOr o (rideKey r) (belowMin v (numericWaitTime r)) then
         iso <- toISOString (currentDate r) ;;
         Normal (@None RideMaxMinData,
                 set o (rideKey r)
                   {| mm_ride_name := rideKey r;
                      max_wait_time := None;
                      min_wait_time := Some (numericWaitTime r);
                      mm_timestamp := iso |})
       else Normal (None, o)
     else Normal (None, o)) = Normal (None, o').
Proof.
  intros Hh; rewrite Hh.
  destruct (currentDate r) as [t |]; cbn [getHours option_map hourWithin toISOString bind].
  - destruct (_ && _); [destruct (absentOr _ _ _) |]; eauto.
  - eauto.
Qed.

(** On a row of a ride that is not named like a member of
    [Object.prototype] the two callbacks end the same way. *)
Lemma step_agree p s r :
  inherited (rideKey r) = false ->
  currentHour r = getHours host (currentDate r) ->
  Agree p s -> sameCompletion Agree (step host Plain p r) (step host Styled s r).
Proof.
  intros Hinh Hh [HL HM HT HS (P1 & P2 & P3 & P4)].
  pose proof (step_modelled host Plain p r) as Hmod; revert Hmod.
  unfold step, push, read, assign; cbv zeta; rewrite P1, P2, P3, P4, <- HL, <- HM, <- HT.
  rewrite (not_inherited_not_proto _ Hinh).
  repeat rewrite (fun V f (o : obj V) => lookup_own f None o _ Hinh eq_refl).
  rewrite !missingOr_own.
  rewrite <- (exceedsMax_agree _ (rideKey r) (numericWaitTime r) HS).
  match goal with
  | |- _ -> sameCompletion _ (bind ?c _) _ => destruct c as [td | e |]
  end; cbn [bind sameCompletion]; [| reflexivity | intros Hmod; apply Hmod; reflexivity].
  match goal with
  | |- _ -> sameCompletion _ (bind ?c _) _ => destruct c as [latest | e |]
  end; cbn [bind sameCompletion]; [| reflexivity | intros Hmod; apply Hmod; reflexivity].
  destruct (isRideOpen r).
  - match goal with
    | |- _ -> sameCompletion _ (bind ?c _) _ => destruct c as [[mp mx] | e |] eqn:Emx
    end; cbn [bind sameCompletion]; [| reflexivity | intros Hmod; apply Hmod; reflexivity].
    intros _.
    destruct (trough_update_returns Plain (minWaitTimes p) r Hh) as [op ->].
    destruct (trough_update_returns Styled (minWaitTimes s) r Hh) as [os ->].
    cbn [bind sameCompletion fst snd].
    assert (Hmx : mp = None /\ MaxStored mx).
    { destruct (absentOr (maxWaitTimes p) (rideKey r) (exceedsMax Plain (numericWaitTime r)));
        [| inversion Emx; subst; auto].
      destruct (currentDate r); cbn [toISOString bind] in Emx; inversion Emx; subst.
      split; [reflexivity |]; apply MaxStored_set; [exact HS | discriminate]. }
    destruct Hmx as [-> Hmx].
    constructor; cbn; auto.
  - intros _; cbn [sameCompletion]; constructor; cbn; auto.
Qed.

Lemma forEach_agree rows : forall p s,
  Forall (fun row => inherited (trim (nth 1 row EmptyString)) = false) rows ->
  Agree p s ->
  sameCompletion Agree (forEach (processRow host Plain) rows p)
                       (forEach (processRow host Styled) rows s).
Proof.
  induction rows as [| row rows IH]; intros p s Hord Hag; cbn [forEach]; [exact Hag |].
  inversion Hord as [| ? ? Hrow Hrest]; subst.
  unfold processRow at 1 3.
  destruct (readRow host row) as [r | e |] eqn:Er; cbn [bind sameCompletion];
    [| reflexivity | destruct (readRow_modelled host row Er)].
  apply readRow_Normal in Er; destruct Er as (_ & Hk & _ & _ & _ & _ & Hh).
  rewrite <- Hk in Hrow.
  pose proof (step_agree p s r Hrow Hh Hag) as Hstep.
  destruct (step host Plain p r) as [p' | e |], (step host Styled s r) as [s' | e' |];
    cbn [sameCompletion bind] in *; try contradiction; auto.
Qed.

Lemma variants_same_completion csvText :
  ordinaryRows csvText ->
  sameCompletion
    (fun p s => currentData p = currentData s /\ maxData p = maxData s /\
                timeData p = timeData s /\ latestTimestamp p = latestTimestamp s)
    (processCSVData host Plain csvText) (processCSVData host Styled csvText).
Proof.
  intros Hord; unfold processCSVData; cbv zeta.
  assert (H0 : Agree emptyAcc emptyAcc)
    by (constructor; try reflexivity; [intros k e; discriminate | auto]).
  pose proof (forEach_agree (tl (parseRows csvText)) _ _ Hord H0) as H.
  destruct (forEach (processRow host Plain) _ _) as [p | e |],
           (forEach (processRow host Styled) _ _) as [s | e' |];
    cbn [sameCompletion bind] in *; try contradiction; auto.
  destruct H as [HL HM HT _ _]; unfold assemble; cbv zeta;
    cbn [currentData maxData timeData latestTimestamp].
  rewrite HL, HM, HT; auto.
Qed.

(** X23: on a text none of whose data rows names a ride like a member of
    [Object.prototype], the two variants end the same way: both throw the
    same exception, or both return, and then their summaries differ at most
    in the troughs. *)
Lemma variants_agree_outside_minData csvText :
  ordinaryRows csvText ->
  (exists p s,
     processCSVData host Plain csvText = Normal p /\
     processCSVData host Styled csvText = Normal s /\
     currentData p = currentData s /\ maxData p = maxData s /\
     timeData p = timeData s /\ latestTimestamp p = latestTimestamp s) \/
  (exists e,
     processCSVData host Plain csvText = Throw e /\
     processCSVData host Styled csvText = Throw e).
Proof.
  intros Hord; pose proof (variants_same_completion csvText Hord) as H.
  pose proof (processCSVData_modelled host Plain csvText) as Hp.
  destruct (processCSVData host Plain csvText) as [p | e |],
           (processCSVData host Styled csvText) as [s | e' |];
    cbn [sameCompletion] in H; try contradiction.
  - left; exists p, s; tauto.
  - right; exists e; subst; auto.
Qed.

End Variants.

Lemma variants_agree_outside_minData_witness :
  ordinaryRows Examples.twoRides /\
  ((exists p s,
      processCSVData UtcHost.host Plain Examples.twoRides = Normal p /\
      processCSVData UtcHost.host Styled Examples.twoRides = Normal s /\
      currentData p = currentData s /\ maxData p = maxData s /\
      timeData p = timeData s /\ latestTimestamp p = latestTimestamp s) \/
   (exists e,
      processCSVData UtcHost.host Plain Examples.twoRides = Throw e /\
      processCSVData UtcHost.host Styled Examples.twoRides = Throw e)).
Proof.
  assert (Hord : ordinaryRows Examples.twoRides).
  { unfold ordinaryRows.
    let l := eval vm_compute in (tl (parseRows Examples.twoRides)) in
    change (tl (parseRows Examples.twoRides)) with l.
    repeat (apply Forall_cons; [vm_compute; reflexivity |]); apply Forall_nil. }
  split; [exact Hord |].
  apply (variants_agree_outside_minData UtcHost.host Examples.twoRides Hord).
Defined.

(* ================================================================== *)
(** ** Further properties of the aggregation *)


(** What a returned summary is made of: the readings, the accumulators that
    track them, and the troughs, each made from an open reading inside the
    window. *)
Lemma processCSVData_made host v csvText pd :
  processCSVData host v csvText = Normal pd ->
  exists rs acc,
    readings host csvText = Normal rs /\ AccInv host v rs acc /\
    Holds inTroughWindow makeMin rs (minWaitTimes acc) /\ pd = assemble host acc.
Proof.
  intros H.
  destruct (processCSVData_inv _ _ _ _ H) as (rs & acc & Hrs & Hfold & Hinv & ->).
  exists rs, acc; split; [exact Hrs |]; split; [exact Hinv |]; split; [| reflexivity].
  exact (inv_min_held _ _ _ _ Hinv).
Qed.

Lemma minData_get_any host v rs acc k e :
  AccInv host v rs acc -> Holds inTroughWindow makeMin rs (minWaitTimes acc) ->
  (In e (minData (assemble host acc)) /\ mm_ride_name e = k) <->
  get (minWaitTimes acc) k = Some e.
Proof.
  intros Hinv Hh.
  apply (held_values inTroughWindow makeMin mm_ride_name rs); auto.
  - intros r e0 H; apply makeMin_inv in H; tauto.
  - apply Hinv.
Qed.

Lemma num_ltb_leb a b : num_ltb a b = true -> num_leb a b = true.
Proof.
  unfold num_leb; destruct a, b; simpl; intros H; try discriminate; try reflexivity.
  apply Z.ltb_lt in H; destruct (z0 <? z) eqn:E; [apply Z.ltb_lt in E; lia | reflexivity].
Qed.

Lemma num_leb_refl a : num_leb a a = true.
Proof. unfold num_leb; rewrite num_ltb_irrefl; reflexivity. Qed.

(** Every reading of the ride has a wait the peak entry does not fall
    below, when the reading is open. *)
Lemma PeakOf_bound k rs e r :
  PeakOf k rs e -> In r rs -> rideKey r = k -> isRideOpen r = true ->
  num_leb (numericWaitTime r) (storedMax e) = true.
Proof.
  intros (before & w & after & Hrs & Hk & Ho & Hn & Hm & Hd & Hb & Ha) Hin Hr Hopen.
  unfold storedMax; rewrite Hm; subst rs.
  apply in_app_iff in Hin; destruct Hin as [Hin | [<- | Hin]].
  - apply num_ltb_leb; auto.
  - apply num_leb_refl.
  - auto.
Qed.

(** X1: in either variant, when [processCSVData] returns, a ride has a
    trough entry exactly when it has an open reading whose hour lies in
    10..17, and the entry carries the wait and the timestamp of one such
    reading of the ride. *)
Theorem trough_entry_is_an_open_window_reading (host : Host) (v : variant)
    (csvText : string) (pd : ProcessedData) :
  processCSVData host v csvText = Normal pd ->
  exists rs,
    readings host csvText = Normal rs /\
    forall k,
      ((exists r, In r rs /\ rideKey r = k /\
                  isRideOpen r = true /\ hourWithin 10 18 (currentHour r) = true) <->
       (exists e, In e (minData pd) /\ mm_ride_name e = k)) /\
      (forall e, In e (minData pd) -> mm_ride_name e = k ->
         exists w, In w rs /\ rideKey w = k /\
                   isRideOpen w = true /\ hourWithin 10 18 (currentHour w) = true /\
                   min_wait_time e = Some (numericWaitTime w) /\
                   currentDate w = Some (mm_timestamp e)).
Proof.
  intros H.
  destruct (processCSVData_made _ _ _ _ H) as (rs & acc & Hrs & Hinv & Hh & ->).
  exists rs; split; [exact Hrs |]; intros k; split.
  - rewrite (ex_iff _ _ (fun e => minData_get_any host v rs acc k e Hinv Hh)).
    rewrite (Holds_present _ _ _ _ k Hh); unfold inTroughWindow.
    split.
    + intros (r & H1 & H2 & H3 & H4); exists r; split; [exact H1 |]; split; [exact H2 |].
      apply andb_true_iff; auto.
    + intros (r & H1 & H2 & H3); apply andb_true_iff in H3; exists r; tauto.
  - intros e Hin Hk.
    assert (Hg : get (minWaitTimes acc) k = Some e)
      by (apply (minData_get_any host v rs acc k e Hinv Hh); auto).
    pose proof (Hh k) as Hk'; rewrite Hg in Hk'.
    destruct Hk' as (w & Hw & Hwk & Hrel & Hmk).
    apply makeMin_inv in Hmk; destruct Hmk as (Hd & _ & Hm & _).
    unfold inTroughWindow in Hrel; apply andb_true_iff in Hrel.
    exists w; tauto.
Qed.

Lemma trough_entry_is_an_open_window_reading_witness :
  exists pd,
    processCSVData UtcHost.host Styled Examples.zeroTrough = Normal pd /\
    exists rs,
      readings UtcHost.host Examples.zeroTrough = Normal rs /\
      forall k,
        ((exists r, In r rs /\ rideKey r = k /\
                    isRideOpen r = true /\ hourWithin 10 18 (currentHour r) = true) <->
         (exists e, In e (minData pd) /\ mm_ride_name e = k)) /\
        (forall e, In e (minData pd) -> mm_ride_name e = k ->
           exists w, In w rs /\ rideKey w = k /\
                     isRideOpen w = true /\ hourWithin 10 18 (currentHour w) = true /\
                     min_wait_time e = Some (numericWaitTime w) /\
                     currentDate w = Some (mm_timestamp e)).
Proof.
  eexists; split; [vm_compute; reflexivity |].
  apply (trough_entry_is_an_open_window_reading UtcHost.host Styled); vm_compute; reflexivity.
Defined.

(** A trough entry is never stored under an inherited name: a row of such
    a ride inside the trough window has thrown before. *)
Lemma trough_key_ordinary host v rs acc k e :
  AccInv host v rs acc -> get (minWaitTimes acc) k = Some e -> inherited k = false.
Proof.
  intros Hinv Hg.
  pose proof (inv_min_held _ _ _ _ Hinv k) as Hk; rewrite Hg in Hk.
  destruct Hk as (w & Hin & Hwk & Hrel & _).
  destruct (inherited k) eqn:E; [| reflexivity].
  rewrite <- Hwk in E.
  pose proof (trough_in_display w Hrel) as Hd.
  pose proof (inv_quiet _ _ _ _ Hinv w Hin E); congruence.
Qed.

(** X2: in either variant, when [processCSVData] returns, no trough entry
    stands under the name of a member of [Object.prototype]; and every ride
    with a trough entry whose name is not reserved (in the styled variant,
    once an open reading of a ride named __proto__ is among the readings,
    not the name of a field of a peak entry either) has a peak entry, which
    the trough does not exceed. *)
Theorem trough_does_not_exceed_peak (host : Host) (v : variant) (csvText : string)
    (pd : ProcessedData) :
  processCSVData host v csvText = Normal pd ->
  exists rs,
    readings host csvText = Normal rs /\
    forall lo, In lo (minData pd) ->
      inherited (mm_ride_name lo) = false /\
      (reservedFor v rs (mm_ride_name lo) = false ->
       exists hi low high,
         In hi (maxData pd) /\ mm_ride_name hi = mm_ride_name lo /\
         min_wait_time lo = Some low /\ max_wait_time hi = Some high /\
         num_leb low high = true).
Proof.
  intros H.
  destruct (processCSVData_made _ _ _ _ H) as (rs & acc & Hrs & Hinv & Hh & ->).
  exists rs; split; [exact Hrs |]; intros lo Hlo.
  set (k := mm_ride_name lo).
  assert (Hg : get (minWaitTimes acc) k = Some lo)
    by (apply (minData_get_any host v rs acc k lo Hinv Hh); auto).
  split; [exact (trough_key_ordinary host v rs acc k lo Hinv Hg) |].
  intros Hres.
  pose proof (Hh k) as Hk; rewrite Hg in Hk.
  destruct Hk as (w & Hw & Hwk & Hrel & Hmk).
  apply makeMin_inv in Hmk; destruct Hmk as (_ & _ & Hm & _).
  unfold inTroughWindow in Hrel; apply andb_true_iff in Hrel; destruct Hrel as [Hopen _].
  destruct (summary_peak host v rs acc Hinv k Hres) as (Hex & Hpeak & _).
  destruct Hex as [Hex _]; destruct Hex as (hi & Hhi & Hhik); [exists w; auto |].
  pose proof (Hpeak hi Hhi Hhik) as HP.
  pose proof (PeakOf_bound k rs hi w HP Hw Hwk Hopen) as Hle.
  destruct HP as (_ & wp & _ & _ & _ & _ & _ & Hmx & _).
  unfold storedMax in Hle; rewrite Hmx in Hle.
  exists hi, (numericWaitTime w), (numericWaitTime wp); repeat split; auto.
Qed.

Lemma trough_does_not_exceed_peak_witness :
  exists pd,
    processCSVData UtcHost.host Styled Examples.zeroTrough = Normal pd /\
    exists rs,
      readings UtcHost.host Examples.zeroTrough = Normal rs /\
      forall lo, In lo (minData pd) ->
        inherited (mm_ride_name lo) = false /\
        (reservedFor Styled rs (mm_ride_name lo) = false ->
         exists hi low high,
           In hi (maxData pd) /\ mm_ride_name hi = mm_ride_name lo /\
           min_wait_time lo = Some low /\ max_wait_time hi = Some high /\
           num_leb low high = true).
Proof.
  eexists; split; [vm_compute; reflexivity |].
  apply (trough_does_not_exceed_peak UtcHost.host Styled Examples.zeroTrough);
    vm_compute; reflexivity.
Defined.

(** X3: in either variant, when [processCSVData] returns, every ride with a
    trough entry, and every ride with a peak entry that is not named like a
    member of [Object.prototype], has a latest entry, and neither the peak
    nor the trough carries a timestamp after that of the latest entry. *)
Theorem peak_and_trough_not_after_latest (host : Host) (v : variant) (csvText : string)
    (pd : ProcessedData) :
  processCSVData host v csvText = Normal pd ->
  forall m,
    (In m (maxData pd) /\ inherited (mm_ride_name m) = false) \/ In m (minData pd) ->
    exists e,
      In e (currentData pd) /\ ride_name e = mm_ride_name m /\
      mm_timestamp m <= timestamp e.
Proof.
  intros H m Hm.
  destruct (processCSVData_made _ _ _ _ H) as (rs & acc & Hrs & Hinv & Hh & ->).
  set (k := mm_ride_name m).
  assert (Hw : inherited k = false /\
               exists w, In w rs /\ rideKey w = k /\ currentDate w = Some (mm_timestamp m)).
  { destruct Hm as [[Hm Hinh] | Hm].
    - split; [exact Hinh |].
      assert (Hg : get (maxWaitTimes acc) k = Some m)
        by (apply (maxData_get host v rs acc Hinv); auto).
      destruct (inv_max_kept _ _ _ _ Hinv k m Hg) as (w & Hin & Hwk & _ & Hmk).
      apply makeMax_inv in Hmk; exists w; tauto.
    - assert (Hg : get (minWaitTimes acc) k = Some m)
        by (apply (minData_get_any host v rs acc k m Hinv Hh); auto).
      split; [exact (trough_key_ordinary host v rs acc k m Hinv Hg) |].
      pose proof (Hh k) as Hk; rewrite Hg in Hk.
      destruct Hk as (w & Hin & Hwk & _ & Hmk).
      apply makeMin_inv in Hmk; exists w; tauto. }
  destruct Hw as (Hinh & w & Hin & Hwk & Hd).
  destruct (summary_latest host v rs acc Hinv k) as (Hex & Hlatest & _).
  destruct (proj1 (Hex Hinh)) as (e & He & Hek); [exists w; auto |].
  exists e; repeat split; auto.
  destruct (Hlatest e He Hek) as (_ & HL).
  exact (LatestOf_bound k rs e w _ HL Hin Hwk Hd).
Qed.

Lemma peak_and_trough_not_after_latest_witness :
  exists pd,
    processCSVData UtcHost.host Plain Examples.scenario5 = Normal pd /\
    forall m,
      (In m (maxData pd) /\ inherited (mm_ride_name m) = false) \/ In m (minData pd) ->
      exists e,
        In e (currentData pd) /\ ride_name e = mm_ride_name m /\
        mm_timestamp m <= timestamp e.
Proof.
  eexists; split; [vm_compute; reflexivity |].
  apply (peak_and_trough_not_after_latest UtcHost.host Plain Examples.scenario5);
    vm_compute; reflexivity.
Defined.

(* ================================================================== *)
(** ** The splitter *)

Lemma split_nonempty sep s : split sep s <> [].
Proof.
  destruct s as [| c s]; simpl; [discriminate |].
  destruct (Ascii.eqb c sep); [discriminate |].
  destruct (split sep s); discriminate.
Qed.

Lemma splitFields_nonempty s : splitFields s <> [].
Proof.
  destruct s as [| c s]; simpl; [discriminate |].
  destruct (Ascii.eqb c comma && Nat.even (countQuotes s)); [discriminate |].
  destruct (splitFields s); discriminate.
Qed.

Lemma unsplit_cons sep x l :
  l <> [] -> unsplit sep (x :: l) = (x ++ String sep (unsplit sep l))%string.
Proof. destruct l; [congruence | reflexivity]. Qed.

Lemma unsplit_push sep c x l :
  unsplit sep (String c x :: l) = String c (unsplit sep (x :: l)).
Proof. destruct l; reflexivity. Qed.

Lemma countQuotes_app a b : countQuotes (a ++ b) = (countQuotes a + countQuotes b)%nat.
Proof.
  induction a as [| c a IH]; simpl; [reflexivity |].
  destruct (Ascii.eqb c dquote); simpl; rewrite IH; reflexivity.
Qed.

Lemma even_add_even n m : Nat.even m = true -> Nat.even (n + m) = Nat.even n.
Proof. intros H; rewrite Nat.even_add, H; destruct (Nat.even n); reflexivity. Qed.

(** A text that closes its quotes, behind a comma, does not change how the
    fields before the comma are cut. *)
Lemma splitFields_app f rest :
  Nat.even (countQuotes rest) = true ->
  splitFields (f ++ String comma rest) = (splitFields f ++ splitFields rest)%list.
Proof.
  intros Hrest; induction f as [| c f IH].
  - cbn [append splitFields app]; rewrite Ascii.eqb_refl, Hrest; reflexivity.
  - change (String c f ++ String comma rest)%string
      with (String c (f ++ String comma rest)).
    cbn [splitFields]; rewrite IH.
    assert (Hq : Nat.even (countQuotes (f ++ String comma rest)) = Nat.even (countQuotes f)).
    { rewrite countQuotes_app; apply even_add_even.
      simpl; replace (Ascii.eqb comma dquote) with false by reflexivity; exact Hrest. }
    rewrite Hq.
    destruct (Ascii.eqb c comma && Nat.even (countQuotes f)); [reflexivity |].
    pose proof (splitFields_nonempty f) as Hne.
    destruct (splitFields f) as [| x xs]; [congruence | reflexivity].
Qed.

Lemma unsplit_even fs :
  Forall wholeField fs -> Nat.even (countQuotes (unsplit comma fs)) = true.
Proof.
  induction 1 as [| f fs [_ Hf] Hfs IH]; [reflexivity |].
  destruct fs as [| g fs]; [exact Hf |].
  rewrite unsplit_cons by discriminate.
  rewrite countQuotes_app, even_add_even; [exact Hf |].
  simpl countQuotes at 1; replace (Ascii.eqb comma dquote) with false by reflexivity.
  exact IH.
Qed.

(** X4: the splitter loses nothing: the fields of a row, put together
    again with commas, are the row; the lines of a text, put together again
    with line feeds, are the text.  The text is cut at every line feed, and
    a row without double quotes at every comma. *)
Theorem split_then_join_is_identity (s : string) :
  unsplit comma (splitFields s) = s /\
  unsplit LF (split LF s) = s /\
  (countQuotes s = O -> splitFields s = split comma s).
Proof.
  split; [| split].
  - induction s as [| c s IH]; [reflexivity |].
    cbn [splitFields].
    pose proof (splitFields_nonempty s) as Hne.
    destruct (Ascii.eqb c comma && Nat.even (countQuotes s)) eqn:E.
    + apply andb_true_iff in E; destruct E as [E _]; apply Ascii.eqb_eq in E; subst c.
      rewrite unsplit_cons by assumption; rewrite IH; reflexivity.
    + destruct (splitFields s) as [| x xs]; [congruence |].
      rewrite unsplit_push, IH; reflexivity.
  - induction s as [| c s IH]; [reflexivity |].
    cbn [split].
    pose proof (split_nonempty LF s) as Hne.
    destruct (Ascii.eqb c LF) eqn:E.
    + apply Ascii.eqb_eq in E; subst c.
      rewrite unsplit_cons by assumption; rewrite IH; reflexivity.
    + destruct (split LF s) as [| x xs]; [congruence |].
      rewrite unsplit_push, IH; reflexivity.
  - induction s as [| c s IH]; [reflexivity |].
    cbn [splitFields split countQuotes].
    destruct (Ascii.eqb c dquote); [discriminate |].
    intros Hq; rewrite Hq, (IH Hq); simpl Nat.even; rewrite andb_true_r; reflexivity.
Qed.

(** X5: fields that each close their double quotes, and that the splitter
    leaves whole (every comma in them stands inside quotes), are found again
    when the row made of them is split. *)
Theorem join_then_split_is_identity (fs : list string) :
  fs <> [] -> Forall wholeField fs -> splitFields (unsplit comma fs) = fs.
Proof.
  intros Hne Hall; induction Hall as [| f fs [Hf Hq] Hfs IH]; [congruence |].
  destruct fs as [| g fs]; [exact Hf |].
  rewrite unsplit_cons by discriminate.
  rewrite splitFields_app by (apply unsplit_even; exact Hfs).
  rewrite Hf, IH by discriminate; reflexivity.
Qed.

Lemma join_then_split_is_identity_witness :
  let quoted := String dquote ("Pirates, the ride" ++ String dquote EmptyString) in
  let fs := ["2025-02-02T09:00:00"; quoted; "10"; "9:00"; "true"] in
  fs <> [] /\ Forall wholeField fs /\ splitFields (unsplit comma fs) = fs.
Proof.
  cbv zeta.
  assert (Hne : ["2025-02-02T09:00:00";
                 String dquote ("Pirates, the ride" ++ String dquote EmptyString);
                 "10"; "9:00"; "true"] <> []) by discriminate.
  assert (Hall : Forall wholeField
                   ["2025-02-02T09:00:00";
                    String dquote ("Pirates, the ride" ++ String dquote EmptyString);
                    "10"; "9:00"; "true"]).
  { repeat (apply Forall_cons; [split; vm_compute; reflexivity |]); apply Forall_nil. }
  split; [exact Hne |]; split; [exact Hall |].
  exact (join_then_split_is_identity _ Hne Hall).
Defined.

Lemma split_without_separator sep s : hasChar sep s = false -> split sep s = [s].
Proof.
  induction s as [| c s IH]; simpl; [reflexivity |].
  intros H; apply orb_false_iff in H; destruct H as [-> H]; rewrite (IH H); reflexivity.
Qed.

(** X6: a text of one line (after the trim of the whole text) has no data
    row: both variants return the empty summary, whatever the line holds. *)
Theorem single_line_gives_empty_summary (host : Host) (v : variant) (csvText : string) :
  hasChar LF (trim csvText) = false ->
  processCSVData host v csvText = Normal emptySummary.
Proof.
  intros H; unfold processCSVData, parseRows; cbv zeta.
  rewrite (split_without_separator LF _ H); reflexivity.
Qed.

Lemma single_line_gives_empty_summary_witness :
  hasChar LF (trim "2025-02-02T09:00:00,Space Mountain,10,9:00,true") = false /\
  processCSVData UtcHost.host Plain "2025-02-02T09:00:00,Space Mountain,10,9:00,true"
    = Normal emptySummary.
Proof.
  split; [reflexivity |].
  exact (single_line_gives_empty_summary UtcHost.host Plain
           "2025-02-02T09:00:00,Space Mountain,10,9:00,true" eq_refl).
Defined.

(** X7: the first data row with fewer than five fields aborts the pass:
    when the rows before it are well formed, both variants throw a
    TypeError, whatever follows. *)
Theorem first_short_row_aborts (host : Host) (v : variant) (csvText : string)
    (header short : list string) (before after : list (list string)) :
  parseRows csvText = header :: (before ++ short :: after)%list ->
  Forall (wellFormedRow host) before ->
  (List.length short < 5)%nat ->
  processCSVData host v csvText = Throw TypeError.
Proof.
  intros Hrows Hbefore Hshort; unfold processCSVData; cbv zeta.
  rewrite Hrows; cbn [tl]; rewrite forEach_app.
  destruct (forEach_total host v before emptyAcc Hbefore) as [acc ->].
  cbn [bind forEach]; rewrite (short_row_throws host v acc short Hshort); reflexivity.
Qed.

Lemma first_short_row_aborts_witness :
  parseRows Examples.blankLine =
    ["ts"; "name"; "wait"; "upd"; "open"]
      :: ([] ++ [EmptyString]
             :: [["2025-02-02T09:00:00"; "Space Mountain"; "10"; "9:00"; "true"]])%list /\
  Forall (wellFormedRow UtcHost.host) [] /\
  (List.length [EmptyString] < 5)%nat /\
  processCSVData UtcHost.host Styled Examples.blankLine = Throw TypeError.
Proof.
  assert (H1 : parseRows Examples.blankLine =
    ["ts"; "name"; "wait"; "upd"; "open"]
      :: ([] ++ [EmptyString]
             :: [["2025-02-02T09:00:00"; "Space Mountain"; "10"; "9:00"; "true"]])%list)
    by (vm_compute; reflexivity).
  assert (H2 : Forall (wellFormedRow UtcHost.host) []) by constructor.
  assert (H3 : (List.length [EmptyString] < 5)%nat) by (simpl; lia).
  split; [exact H1 |]; split; [exact H2 |]; split; [exact H3 |].
  exact (first_short_row_aborts UtcHost.host Styled Examples.blankLine _ _ _ _ H1 H2 H3).
Defined.

(** X8: when [processCSVData] returns, every point of a series comes from a
    reading of that ride whose hour lies in 8..21, carries the clock label
    of the date of that reading, and has no wait exactly when it is closed;
    an open point carries the wait of its reading. *)
Theorem series_points_come_from_readings (host : Host) (v : variant) (csvText : string)
    (pd : ProcessedData) :
  processCSVData host v csvText = Normal pd ->
  exists rs,
    readings host csvText = Normal rs /\
    forall k s p,
      get (timeData pd) k = Some s -> In p s ->
      (waitTime p = None <-> isOpen p = false) /\
      exists r, In r rs /\ rideKey r = k /\ hourBetween 8 21 (currentHour r) = true /\
                isOpen p = isRideOpen r /\
                time p = timeLabel host (currentDate r) /\
                (isOpen p = true -> waitTime p = Some (numericWaitTime r)).
Proof.
  intros H.
  destruct (processCSVData_inv _ _ _ _ H) as (rs & acc & Hrs & _ & Hinv & ->).
  exists rs; split; [exact Hrs |].
  intros k s p; rewrite (timeData_get host v rs acc k Hinv).
  destruct (negb (inherited k) && existsb (ofRide k) rs); [| discriminate].
  intros Hs Hp; inversion Hs; subst s; clear Hs.
  apply (Permutation_in _ (sort_perm host _)) in Hp.
  unfold series in Hp; apply in_map_iff in Hp; destruct Hp as (r & <- & Hr).
  apply filter_In in Hr; destruct Hr as [Hin Hr].
  apply andb_true_iff in Hr; destruct Hr as [Hk Hw].
  unfold point; cbn [waitTime isOpen time]; split.
  - destruct (isRideOpen r); split; intros; congruence.
  - exists r; repeat split; auto.
    + apply String.eqb_eq; exact Hk.
    + intros ->; reflexivity.
Qed.

Lemma series_points_come_from_readings_witness :
  exists pd,
    processCSVData UtcHost.host Plain Examples.twoRides = Normal pd /\
    exists rs,
      readings UtcHost.host Examples.twoRides = Normal rs /\
      forall k s p,
        get (timeData pd) k = Some s -> In p s ->
        (waitTime p = None <-> isOpen p = false) /\
        exists r, In r rs /\ rideKey r = k /\ hourBetween 8 21 (currentHour r) = true /\
                  isOpen p = isRideOpen r /\
                  time p = timeLabel UtcHost.host (currentDate r) /\
                  (isOpen p = true -> waitTime p = Some (numericWaitTime r)).
Proof.
  eexists; split; [vm_compute; reflexivity |].
  apply (series_points_come_from_readings UtcHost.host Plain); vm_compute; reflexivity.
Defined.

(* ================================================================== *)
(** ** The fields of a row *)

Lemma HourFromTime_next t :
  HourFromTime (t + msPerHour) = (HourFromTime t + 1) mod 24.
Proof.
  unfold HourFromTime, msPerHour.
  replace (t + 3600000) with (t + 1 * 3600000) by lia.
  rewrite Z.div_add by lia.
  rewrite Z.add_mod_idemp_l by lia; reflexivity.
Qed.

(** X9: on a host whose local times all exist (local time of the UTC value
    of a local time is that local time), a reading whose adjusted date is
    valid has the hour after the one its timestamp shows, modulo 24: it
    lies in the display window exactly when the timestamp shows an hour in
    7..20, and in the trough window exactly when it shows one in 9..16. *)
Theorem windows_in_source_hours (host : Host) (row : list string) (r : Reading) (h : Z) :
  (forall x, LocalTime host (UTC host x) = x) ->
  readRow host row = Normal r ->
  sourceHour host row = Some h ->
  currentDate r <> None ->
  currentHour r = Some ((h + 1) mod 24) /\
  (hourBetween 8 21 (currentHour r) = true <-> 7 <= h <= 20) /\
  (hourWithin 10 18 (currentHour r) = true <-> 9 <= h <= 16).
Proof.
  intros Hzone Hr Hh Hvalid.
  apply readRow_Normal in Hr; destruct Hr as (_ & _ & _ & _ & _ & Hd & Hc).
  rewrite adjusted_one_hour in Hd; unfold sourceHour in Hh.
  destruct (dateParse host (nth 0 row EmptyString)) as [t |]; [| discriminate].
  cbn [option_map] in Hh; inversion Hh; subst h; clear Hh.
  assert (Hrange : 0 <= HourFromTime (LocalTime host t) < 24)
    by (apply Z.mod_pos_bound; lia).
  assert (Hhour : currentHour r = Some ((HourFromTime (LocalTime host t) + 1) mod 24)).
  { rewrite Hc, Hd; unfold TimeClip in *.
    destruct (8640000000000000 <? Z.abs (UTC host (LocalTime host t + msPerHour)));
      [rewrite Hd in Hvalid; congruence |].
    cbn [getHours option_map]; rewrite Hzone, HourFromTime_next; reflexivity. }
  rewrite Hhour; split; [reflexivity |]; cbn [hourBetween hourWithin].
  destruct (Z.eq_dec (HourFromTime (LocalTime host t)) 23) as [E | E].
  - rewrite E; change ((23 + 1) mod 24) with 0; simpl; split; split; intros; try discriminate; lia.
  - rewrite Z.mod_small by lia.
    rewrite !andb_true_iff, !Z.leb_le, Z.ltb_lt; lia.
Qed.

Lemma windows_in_source_hours_witness :
  exists r,
    (forall x, LocalTime UtcHost.host (UTC UtcHost.host x) = x) /\
    readRow UtcHost.host ["2025-02-02T07:30:00"; "Autopia"; "10"; "7:30"; "true"] = Normal r /\
    sourceHour UtcHost.host ["2025-02-02T07:30:00"; "Autopia"; "10"; "7:30"; "true"] = Some 7 /\
    currentDate r <> None /\
    currentHour r = Some ((7 + 1) mod 24) /\
    (hourBetween 8 21 (currentHour r) = true <-> 7 <= 7 <= 20) /\
    (hourWithin 10 18 (currentHour r) = true <-> 9 <= 7 <= 16).
Proof.
  eexists.
  assert (H1 : forall x, LocalTime UtcHost.host (UTC UtcHost.host x) = x) by reflexivity.
  split; [exact H1 |]; split; [vm_compute; reflexivity |]; split; [vm_compute; reflexivity |].
  split; [vm_compute; discriminate |].
  apply (windows_in_source_hours UtcHost.host
           ["2025-02-02T07:30:00"; "Autopia"; "10"; "7:30"; "true"] _ 7 H1);
    vm_compute; first [reflexivity | discriminate].
Defined.

Lemma lowerChar_spelling (c x X : ascii) :
  (x, X) = ("t"%char, "T"%char) \/ (x, X) = ("r"%char, "R"%char) \/
  (x, X) = ("u"%char, "U"%char) \/ (x, X) = ("e"%char, "E"%char) ->
  (Ascii.eqb (lowerChar c) x = true <-> c = x \/ c = X).
Proof.
  intros Hx; split.
  - intros H.
    assert (Hb : (Ascii.eqb c x || Ascii.eqb c X)%bool = true).
    { destruct Hx as [Hx | [Hx | [Hx | Hx]]]; inversion Hx; subst x X; clear Hx;
        destruct c as [[] [] [] [] [] [] [] []]; vm_compute in H |- *;
          first [reflexivity | discriminate H]. }
    apply orb_true_iff in Hb; destruct Hb as [Hb | Hb]; apply Ascii.eqb_eq in Hb; auto.
  - intros [-> | ->]; destruct Hx as [Hx | [Hx | [Hx | Hx]]]; inversion Hx; reflexivity.
Qed.

(** X10: a row is open exactly when its last field is the word true in one
    of its sixteen spellings in upper and lower case; no other text, padded
    or not, opens a ride. *)
Theorem open_flag_spellings (s : string) :
  String.eqb (toLowerCase s) "true" = true <-> spellsTrue s.
Proof.
  unfold spellsTrue; split.
  - intros H.
    destruct s as [| c1 [| c2 [| c3 [| c4 [| c5 s]]]]]; cbn [toLowerCase] in H;
      try (apply String.eqb_eq in H; discriminate H).
    apply String.eqb_eq in H; injection H as H1 H2 H3 H4.
    exists c1, c2, c3, c4; split; [reflexivity |].
    repeat split.
    + apply (proj1 (lowerChar_spelling c1 "t" "T" ltac:(auto))).
      rewrite H1; reflexivity.
    + apply (proj1 (lowerChar_spelling c2 "r" "R" ltac:(auto))).
      rewrite H2; reflexivity.
    + apply (proj1 (lowerChar_spelling c3 "u" "U" ltac:(auto 6))).
      rewrite H3; reflexivity.
    + apply (proj1 (lowerChar_spelling c4 "e" "E" ltac:(auto 6))).
      rewrite H4; reflexivity.
  - intros (c1 & c2 & c3 & c4 & -> & H1 & H2 & H3 & H4).
    destruct H1 as [-> | ->], H2 as [-> | ->], H3 as [-> | ->], H4 as [-> | ->];
      reflexivity.
Qed.

Lemma trimEnd_all_space b : allWhiteSpace b = true -> trimEnd b = EmptyString.
Proof.
  induction b as [| c b IH]; simpl; [reflexivity |].
  intros H; apply andb_true_iff in H; destruct H as [-> H]; rewrite (IH H); reflexivity.
Qed.

Lemma trimEnd_space s b : allWhiteSpace b = true -> trimEnd (s ++ b) = trimEnd s.
Proof.
  intros Hb; induction s as [| c s IH]; simpl; [apply trimEnd_all_space; exact Hb |].
  rewrite IH; reflexivity.
Qed.

Lemma trimStart_app s b :
  trimStart s <> EmptyString -> trimStart (s ++ b) = (trimStart s ++ b)%string.
Proof.
  induction s as [| c s IH]; simpl; [congruence |].
  destruct (isWhiteSpace c); [exact IH | reflexivity].
Qed.

Lemma trimStart_all_space s : trimStart s = EmptyString -> allWhiteSpace s = true.
Proof.
  induction s as [| c s IH]; simpl; [reflexivity |].
  destruct (isWhiteSpace c); [exact IH | discriminate].
Qed.

Lemma trim_padded a s b :
  allWhiteSpace a = true -> allWhiteSpace b = true -> trim (a ++ s ++ b) = trim s.
Proof.
  intros Ha Hb; unfold trim; rewrite trimStart_space by exact Ha.
  destruct (trimStart s) as [| c u] eqn:E.
  - pose proof (trimStart_all_space s E) as Hs.
    replace (trimStart (s ++ b)) with EmptyString; [reflexivity |].
    symmetry; clear E; induction s as [| c s IH]; simpl in *.
    + clear Hs; induction b as [| c b IH]; simpl in *; [reflexivity |].
      apply andb_true_iff in Hb; destruct Hb as [-> Hb]; auto.
    + apply andb_true_iff in Hs; destruct Hs as [-> Hs]; auto.
  - rewrite trimStart_app by (rewrite E; discriminate).
    rewrite E; apply trimEnd_space; exact Hb.
Qed.

Lemma trimEnd_last s c :
  isWhiteSpace c = false -> trimEnd (s ++ String c EmptyString) = (s ++ String c EmptyString)%string.
Proof.
  intros Hc; induction s as [| x s IH]; simpl; [rewrite Hc; reflexivity |].
  rewrite IH; destruct s; simpl; rewrite andb_false_r; reflexivity.
Qed.

Lemma dropLastQuote_last s : dropLastQuote (s ++ String dquote EmptyString) = s.
Proof.
  induction s as [| x s IH]; [reflexivity |].
  change ((String x s ++ String dquote EmptyString)%string)
    with (String x (s ++ String dquote EmptyString)).
  cbn [dropLastQuote]; rewrite IH; destruct s; reflexivity.
Qed.

(** X11: the ride key of a name field that is wrapped in double quotes,
    with white space around the quotes and inside them, is the trimmed
    name: the quotes and the white space on both sides of them are
    dropped. *)
Theorem quoted_name_gives_trimmed_key (a b c d name : string) :
  allWhiteSpace a = true -> allWhiteSpace b = true ->
  allWhiteSpace c = true -> allWhiteSpace d = true ->
  trim (stripQuotes (trim (a ++ String dquote (b ++ name ++ c ++ String dquote EmptyString)
                             ++ d)))
  = trim name.
Proof.
  intros Ha Hb Hc Hd.
  rewrite trim_padded by assumption.
  assert (Htrim : forall y, trim (String dquote (y ++ String dquote EmptyString))
                            = String dquote (y ++ String dquote EmptyString)).
  { intros y; unfold trim; cbn [trimStart].
    replace (isWhiteSpace dquote) with false by reflexivity.
    apply (trimEnd_last (String dquote y) dquote); reflexivity. }
  replace (b ++ name ++ c ++ String dquote EmptyString)%string
    with ((b ++ name ++ c) ++ String dquote EmptyString)%string.
  2:{ clear; induction b as [| x b IH]; simpl; [| rewrite IH; reflexivity].
      induction name as [| x n IH]; simpl; [reflexivity | rewrite IH; reflexivity]. }
  rewrite Htrim; cbn [stripQuotes]; rewrite Ascii.eqb_refl, dropLastQuote_last.
  apply trim_padded; assumption.
Qed.

Lemma quoted_name_gives_trimmed_key_witness :
  allWhiteSpace " " = true /\ allWhiteSpace "  " = true /\
  allWhiteSpace " " = true /\ allWhiteSpace EmptyString = true /\
  trim (stripQuotes (trim (" " ++ String dquote ("  " ++ "Pirates, the ride" ++ " "
                                                  ++ String dquote EmptyString)
                               ++ EmptyString)))
  = trim "Pirates, the ride".
Proof.
  repeat (split; [reflexivity |]).
  exact (quoted_name_gives_trimmed_key " " "  " " " EmptyString "Pirates, the ride"
           eq_refl eq_refl eq_refl eq_refl).
Defined.

(* ================================================================== *)
(** ** The dashboard: categories and colours *)

Lemma num_leb_trans a b c :
  num_leb a b = true -> num_leb b c = true -> num_leb a c = true.
Proof.
  unfold num_leb; destruct a, b, c; simpl; intros H1 H2;
    try discriminate; try reflexivity.
  apply negb_true_iff, Z.ltb_ge in H1; apply negb_true_iff, Z.ltb_ge in H2.
  apply negb_true_iff, Z.ltb_ge; lia.
Qed.

Lemma le_const_mono w1 w2 c :
  num_leb w1 w2 = true ->
  Dashboard.le_const (Some w2) c = true -> Dashboard.le_const (Some w1) c = true.
Proof. unfold Dashboard.le_const; apply num_leb_trans. Qed.

Lemma category_cases w o :
  Dashboard.getCategoryFromWaitTime w o = "Short" \/
  Dashboard.getCategoryFromWaitTime w o = "Medium" \/
  Dashboard.getCategoryFromWaitTime w o = "Long" \/
  Dashboard.getCategoryFromWaitTime w o = "Very Long" \/
  Dashboard.getCategoryFromWaitTime w o = "Closed".
Proof.
  unfold Dashboard.getCategoryFromWaitTime.
  destruct o; simpl negb; cbv iota;
    repeat (match goal with |- context [Dashboard.le_const ?a ?b] =>
              destruct (Dashboard.le_const a b) end);
    tauto.
Qed.

(** X12: the category of a ride is one of the five headers; it is Closed
    exactly for a closed ride; for open rides it rises with the wait, in the
    order Short, Medium, Long, Very Long, with the last wait of each at 15,
    30 and 45; a negative wait is Short. *)
Theorem category_rises_with_wait :
  (forall w o, In (Dashboard.getCategoryFromWaitTime w o)
                  ["Short"; "Medium"; "Long"; "Very Long"; "Closed"]) /\
  (forall w o, Dashboard.getCategoryFromWaitTime w o = "Closed" <-> o = false) /\
  (forall w1 w2, num_leb w1 w2 = true ->
     categoryRank (Dashboard.getCategoryFromWaitTime (Some w1) true) <=
     categoryRank (Dashboard.getCategoryFromWaitTime (Some w2) true)) /\
  (forall z, z <= 15 -> Dashboard.getCategoryFromWaitTime (Some (Fin z)) true = "Short") /\
  (forall z, 15 < z <= 30 ->
     Dashboard.getCategoryFromWaitTime (Some (Fin z)) true = "Medium") /\
  (forall z, 30 < z <= 45 ->
     Dashboard.getCategoryFromWaitTime (Some (Fin z)) true = "Long") /\
  (forall z, 45 < z ->
     Dashboard.getCategoryFromWaitTime (Some (Fin z)) true = "Very Long").
Proof.
  assert (Hfin : forall z c, Dashboard.le_const (Some (Fin z)) c = (z <=? c)).
  { intros z c; unfold Dashboard.le_const, num_leb; simpl.
    destruct (c <? z) eqn:E1, (z <=? c) eqn:E2; try reflexivity;
      [apply Z.ltb_lt in E1; apply Z.leb_le in E2 |
       apply Z.ltb_ge in E1; apply Z.leb_gt in E2]; lia. }
  split; [| split; [| split; [| split; [| split; [| split]]]]].
  - intros w o; unfold Dashboard.getCategoryFromWaitTime.
    destruct o; simpl negb; cbv iota;
      repeat (match goal with |- context [Dashboard.le_const ?a ?b] =>
                destruct (Dashboard.le_const a b) end);
      simpl; tauto.
  - intros w o; unfold Dashboard.getCategoryFromWaitTime; destruct o; simpl negb; cbv iota;
      [| split; reflexivity].
    repeat (match goal with |- context [Dashboard.le_const ?a ?b] =>
              destruct (Dashboard.le_const a b) end);
      split; intros H; discriminate H.
  - intros w1 w2 Hle; unfold Dashboard.getCategoryFromWaitTime; simpl negb; cbv iota.
    pose proof (le_const_mono w1 w2 15 Hle) as H15.
    pose proof (le_const_mono w1 w2 30 Hle) as H30.
    pose proof (le_const_mono w1 w2 45 Hle) as H45.
    destruct (Dashboard.le_const (Some w2) 15);
      [rewrite (H15 eq_refl); vm_compute; discriminate |].
    destruct (Dashboard.le_const (Some w2) 30);
      [rewrite (H30 eq_refl); destruct (Dashboard.le_const (Some w1) 15);
         vm_compute; discriminate |].
    destruct (Dashboard.le_const (Some w2) 45);
      [rewrite (H45 eq_refl);
       destruct (Dashboard.le_const (Some w1) 15), (Dashboard.le_const (Some w1) 30);
         vm_compute; discriminate |].
    destruct (Dashboard.le_const (Some w1) 15), (Dashboard.le_const (Some w1) 30),
             (Dashboard.le_const (Some w1) 45); vm_compute; discriminate.
  - intros z Hz; unfold Dashboard.getCategoryFromWaitTime; simpl negb; cbv iota.
    rewrite Hfin; replace (z <=? 15) with true by (symmetry; apply Z.leb_le; lia).
    reflexivity.
  - intros z Hz; unfold Dashboard.getCategoryFromWaitTime; simpl negb; cbv iota.
    rewrite !Hfin; replace (z <=? 15) with false by (symmetry; apply Z.leb_gt; lia).
    replace (z <=? 30) with true by (symmetry; apply Z.leb_le; lia); reflexivity.
  - intros z Hz; unfold Dashboard.getCategoryFromWaitTime; simpl negb; cbv iota.
    rewrite !Hfin; replace (z <=? 15) with false by (symmetry; apply Z.leb_gt; lia).
    replace (z <=? 30) with false by (symmetry; apply Z.leb_gt; lia).
    replace (z <=? 45) with true by (symmetry; apply Z.leb_le; lia); reflexivity.
  - intros z Hz; unfold Dashboard.getCategoryFromWaitTime; simpl negb; cbv iota.
    rewrite !Hfin; replace (z <=? 15) with false by (symmetry; apply Z.leb_gt; lia).
    replace (z <=? 30) with false by (symmetry; apply Z.leb_gt; lia).
    replace (z <=? 45) with false by (symmetry; apply Z.leb_gt; lia); reflexivity.
Qed.

Ltac split_thresholds :=
  repeat (match goal with
          | |- context [Dashboard.le_const ?a ?b] =>
              destruct (Dashboard.le_const a b)
          end).

(** X13: the colour of a wait depends only on its category.  In the plain
    dashboard two waits have the same colour exactly when they have the
    same category.  In the styled dashboard Long and Very Long share one
    colour, so the colour of a Long wait is not the colour of the Long
    header; for every other category it is the colour of its header. *)
Theorem colour_follows_category :
  (forall v w o w' o',
     Dashboard.getCategoryFromWaitTime w o = Dashboard.getCategoryFromWaitTime w' o' ->
     Dashboard.getWaitTimeColor v w o = Dashboard.getWaitTimeColor v w' o') /\
  (forall w o w' o',
     Dashboard.getWaitTimeColor Plain w o = Dashboard.getWaitTimeColor Plain w' o' ->
     Dashboard.getCategoryFromWaitTime w o = Dashboard.getCategoryFromWaitTime w' o') /\
  (forall w o,
     get Dashboard.theme.categoryColors (Dashboard.getCategoryFromWaitTime w o)
       = Some (Dashboard.getWaitTimeColor Styled w o) <->
     Dashboard.getCategoryFromWaitTime w o <> "Long").
Proof.
  split; [| split].
  - intros v w o w' o';
      unfold Dashboard.getCategoryFromWaitTime, Dashboard.getWaitTimeColor.
    destruct v, o, o'; simpl negb; cbv iota; split_thresholds;
      intros H; first [reflexivity | discriminate H].
  - intros w o w' o';
      unfold Dashboard.getCategoryFromWaitTime, Dashboard.getWaitTimeColor.
    destruct o, o'; simpl negb; cbv iota; split_thresholds;
      intros H; first [reflexivity | discriminate H].
  - intros w o; unfold Dashboard.getCategoryFromWaitTime, Dashboard.getWaitTimeColor.
    destruct o; simpl negb; cbv iota; split_thresholds;
      (split; [intros H; first [discriminate | vm_compute in H; discriminate H]
              | intros H; first [reflexivity | congruence]]).
Qed.

(** The entries of a category, in the order of the list. *)
Lemma bucket_cons c x l :
  filter (fun e => String.eqb (categoryOf e) c) (x :: l) =
  if String.eqb (categoryOf x) c then x :: filter (fun e => String.eqb (categoryOf e) c) l
  else filter (fun e => String.eqb (categoryOf e) c) l.
Proof. reflexivity. Qed.

Lemma categorize_from (l : list RideData) : forall b1 b2 b3 b4 b5,
  forEach (fun acc entry =>
             Dashboard.pushTo acc
               (Dashboard.getCategoryFromWaitTime (Some (wait_time entry)) (is_open entry))
               entry)
          l [ ("Short", b1); ("Medium", b2); ("Long", b3); ("Very Long", b4); ("Closed", b5) ]
  = Normal
      [ ("Short", (b1 ++ filter (fun e => String.eqb (categoryOf e) "Short") l)%list);
        ("Medium", (b2 ++ filter (fun e => String.eqb (categoryOf e) "Medium") l)%list);
        ("Long", (b3 ++ filter (fun e => String.eqb (categoryOf e) "Long") l)%list);
        ("Very Long", (b4 ++ filter (fun e => String.eqb (categoryOf e) "Very Long") l)%list);
        ("Closed", (b5 ++ filter (fun e => String.eqb (categoryOf e) "Closed") l)%list) ].
Proof.
  induction l as [| x l IH]; intros b1 b2 b3 b4 b5.
  - simpl; rewrite !app_nil_r; reflexivity.
  - cbn [forEach]; rewrite !bucket_cons.
    change (Dashboard.getCategoryFromWaitTime (Some (wait_time x)) (is_open x))
      with (categoryOf x).
    destruct (category_cases (Some (wait_time x)) (is_open x)) as [H | [H | [H | [H | H]]]];
      fold (categoryOf x) in H; rewrite H;
      cbn [Dashboard.pushTo get set String.eqb Ascii.eqb Bool.eqb bind];
      rewrite IH, <- ?app_assoc; reflexivity.
Qed.

(** X14: [categorizeAttractions] never throws; it returns the five
    categories in the order Short, Medium, Long, Very Long, Closed, each
    with the entries of that category in the order of the list, so every
    entry stands under exactly one header and the counts of the headers add
    up to the number of entries. *)
Theorem categorize_is_a_partition (allData : list RideData) :
  let under c := filter (fun e => String.eqb (categoryOf e) c) allData in
  Dashboard.categorizeAttractions allData =
    Normal [ ("Short", under "Short"); ("Medium", under "Medium"); ("Long", under "Long");
             ("Very Long", under "Very Long"); ("Closed", under "Closed") ] /\
  (List.length (under "Short") + List.length (under "Medium") + List.length (under "Long")
   + List.length (under "Very Long") + List.length (under "Closed")
   = List.length allData)%nat.
Proof.
  cbv zeta; split.
  - unfold Dashboard.categorizeAttractions; cbv zeta.
    rewrite (categorize_from allData [] [] [] [] []); reflexivity.
  - induction allData as [| x l IH]; [reflexivity |].
    rewrite !bucket_cons.
    destruct (category_cases (Some (wait_time x)) (is_open x)) as [H | [H | [H | [H | H]]]];
      fold (categoryOf x) in H; rewrite H; simpl; lia.
Qed.

(* ================================================================== *)
(** ** The dashboard: search and selection *)

Lemma string_compare_refl s : String.compare s s = Eq.
Proof.
  induction s as [| c s IH]; simpl; [reflexivity |].
  unfold Ascii.compare; rewrite N.compare_refl; exact IH.
Qed.

Lemma string_compare_lt_trans : forall a b c,
  String.compare a b = Lt -> String.compare b c = Lt -> String.compare a c = Lt.
Proof.
  induction a as [| x a IH]; intros [| y b] [| z c]; simpl; try discriminate; auto.
  unfold Ascii.compare.
  destruct (N.compare_spec (N_of_ascii x) (N_of_ascii y)) as [E1 | E1 | E1];
    destruct (N.compare_spec (N_of_ascii y) (N_of_ascii z)) as [E2 | E2 | E2];
    intros H1 H2; try discriminate.
  - rewrite E1, E2, N.compare_refl; eapply IH; eassumption.
  - rewrite E1; apply N.compare_lt_iff in E2; rewrite E2; reflexivity.
  - rewrite <- E2; apply N.compare_lt_iff in E1; rewrite E1; reflexivity.
  - assert (E : (N_of_ascii x < N_of_ascii z)%N) by (eapply N.lt_trans; eassumption).
    apply N.compare_lt_iff in E; rewrite E; reflexivity.
Qed.

Lemma string_leb_iff a b : String.leb a b = true <-> a = b \/ String.ltb a b = true.
Proof.
  unfold String.leb, String.ltb; destruct (String.compare a b) eqn:E.
  - apply String.compare_eq_iff in E; tauto.
  - tauto.
  - split; [discriminate |]; intros [-> | H]; [| discriminate].
    rewrite string_compare_refl in E; discriminate.
Qed.

Lemma string_ltb_trans a b c :
  String.ltb a b = true -> String.ltb b c = true -> String.ltb a c = true.
Proof.
  unfold String.ltb; intros H1 H2.
  destruct (String.compare a b) eqn:E1; try discriminate.
  destruct (String.compare b c) eqn:E2; try discriminate.
  rewrite (string_compare_lt_trans _ _ _ E1 E2); reflexivity.
Qed.

Lemma string_leb_trans a b c :
  String.leb a b = true -> String.leb b c = true -> String.leb a c = true.
Proof.
  rewrite !string_leb_iff; intros [-> | H1] [-> | H2]; auto.
  right; eapply string_ltb_trans; eassumption.
Qed.

Lemma string_not_ltb_leb a b : String.ltb a b = false -> String.leb b a = true.
Proof.
  unfold String.ltb, String.leb; rewrite (String.compare_antisym b a).
  destruct (String.compare a b); simpl; congruence.
Qed.

Lemma insertString_perm x l : Permutation (Dashboard.insertString x l) (x :: l).
Proof.
  induction l as [| y l IH]; simpl; [apply Permutation_refl |].
  destruct (String.ltb y x); [| apply Permutation_refl].
  eapply perm_trans; [apply perm_skip; exact IH | apply perm_swap].
Qed.

Lemma sortStrings_perm l : Permutation (Dashboard.sortStrings l) l.
Proof.
  induction l as [| x l IH]; simpl; [constructor |].
  eapply perm_trans; [apply insertString_perm | apply perm_skip; exact IH].
Qed.

Lemma insertString_sorted x l :
  StronglySorted (fun a b => String.leb a b = true) l ->
  StronglySorted (fun a b => String.leb a b = true) (Dashboard.insertString x l).
Proof.
  intros Hs; induction Hs as [| y l Hs IH Hy]; simpl.
  - constructor; constructor.
  - destruct (String.ltb y x) eqn:E.
    + constructor; [exact IH |].
      apply Forall_forall; intros z Hz.
      apply (Permutation_in _ (insertString_perm x l)) in Hz; destruct Hz as [<- | Hz].
      * apply string_leb_iff; right; exact E.
      * rewrite Forall_forall in Hy; auto.
    + pose proof (string_not_ltb_leb _ _ E) as Hxy.
      constructor; [constructor; assumption |].
      constructor; [exact Hxy |].
      apply Forall_forall; intros z Hz; rewrite Forall_forall in Hy.
      eapply string_leb_trans; [exact Hxy | auto].
Qed.

Lemma sortStrings_sorted l :
  StronglySorted (fun a b => String.leb a b = true) (Dashboard.sortStrings l).
Proof.
  induction l as [| x l IH]; simpl; [constructor | apply insertString_sorted; exact IH].
Qed.

Lemma startsWith_iff s p : Dashboard.startsWith s p = true <-> exists b, s = (p ++ b)%string.
Proof.
  revert s; induction p as [| x p IH]; intros s; simpl.
  - split; [intros _; exists s; reflexivity | destruct s; reflexivity].
  - destruct s as [| c s]; cbn [Dashboard.startsWith];
      [split; [discriminate | intros [b Hb]; discriminate] |].
    rewrite andb_true_iff, IH; split.
    + intros [Hc [b ->]]; apply Ascii.eqb_eq in Hc; subst; exists b; reflexivity.
    + intros [b Hb]; inversion Hb; subst; split; [apply Ascii.eqb_refl | eauto].
Qed.

Lemma includes_iff s needle :
  Dashboard.includes s needle = true <-> exists a b, s = (a ++ needle ++ b)%string.
Proof.
  induction s as [| c s IH].
  - cbn [Dashboard.includes]; rewrite orb_false_r, startsWith_iff; split.
    + intros [b Hb]; exists EmptyString, b; exact Hb.
    + intros (a & b & H); destruct a; [exists b; exact H |]; discriminate.
  - cbn [Dashboard.includes]; rewrite orb_true_iff, startsWith_iff, IH; split.
    + intros [[b Hb] | (a & b & H)].
      * exists EmptyString, b; exact Hb.
      * exists (String c a), b; rewrite H; reflexivity.
    + intros (a & b & H); destruct a as [| x a].
      * left; exists b; exact H.
      * right; simpl in H; inversion H; subst; eauto.
Qed.

(** X15: the list of suggestions is ascending in the order of code units,
    and holds, with their multiplicity, the names of exactly the entries
    whose name in lower case contains the search term in lower case
    somewhere; the empty search term gives every name. *)
Theorem suggestions_are_sorted_matches (allData : list RideData) (searchTerm : string) :
  StronglySorted (fun a b => String.leb a b = true)
                 (Dashboard.filteredAttractions allData searchTerm) /\
  (exists matching,
     Permutation (Dashboard.filteredAttractions allData searchTerm)
                 (map ride_name matching) /\
     matching = filter (fun entry =>
                          Dashboard.includes (toLowerCase (ride_name entry))
                                             (toLowerCase searchTerm)) allData /\
     forall entry, In entry matching <->
       In entry allData /\
       exists a b, toLowerCase (ride_name entry) = (a ++ toLowerCase searchTerm ++ b)%string) /\
  Permutation (Dashboard.filteredAttractions allData EmptyString) (map ride_name allData).
Proof.
  unfold Dashboard.filteredAttractions; split; [apply sortStrings_sorted |]; split.
  - eexists; split; [apply sortStrings_perm |]; split; [reflexivity |].
    intros entry; rewrite filter_In, includes_iff; reflexivity.
  - eapply perm_trans; [apply sortStrings_perm |].
    replace (filter _ allData) with allData; [apply Permutation_refl |].
    induction allData as [| x l IH]; [reflexivity |].
    cbn [filter toLowerCase].
    replace (Dashboard.includes (toLowerCase (ride_name x)) EmptyString) with true
      by (destruct (toLowerCase (ride_name x)); reflexivity).
    f_equal; exact IH.
Qed.

Lemma find_unique {A : Type} (f : A -> bool) (l : list A) (x : A) :
  (forall y, In y l -> f y = true -> y = x) -> In x l -> f x = true ->
  find f l = Some x.
Proof.
  intros Huniq Hin Hf.
  destruct (find f l) as [y |] eqn:E.
  - apply find_some in E; destruct E as [Hy Hfy]; f_equal; auto.
  - exfalso; pose proof (find_none f l E x Hin); congruence.
Qed.

(** X16: when [processCSVData] returns, the selection of a ride on its
    current data returns the latest entry of that ride, whose name is then
    not the name of a member of [Object.prototype]; it returns nothing
    exactly when the selected name is such a name or the ride has no
    reading.  The plain dashboard returns nothing for the empty selection;
    the styled one then returns the entry of the ride with the empty name,
    if there is one. *)
Theorem selection_returns_latest_entry (host : Host) (v : variant) (csvText : string)
    (pd : ProcessedData) :
  processCSVData host v csvText = Normal pd ->
  exists rs,
    readings host csvText = Normal rs /\
    (forall sel e,
       v = Styled \/ sel <> EmptyString ->
       (Dashboard.selectedAttractionData v (currentData pd) sel = Some e <->
        In e (currentData pd) /\ ride_name e = sel)) /\
    (forall sel e,
       Dashboard.selectedAttractionData v (currentData pd) sel = Some e ->
       inherited sel = false /\ LatestOf sel rs e) /\
    (forall sel,
       v = Styled \/ sel <> EmptyString ->
       (Dashboard.selectedAttractionData v (currentData pd) sel = None <->
        inherited sel = true \/ ~ exists r, In r rs /\ rideKey r = sel)) /\
    Dashboard.selectedAttractionData Plain (currentData pd) EmptyString = None.
Proof.
  intros H.
  destruct (processCSVData_inv _ _ _ _ H) as (rs & acc & Hrs & _ & Hinv & ->).
  exists rs; split; [exact Hrs |].
  set (cd := currentData (assemble host acc)).
  set (f := fun sel (entry : RideData) => String.eqb (ride_name entry) sel).
  assert (Hfind : forall sel e, find (f sel) cd = Some e <-> In e cd /\ ride_name e = sel).
  { intros sel e; split.
    - intros Hf; apply find_some in Hf; destruct Hf as [Hin Hf].
      apply String.eqb_eq in Hf; auto.
    - intros [Hin Hn]; apply find_unique; auto.
      + intros y Hy Hfy; apply String.eqb_eq in Hfy.
        destruct (summary_latest host v rs acc Hinv sel) as (_ & _ & Huniq); auto.
      + apply String.eqb_eq; exact Hn. }
  assert (Hsel : forall sel, v = Styled \/ sel <> EmptyString ->
                 Dashboard.selectedAttractionData v cd sel = find (f sel) cd).
  { intros sel Hor; unfold Dashboard.selectedAttractionData; destruct v; [| reflexivity].
    destruct sel; [destruct Hor; [discriminate | congruence] | reflexivity]. }
  split; [| split; [| split]].
  - intros sel e Hor; rewrite (Hsel sel Hor); apply Hfind.
  - intros sel e Hs.
    assert (Hf : find (f sel) cd = Some e).
    { unfold Dashboard.selectedAttractionData in Hs; destruct v; [| exact Hs].
      destruct (isEmpty sel); [discriminate | exact Hs]. }
    apply Hfind in Hf; destruct Hf as [Hin Hn].
    destruct (summary_latest host v rs acc Hinv sel) as (_ & Hlatest & _); auto.
  - intros sel Hor; rewrite (Hsel sel Hor).
    destruct (summary_latest host v rs acc Hinv sel) as (Hex & Hlatest & _).
    split.
    + intros Hnone; destruct (inherited sel) eqn:Hinh; [left; reflexivity | right].
      rewrite (Hex eq_refl); intros (e & Hin & Hn).
      assert (Hf : find (f sel) cd = Some e) by (apply Hfind; auto).
      congruence.
    + intros Hno; destruct (find (f sel) cd) as [e |] eqn:E; [| reflexivity].
      exfalso; apply Hfind in E; destruct E as [Hin Hn].
      destruct (Hlatest e Hin Hn) as [Hinh _].
      destruct Hno as [Ht | Hno]; [congruence |].
      apply Hno; apply (Hex Hinh); exists e; auto.
  - reflexivity.
Qed.

Lemma selection_returns_latest_entry_witness :
  exists pd,
    processCSVData UtcHost.host Plain Examples.twoRides = Normal pd /\
    exists rs,
      readings UtcHost.host Examples.twoRides = Normal rs /\
      (forall sel e,
         Plain = Styled \/ sel <> EmptyString ->
         (Dashboard.selectedAttractionData Plain (currentData pd) sel = Some e <->
          In e (currentData pd) /\ ride_name e = sel)) /\
      (forall sel e,
         Dashboard.selectedAttractionData Plain (currentData pd) sel = Some e ->
         inherited sel = false /\ LatestOf sel rs e) /\
      (forall sel,
         Plain = Styled \/ sel <> EmptyString ->
         (Dashboard.selectedAttractionData Plain (currentData pd) sel = None <->
          inherited sel = true \/ ~ exists r, In r rs /\ rideKey r = sel)) /\
      Dashboard.selectedAttractionData Plain (currentData pd) EmptyString = None.
Proof.
  eexists; split; [vm_compute; reflexivity |].
  apply (selection_returns_latest_entry UtcHost.host Plain); vm_compute; reflexivity.
Defined.

(** X17: when [processCSVData] returns, in either variant, the look-up of
    the selected ride in the peaks returns the one peak entry of that name,
    which was made from an open reading of that ride.  Unless the name is
    that of a member of [Object.prototype] or, in the styled variant, of a
    field of a peak entry, the entry is the peak entry of the ride, and the
    look-up returns nothing exactly when the ride has no open reading.  The
    look-up in the troughs returns the trough entry of that ride, and
    nothing exactly when the ride has no open reading with an hour in
    10..17. *)
Theorem details_find_peak_and_trough (host : Host) (v : variant) (csvText : string)
    (pd : ProcessedData) :
  processCSVData host v csvText = Normal pd ->
  exists rs,
    readings host csvText = Normal rs /\
    forall sel,
      (forall e, Dashboard.findEntry (maxData pd) sel = Some e <->
                 In e (maxData pd) /\ mm_ride_name e = sel) /\
      (forall e, Dashboard.findEntry (maxData pd) sel = Some e ->
                 exists r, In r rs /\ rideKey r = sel /\ isRideOpen r = true /\
                           max_wait_time e = Some (numericWaitTime r) /\
                           currentDate r = Some (mm_timestamp e)) /\
      (reservedFor v rs sel = false ->
       (forall e, Dashboard.findEntry (maxData pd) sel = Some e -> PeakOf sel rs e) /\
       (Dashboard.findEntry (maxData pd) sel = None <->
        ~ exists r, In r rs /\ rideKey r = sel /\ isRideOpen r = true)) /\
      (forall e, Dashboard.findEntry (minData pd) sel = Some e <->
                 In e (minData pd) /\ mm_ride_name e = sel) /\
      (Dashboard.findEntry (minData pd) sel = None <->
       ~ exists r, In r rs /\ rideKey r = sel /\
                   isRideOpen r = true /\ hourWithin 10 18 (currentHour r) = true).
Proof.
  intros H.
  destruct (processCSVData_made _ _ _ _ H) as (rs & acc & Hrs & Hinv & Hh & ->).
  exists rs; split; [exact Hrs |]; intros sel.
  set (f := fun (entry : RideMaxMinData) => String.eqb (mm_ride_name entry) sel).
  assert (Hgen : forall (data : list RideMaxMinData),
            (forall e e', In e data -> In e' data ->
                          mm_ride_name e = sel -> mm_ride_name e' = sel -> e = e') ->
            forall e, find f data = Some e <-> In e data /\ mm_ride_name e = sel).
  { intros data Huniq e; split.
    - intros Hf; apply find_some in Hf; destruct Hf as [Hin Hf].
      apply String.eqb_eq in Hf; auto.
    - intros [Hin Hn]; apply find_unique; auto.
      + intros y Hy Hfy; apply String.eqb_eq in Hfy; auto.
      + apply String.eqb_eq; exact Hn. }
  assert (Hnone : forall (data : list RideMaxMinData),
            (forall e, find f data = Some e <-> In e data /\ mm_ride_name e = sel) ->
            (find f data = None <-> ~ exists e, In e data /\ mm_ride_name e = sel)).
  { intros data Hiff; split.
    - intros Hn (e & He); apply Hiff in He; congruence.
    - intros Hno; destruct (find f data) as [e |] eqn:E; [| reflexivity].
      exfalso; apply Hno; exists e; apply Hiff; reflexivity. }
  pose proof (Hgen _ (summary_peak_unique host v rs acc Hinv sel)) as Hmax.
  assert (Huniq' : forall e e', In e (minData (assemble host acc)) ->
                     In e' (minData (assemble host acc)) ->
                     mm_ride_name e = sel -> mm_ride_name e' = sel -> e = e').
  { intros e e' He He' Hn Hn'.
    assert (Hg : get (minWaitTimes acc) sel = Some e)
      by (apply (minData_get_any host v rs acc sel e Hinv Hh); auto).
    assert (Hg' : get (minWaitTimes acc) sel = Some e')
      by (apply (minData_get_any host v rs acc sel e' Hinv Hh); auto).
    congruence. }
  pose proof (Hgen _ Huniq') as Hmin.
  unfold Dashboard.findEntry; fold f.
  split; [exact Hmax |]; split; [| split; [| split; [exact Hmin |]]].
  - intros e He; apply Hmax in He.
    apply (maxData_get host v rs acc Hinv) in He.
    destruct (inv_max_kept _ _ _ _ Hinv sel e He) as (w & Hin & Hk & Ho & Hmk).
    apply makeMax_inv in Hmk; destruct Hmk as (Hd & _ & Hm & _).
    exists w; auto.
  - intros Hres.
    destruct (summary_peak host v rs acc Hinv sel Hres) as (Hex & Hpeak & _).
    split.
    + intros e He; apply Hmax in He; destruct He; auto.
    + rewrite (Hnone _ Hmax), Hex; reflexivity.
  - rewrite (Hnone _ Hmin).
    rewrite (ex_iff _ _ (fun e => minData_get_any host v rs acc sel e Hinv Hh)).
    rewrite (Holds_present _ _ _ _ sel Hh); unfold inTroughWindow.
    split; intros Hno (r & H1 & H2 & H3); apply Hno; exists r.
    + destruct H3 as [H3 H4]; rewrite H3, H4; auto.
    + apply andb_true_iff in H3; tauto.
Qed.

Lemma details_find_peak_and_trough_witness :
  exists pd,
    processCSVData UtcHost.host Styled Examples.twoRides = Normal pd /\
    exists rs,
      readings UtcHost.host Examples.twoRides = Normal rs /\
      forall sel,
        (forall e, Dashboard.findEntry (maxData pd) sel = Some e <->
                   In e (maxData pd) /\ mm_ride_name e = sel) /\
        (forall e, Dashboard.findEntry (maxData pd) sel = Some e ->
                   exists r, In r rs /\ rideKey r = sel /\ isRideOpen r = true /\
                             max_wait_time e = Some (numericWaitTime r) /\
                             currentDate r = Some (mm_timestamp e)) /\
        (reservedFor Styled rs sel = false ->
         (forall e, Dashboard.findEntry (maxData pd) sel = Some e -> PeakOf sel rs e) /\
         (Dashboard.findEntry (maxData pd) sel = None <->
          ~ exists r, In r rs /\ rideKey r = sel /\ isRideOpen r = true)) /\
        (forall e, Dashboard.findEntry (minData pd) sel = Some e <->
                   In e (minData pd) /\ mm_ride_name e = sel) /\
        (Dashboard.findEntry (minData pd) sel = None <->
         ~ exists r, In r rs /\ rideKey r = sel /\
                     isRideOpen r = true /\ hourWithin 10 18 (currentHour r) = true).
Proof.
  eexists; split; [vm_compute; reflexivity |].
  apply (details_find_peak_and_trough UtcHost.host Styled); vm_compute; reflexivity.
Defined.

(* ================================================================== *)
(** ** The styled trough away from zero *)


Lemma belowMin_styled_nonzero n m e :
  min_wait_time e = Some m -> m <> Fin 0 ->
  belowMin Styled n e = num_gtb' m n.
Proof.
  intros Hm Hnz; unfold belowMin, num_gtb'; rewrite Hm.
  destruct m as [z | |]; simpl; try reflexivity.
  destruct z; try reflexivity; congruence.
Qed.

Lemma forEach_styled_trough host k rs : forall pre acc acc',
  (forall r, In r (pre ++ rs) -> rideKey r = k -> inTroughWindow r = true ->
             numericWaitTime r <> Fin 0) ->
  AccInv host Styled pre acc ->
  TracksAt inTroughWindow makeMin waitScore num_gtb' storedMin k pre (minWaitTimes acc) ->
  forEach (step host Styled) rs acc = Normal acc' ->
  TracksAt inTroughWindow makeMin waitScore num_gtb' storedMin k (pre ++ rs) (minWaitTimes acc').
Proof.
  induction rs as [| r rs IH]; simpl; intros pre acc acc' Hnz Hinv HT H.
  - inversion H; subst; rewrite app_nil_r; assumption.
  - apply bind_Normal in H; destruct H as (acc1 & Hstep & H).
    replace (pre ++ r :: rs)%list with ((pre ++ [r]) ++ rs)%list in *
      by (rewrite <- app_assoc; reflexivity).
    eapply IH; [exact Hnz | exact (step_AccInv _ _ _ _ _ _ Hinv Hstep) | | exact H].
    destruct (step_min _ _ _ _ _ Hstep (AccInv_time_own _ _ _ _ Hinv)
                       (inv_min_proto _ _ _ _ Hinv)) as [Um _].
    eapply update_TracksAt; [| | | | exact HT | exact Um].
    + intros a b c H1 H2; unfold num_gtb' in *; eapply num_ltb_trans; eassumption.
    + intros a b c H0; unfold num_gtb' in *.
      destruct (num_ltb_cotrans _ b _ H0); auto.
    + intros r0 e H0; apply makeMin_inv in H0; unfold waitScore, storedMin.
      destruct H0 as (_ & _ & -> & _); reflexivity.
    + intros e Hget _; unfold TracksAt in HT; rewrite Hget in HT.
      destruct HT as (before & w & after & Hpre & Hk & Hw & Hmk & _).
      apply makeMin_inv in Hmk; destruct Hmk as (_ & _ & Hm & _).
      unfold waitScore, storedMin; rewrite Hm.
      apply belowMin_styled_nonzero; [exact Hm |].
      apply Hnz; auto.
      subst pre; rewrite !in_app_iff; left; left; right; left; reflexivity.
Qed.

(** X18: in the styled dashboard the trough entry of a ride is the one the
    plain dashboard keeps (made from the first open reading of the ride,
    with an hour in 10..17, whose wait is the minimum among them) whenever
    no such reading of that ride has a wait of 0. *)
Theorem styled_trough_is_first_minimum_away_from_zero (host : Host) (csvText : string)
    (pd : ProcessedData) :
  processCSVData host Styled csvText = Normal pd ->
  exists rs,
    readings host csvText = Normal rs /\
    forall k,
      (forall r, In r rs -> rideKey r = k -> isRideOpen r = true ->
                 hourWithin 10 18 (currentHour r) = true ->
                 numericWaitTime r <> Fin 0) ->
      forall e, In e (minData pd) -> mm_ride_name e = k -> TroughOf k rs e.
Proof.
  intros H.
  destruct (processCSVData_inv _ _ _ _ H) as (rs & acc & Hrs & Hfold & Hinv & ->).
  exists rs; split; [exact Hrs |]; intros k Hnz e Hin Hk.
  assert (Hg : get (minWaitTimes acc) k = Some e)
    by (apply (minData_get_held host Styled rs acc Hinv); auto).
  assert (HT : TracksAt inTroughWindow makeMin waitScore num_gtb' storedMin k
                        ([] ++ rs) (minWaitTimes acc)).
  { apply (forEach_styled_trough host k rs [] emptyAcc acc); [| | | exact Hfold].
    - intros r Hr Hrk Hw; unfold inTroughWindow in Hw; apply andb_true_iff in Hw.
      apply Hnz; tauto.
    - apply AccInv_empty.
    - intros r []. }
  unfold TracksAt in HT; rewrite Hg in HT.
  apply FirstTrough_TroughOf; exact HT.
Qed.

Lemma styled_trough_is_first_minimum_away_from_zero_witness :
  exists pd,
    processCSVData UtcHost.host Styled Examples.twoRides = Normal pd /\
    exists rs,
      readings UtcHost.host Examples.twoRides = Normal rs /\
      forall k,
        (forall r, In r rs -> rideKey r = k -> isRideOpen r = true ->
                   hourWithin 10 18 (currentHour r) = true ->
                   numericWaitTime r <> Fin 0) ->
        forall e, In e (minData pd) -> mm_ride_name e = k -> TroughOf k rs e.
Proof.
  eexists; split; [vm_compute; reflexivity |].
  apply (styled_trough_is_first_minimum_away_from_zero UtcHost.host); vm_compute; reflexivity.
Defined.

(* ================================================================== *)
(** ** The address of the feed *)

Lemma replaceDashes_app a b :
  Dashboard.replaceDashes (a ++ b) = (Dashboard.replaceDashes a ++ Dashboard.replaceDashes b)%string.
Proof. induction a as [| c a IH]; simpl; [reflexivity | rewrite IH; reflexivity]. Qed.

Lemma decimalDigit_not_dash k :
  0 <= k < 10 -> Ascii.eqb (Dashboard.decimalDigit k) "-"%char = false.
Proof.
  intros Hk.
  assert (Hc : k = 0 \/ k = 1 \/ k = 2 \/ k = 3 \/ k = 4 \/
               k = 5 \/ k = 6 \/ k = 7 \/ k = 8 \/ k = 9) by lia.
  repeat (destruct Hc as [-> | Hc]; [reflexivity |]); subst; reflexivity.
Qed.

Lemma decimal_no_dash fuel : forall n acc,
  0 <= n -> Dashboard.replaceDashes acc = acc ->
  Dashboard.replaceDashes (Dashboard.decimal fuel n acc) = Dashboard.decimal fuel n acc.
Proof.
  induction fuel as [| fuel IH]; intros n acc Hn Hacc; cbn [Dashboard.decimal]; [exact Hacc |].
  assert (Hd : Dashboard.replaceDashes (String (Dashboard.decimalDigit (n mod 10)) acc) =
               String (Dashboard.decimalDigit (n mod 10)) acc).
  { cbn [Dashboard.replaceDashes].
    rewrite decimalDigit_not_dash by (apply Z.mod_pos_bound; lia).
    rewrite Hacc; reflexivity. }
  cbv zeta; destruct (n <? 10); [exact Hd |].
  apply IH; [apply Z.div_pos; lia | exact Hd].
Qed.

Lemma NumberToString_no_dash n :
  0 <= n ->
  Dashboard.replaceDashes (Dashboard.NumberToString n) = Dashboard.NumberToString n.
Proof.
  intros Hn; unfold Dashboard.NumberToString.
  destruct (n <? 0) eqn:E; [apply Z.ltb_lt in E; lia |].
  apply decimal_no_dash; [exact Hn | reflexivity].
Qed.

Lemma padStart2_no_dash s :
  Dashboard.replaceDashes s = s ->
  Dashboard.replaceDashes (Dashboard.padStart2 s) = Dashboard.padStart2 s.
Proof.
  intros Hs; destruct s as [| a [| b s]]; [reflexivity | | exact Hs].
  unfold Dashboard.padStart2; cbn [String.length].
  change (Dashboard.replaceDashes (String "0" (String a EmptyString)))
    with (String "0"%char (Dashboard.replaceDashes (String a EmptyString))).
  rewrite Hs; reflexivity.
Qed.

(** X19: the address asked for in today mode is the address asked for in
    historical mode with the date input set to the same local day (a year
    of four digits); historical mode with no date chosen asks for the
    address of today; and the two addresses of the plain dashboard are the
    styled ones for the date input 2025-02-02. *)
Theorem today_address_is_historical_address_of_the_day (host : Host)
    (calendar : Dashboard.Calendar) (now : Z) (historicalDate : string)
    (park : Dashboard.Park) :
  1000 <= Dashboard.YearFromTime calendar (LocalTime host now) <= 9999 ->
  0 <= Dashboard.MonthFromTime calendar (LocalTime host now) <= 11 ->
  1 <= Dashboard.DateFromTime calendar (LocalTime host now) <= 31 ->
  Dashboard.getUrl host calendar now Dashboard.today historicalDate park =
    Dashboard.getUrl host calendar now Dashboard.historical
      (dateInputValue (Dashboard.YearFromTime calendar (LocalTime host now))
                      (Dashboard.MonthFromTime calendar (LocalTime host now) + 1)
                      (Dashboard.DateFromTime calendar (LocalTime host now)))
      park /\
  Dashboard.getUrl host calendar now Dashboard.historical EmptyString park =
    Dashboard.getUrl host calendar now Dashboard.today historicalDate park /\
  Dashboard.getUrl host calendar now Dashboard.historical "2025-02-02" Dashboard.disneyland =
    Dashboard.DISNEYLAND_PARK_URL /\
  Dashboard.getUrl host calendar now Dashboard.historical "2025-02-02" Dashboard.studios =
    Dashboard.WALT_DISNEY_STUDIOS_URL.
Proof.
  intros Hy Hm Hd.
  split; [| split; [reflexivity | split; reflexivity]].
  unfold Dashboard.getUrl; cbv zeta.
  set (y := Dashboard.YearFromTime calendar (LocalTime host now)) in *.
  set (m := Dashboard.MonthFromTime calendar (LocalTime host now)) in *.
  set (d := Dashboard.DateFromTime calendar (LocalTime host now)) in *.
  assert (Hne : isEmpty (dateInputValue y (m + 1) d) = false).
  { unfold dateInputValue.
    destruct (Dashboard.NumberToString y); reflexivity. }
  rewrite Hne; cbn [negb].
  assert (Hpath : Dashboard.replaceDashes (dateInputValue y (m + 1) d) =
                  Dashboard.formatDateForUrl host calendar (Some now)).
  { unfold dateInputValue, Dashboard.formatDateForUrl; cbv zeta.
    cbn [option_map Dashboard.getterToString]; fold y m d.
    rewrite !replaceDashes_app.
    rewrite (NumberToString_no_dash y) by lia.
    rewrite (padStart2_no_dash _ (NumberToString_no_dash (m + 1) ltac:(lia))).
    rewrite (padStart2_no_dash _ (NumberToString_no_dash d ltac:(lia))).
    reflexivity. }
  rewrite Hpath; reflexivity.
Qed.

Lemma today_address_is_historical_address_of_the_day_witness :
  Dashboard.getUrl UtcHost.host UtcCalendar.calendar 1738490400000
                   Dashboard.today "2024-12-24" Dashboard.studios =
    Dashboard.getUrl UtcHost.host UtcCalendar.calendar 1738490400000 Dashboard.historical
      (dateInputValue 2025 2 2) Dashboard.studios /\
  Dashboard.getUrl UtcHost.host UtcCalendar.calendar 1738490400000
                   Dashboard.historical EmptyString Dashboard.studios =
    Dashboard.getUrl UtcHost.host UtcCalendar.calendar 1738490400000
                     Dashboard.today "2024-12-24" Dashboard.studios /\
  Dashboard.getUrl UtcHost.host UtcCalendar.calendar 1738490400000
                   Dashboard.historical "2025-02-02" Dashboard.disneyland =
    Dashboard.DISNEYLAND_PARK_URL /\
  Dashboard.getUrl UtcHost.host UtcCalendar.calendar 1738490400000
                   Dashboard.historical "2025-02-02" Dashboard.studios =
    Dashboard.WALT_DISNEY_STUDIOS_URL.
Proof.
  apply (today_address_is_historical_address_of_the_day
           UtcHost.host UtcCalendar.calendar 1738490400000 "2024-12-24" Dashboard.studios);
    vm_compute; split; discriminate.
Defined.

(* ================================================================== *)
(** ** Loading a feed *)

(** X20: a load is all or nothing.  Whatever the network answers, once the
    call has settled the loading flag is down and the selection and the
    search term are as before; and either no error is shown, the response
    was ok, its text made [processCSVData] return and the state shows that
    summary, or an error message is shown and every datum shown (entries,
    peaks, troughs, series and time of last update) is as before the
    call. *)
Theorem load_is_all_or_nothing (host : Host) (messageOf : exn -> string)
    (formatClock : Z -> string) (network : string -> Dashboard.settled Dashboard.Response)
    (v : variant) (url : string) (st st' : Dashboard.Ui.State) :
  Dashboard.fetchCSVFromS3 host messageOf formatClock network v url st = Normal st' ->
  Dashboard.Ui.isLoading st' = false /\
  Dashboard.Ui.selectedAttraction st' = Dashboard.Ui.selectedAttraction st /\
  Dashboard.Ui.searchTerm st' = Dashboard.Ui.searchTerm st /\
  ((Dashboard.Ui.error st' = None /\
    exists response csvText pd,
      network url = Dashboard.Fulfilled response /\
      Dashboard.ok response = true /\
      Dashboard.text response = Dashboard.Fulfilled csvText /\
      processCSVData host v csvText = Normal pd /\
      Dashboard.Ui.allData st' = currentData pd /\
      Dashboard.Ui.maxData st' = maxData pd /\
      Dashboard.Ui.minData st' = minData pd /\
      Dashboard.Ui.attractionTimeData st' = timeData pd /\
      Dashboard.Ui.lastUpdated st' =
        Some (match latestTimestamp pd with
              | Some m => formatClock m
              | None => "Unknown"
              end)) \/
   (exists message,
      Dashboard.Ui.error st' = Some message /\ shown st' = shown st)).
Proof.
  unfold Dashboard.fetchCSVFromS3; cbv zeta; intros H.
  destruct (network url) as [response | m] eqn:En.
  2:{ inversion H; subst; cbn; repeat split; right; eexists; split; reflexivity. }
  destruct (Dashboard.ok response) eqn:Eok; cbn [negb] in H.
  2:{ inversion H; subst; cbn; repeat split; right; eexists; split; reflexivity. }
  destruct (Dashboard.text response) as [csvText | m] eqn:Et.
  2:{ inversion H; subst; cbn; repeat split; right; eexists; split; reflexivity. }
  destruct (processCSVData host v csvText) as [pd | e |] eqn:Ep.
  - inversion H; subst; cbn.
    split; [reflexivity |]; split; [reflexivity |]; split; [reflexivity |].
    left; split; [reflexivity |].
    exists response, csvText, pd; repeat split; assumption.
  - inversion H; subst; cbn; repeat split; right; eexists; split; reflexivity.
  - discriminate.
Qed.

Lemma load_is_all_or_nothing_witness :
  exists st',
    Dashboard.fetchCSVFromS3 UtcHost.host
      (fun e => match e with TypeError => "TypeError" | RangeError => "RangeError" end)
      UtcHost.hhmm
      (fun _ => Dashboard.Fulfilled
                  {| Dashboard.ok := true; Dashboard.status := 200;
                     Dashboard.text := Dashboard.Fulfilled Examples.twoRides |})
      Styled Dashboard.DISNEYLAND_PARK_URL initialState = Normal st' /\
    Dashboard.Ui.isLoading st' = false /\
    Dashboard.Ui.selectedAttraction st' = Dashboard.Ui.selectedAttraction initialState /\
    Dashboard.Ui.searchTerm st' = Dashboard.Ui.searchTerm initialState /\
    ((Dashboard.Ui.error st' = None /\
      exists response csvText pd,
        Dashboard.Fulfilled
          {| Dashboard.ok := true; Dashboard.status := 200;
             Dashboard.text := Dashboard.Fulfilled Examples.twoRides |} =
          Dashboard.Fulfilled response /\
        Dashboard.ok response = true /\
        Dashboard.text response = Dashboard.Fulfilled csvText /\
        processCSVData UtcHost.host Styled csvText = Normal pd /\
        Dashboard.Ui.allData st' = currentData pd /\
        Dashboard.Ui.maxData st' = maxData pd /\
        Dashboard.Ui.minData st' = minData pd /\
        Dashboard.Ui.attractionTimeData st' = timeData pd /\
        Dashboard.Ui.lastUpdated st' =
          Some (match latestTimestamp pd with
                | Some m => UtcHost.hhmm m
                | None => "Unknown"
                end)) \/
     (exists message,
        Dashboard.Ui.error st' = Some message /\ shown st' = shown initialState)).
Proof.
  eexists; split; [vm_compute; reflexivity |].
  apply (load_is_all_or_nothing UtcHost.host
           (fun e => match e with TypeError => "TypeError" | RangeError => "RangeError" end)
           UtcHost.hhmm
           (fun _ => Dashboard.Fulfilled
                       {| Dashboard.ok := true; Dashboard.status := 200;
                          Dashboard.text := Dashboard.Fulfilled Examples.twoRides |})
           Styled Dashboard.DISNEYLAND_PARK_URL initialState).
  vm_compute; reflexivity.
Defined.

(* ================================================================== *)
(** ** The details of the selected ride *)

(** X21: when [processCSVData] returns, the details of a selected ride come
    with its chart: for a selection other than the empty name, if the
    selection finds an entry then the chart is drawn on the sorted series of
    that ride, and if it finds none then no chart is drawn; with the empty
    selection no chart is drawn. *)
Theorem details_come_with_their_chart (host : Host) (v : variant) (csvText : string)
    (pd : ProcessedData) :
  processCSVData host v csvText = Normal pd ->
  exists rs,
    readings host csvText = Normal rs /\
    (forall sel e,
       sel <> EmptyString ->
       Dashboard.selectedAttractionData v (currentData pd) sel = Some e ->
       Dashboard.chartData (timeData pd) sel = Normal (Some (sort host (series host sel rs)))) /\
    (forall sel,
       sel <> EmptyString -> inherited sel = false ->
       Dashboard.selectedAttractionData v (currentData pd) sel = None ->
       Dashboard.chartData (timeData pd) sel = Normal None) /\
    Dashboard.chartData (timeData pd) EmptyString = Normal None.
Proof.
  intros H.
  destruct (processCSVData_inv _ _ _ _ H) as (rs & acc & Hrs & _ & Hinv & ->).
  exists rs; split; [exact Hrs |].
  pose proof (timeData_get host v rs acc) as Hget.
  assert (Hsel : forall sel, sel <> EmptyString ->
            Dashboard.selectedAttractionData v (currentData (assemble host acc)) sel =
            find (fun entry => String.eqb (ride_name entry) sel)
                 (currentData (assemble host acc))).
  { intros sel Hne; unfold Dashboard.selectedAttractionData; destruct v; [| reflexivity].
    destruct sel; [congruence | reflexivity]. }
  split; [| split; [| reflexivity]].
  - intros sel e Hne Hs; rewrite (Hsel sel Hne) in Hs.
    apply find_some in Hs; destruct Hs as [Hin Hn]; apply String.eqb_eq in Hn.
    destruct (summary_latest host v rs acc Hinv sel) as (Hex & Hlatest & _).
    destruct (Hlatest e Hin Hn) as [Hinh _].
    assert (Hex' : existsb (ofRide sel) rs = true).
    { apply existsb_ofRide; apply (Hex Hinh); exists e; auto. }
    unfold Dashboard.chartData; rewrite (Hget sel Hinv), Hex', Hinh.
    destruct sel; [congruence | reflexivity].
  - intros sel Hne Hinh Hs; rewrite (Hsel sel Hne) in Hs.
    assert (Hex : existsb (ofRide sel) rs = false).
    { destruct (existsb (ofRide sel) rs) eqn:E; [| reflexivity].
      apply existsb_ofRide in E.
      destruct (summary_latest host v rs acc Hinv sel) as (Hex & _ & _).
      apply (Hex Hinh) in E; destruct E as (e & Hin & Hn).
      pose proof (find_none _ _ Hs e Hin) as Hf; cbv beta in Hf.
      apply String.eqb_neq in Hf; contradiction. }
    unfold Dashboard.chartData; rewrite (Hget sel Hinv), Hex, Hinh.
    destruct sel; [congruence | reflexivity].
Qed.

Lemma details_come_with_their_chart_witness :
  exists pd,
    processCSVData UtcHost.host Styled Examples.twoRides = Normal pd /\
    exists rs,
      readings UtcHost.host Examples.twoRides = Normal rs /\
      (forall sel e,
         sel <> EmptyString ->
         Dashboard.selectedAttractionData Styled (currentData pd) sel = Some e ->
         Dashboard.chartData (timeData pd) sel =
           Normal (Some (sort UtcHost.host (series UtcHost.host sel rs)))) /\
      (forall sel,
         sel <> EmptyString -> inherited sel = false ->
         Dashboard.selectedAttractionData Styled (currentData pd) sel = None ->
         Dashboard.chartData (timeData pd) sel = Normal None) /\
      Dashboard.chartData (timeData pd) EmptyString = Normal None.
Proof.
  eexists; split; [vm_compute; reflexivity |].
  apply (details_come_with_their_chart UtcHost.host Styled); vm_compute; reflexivity.
Defined.

(* ================================================================== *)
(** ** The plain trough on an example *)

Lemma plain_trough_is_first_minimum_witness :
  exists pd,
    processCSVData UtcHost.host Plain Examples.zeroTrough = Normal pd /\
    exists rs,
      readings UtcHost.host Examples.zeroTrough = Normal rs /\
      forall k,
        ((exists r, In r rs /\ rideKey r = k /\
                    isRideOpen r = true /\ hourWithin 10 18 (currentHour r) = true) <->
         (exists e, In e (minData pd) /\ mm_ride_name e = k)) /\
        (forall e, In e (minData pd) -> mm_ride_name e = k -> TroughOf k rs e).
Proof.
  eexists; split; [vm_compute; reflexivity |].
  apply (plain_trough_is_first_minimum UtcHost.host); vm_compute; reflexivity.
Defined.
